(** * draw_jobs.py: the qstat parser and the schedule renderer

    A shallow embedding of [src/draw_jobs.py] and the properties its
    specification states about it.

    Conventions of the embedding.
    - Python [str] values are [string]s of [ascii] characters: the qstat
      output the program reads is ASCII text.  [\d] and [str.strip()] are
      therefore the ASCII digits and the ASCII white space.
    - An uncaught Python exception is a [Raise e] result; [return None] in
      [job_from_qstat] is [Ok None].
    - [datetime.now()] reads a clock: the readings are an oracle
      [now : nat -> datetime] indexed by the number of earlier readings, and
      the functions that read the clock thread that number.
    - [datetime.strptime(_, "%c")] depends on the locale and is an oracle
      [strptime_c]; [None] stands for its [ValueError].
    - [int] is the one of CPython 3.11 and later, which refuses a decimal
      literal of more digits than [sys.get_int_max_str_digits()], 4300 by
      default.
    - Floats (the hour offsets of the renderer) are exact rationals. *)

From Stdlib Require Import Bool Arith ZArith QArith Lia List Ascii String.
From Stdlib Require Import Sorting.Sorted Sorting.Permutation.
Import ListNotations.

Open Scope string_scope.
Open Scope list_scope.
Open Scope Z_scope.

(* ================================================================== *)
(** ** Exceptions and results *)

Inductive exn : Type :=
| ValueError
| AttributeError
| OverflowError
| KeyError
| TypeError.

Inductive result (A : Type) : Type :=
| Ok (a : A)
| Raise (e : exn).

Arguments Ok {A} a.
Arguments Raise {A} e.

Definition bind {A B : Type} (m : result A) (f : A -> result B) : result B :=
  match m with
  | Ok a => f a
  | Raise e => Raise e
  end.

Notation "x <- m ;; k" := (bind m (fun x => k))
  (at level 61, m at next level, right associativity).

(* ================================================================== *)
(** ** The [str] methods the program uses *)

Module Str.

(** [s.startswith(p)] *)
Fixpoint startswith (p s : string) : bool :=
  match p with
  | EmptyString => true
  | String a p' =>
      match s with
      | EmptyString => false
      | String b s' => Ascii.eqb a b && startswith p' s'
      end
  end.

(** [s[n:]] and [s[:n]] *)
Fixpoint drop (n : nat) (s : string) : string :=
  match n, s with
  | O, _ => s
  | S _, EmptyString => EmptyString
  | S n', String _ s' => drop n' s'
  end.

Fixpoint take (n : nat) (s : string) : string :=
  match n, s with
  | O, _ => EmptyString
  | S _, EmptyString => EmptyString
  | S n', String a s' => String a (take n' s')
  end.

(** Puts a character in front of the first piece of a split. *)
Definition cons_head (a : ascii) (l : list string) : list string :=
  match l with
  | [] => [String a EmptyString]
  | h :: t => String a h :: t
  end.

(** [s.split(sep)] for a non-empty [sep]: scanning from the left, every
    occurrence of [sep] that does not overlap the previous one closes a
    piece.  [skip] counts the characters of a separator still to pass. *)
Fixpoint split_from (sep : string) (skip : nat) (s : string) : list string :=
  match s with
  | EmptyString => [EmptyString]
  | String a s' =>
      match skip with
      | S n => split_from sep n s'
      | O =>
          if startswith sep s
          then EmptyString :: split_from sep (String.length sep - 1) s'
          else cons_head a (split_from sep 0 s')
      end
  end.

Definition split (sep s : string) : list string := split_from sep 0 s.

(** [s.find(sub)]: the lowest index of [sub] in [s], or -1. *)
Fixpoint find_from (sub s : string) (i : Z) : Z :=
  if startswith sub s then i
  else match s with
       | EmptyString => -1
       | String _ s' => find_from sub s' (i + 1)
       end.

Definition find (sub s : string) : Z := find_from sub s 0.

(** [s.index(sub)]: as [find], but a missing [sub] raises [ValueError]. *)
Definition index (sub s : string) : result Z :=
  let i := find sub s in
  if i =? -1 then Raise ValueError else Ok i.

(** [sub in s] *)
Definition contains (sub s : string) : bool := 0 <=? find sub s.

(** [s.lstrip(chars)], [s.rstrip(chars)], [s.strip(chars)], the set of
    characters given as a predicate. *)
Fixpoint lstrip (p : ascii -> bool) (s : string) : string :=
  match s with
  | EmptyString => EmptyString
  | String a s' => if p a then lstrip p s' else s
  end.

Fixpoint rstrip (p : ascii -> bool) (s : string) : string :=
  match s with
  | EmptyString => EmptyString
  | String a s' =>
      match rstrip p s' with
      | EmptyString => if p a then EmptyString else String a EmptyString
      | t => String a t
      end
  end.

Definition strip (p : ascii -> bool) (s : string) : string :=
  rstrip p (lstrip p s).

(** White space of [str.strip()] among the ASCII characters: TAB, LF, VT,
    FF, CR, FS, GS, RS, US and the space. *)
Definition isspace (a : ascii) : bool :=
  let n := nat_of_ascii a in
  ((9 <=? n) && (n <=? 13) || (28 <=? n) && (n <=? 32))%nat.

Definition strip_ws (s : string) : string := strip isspace s.

(** White space of [int] around a literal, the one of C: TAB, LF, VT, FF, CR
    and the space, and not FS, GS, RS, US. *)
Definition isspace_c (a : ascii) : bool :=
  let n := nat_of_ascii a in
  ((9 <=? n) && (n <=? 13) || (n =? 32))%nat.

Definition is_char (c a : ascii) : bool := Ascii.eqb a c.

(** [s.replace(old, new, 1)]: only the first occurrence is replaced. *)
Fixpoint replace_first (old new s : string) : string :=
  if startswith old s then (new ++ drop (String.length old) s)%string
  else match s with
       | EmptyString => EmptyString
       | String a s' => String a (replace_first old new s')
       end.

(** Number of occurrences of a character. *)
Fixpoint count_char (c : ascii) (s : string) : nat :=
  match s with
  | EmptyString => O
  | String a s' => ((if Ascii.eqb a c then 1 else 0) + count_char c s')%nat
  end.

End Str.

(* ================================================================== *)
(** ** Regular expressions: the fragment of [re] the program uses

    A backtracking matcher in continuation-passing style, as [re] matches:
    a quantifier is greedy and gives characters back when what follows
    fails, and an optional group is tried before it is skipped. *)

Module Re.

Inductive glabel : Type :=
| Num (n : nat)          (* ( ... ), by its number *)
| Named (name : string). (* (?P<name> ... ) *)

Inductive regex : Type :=
| Lit (s : string)             (* literal text *)
| Star (cls : ascii -> bool)   (* [cls]* *)
| Plus (cls : ascii -> bool)   (* [cls]+ *)
| Group (g : glabel) (r : regex)
| Seq (r1 r2 : regex)
| Opt (r : regex).             (* r? *)

Definition glabel_eqb (a b : glabel) : bool :=
  match a, b with
  | Num n, Num m => Nat.eqb n m
  | Named x, Named y => String.eqb x y
  | _, _ => false
  end.

(** The groups that took part in the match, the latest first. *)
Definition captures := list (glabel * string).

Fixpoint lookup (g : glabel) (c : captures) : option string :=
  match c with
  | [] => None
  | (g', v) :: c' => if glabel_eqb g g' then Some v else lookup g c'
  end.

Section Matcher.
Context {R : Type}.

(** [cls*] on [s]: the longest run first, then one character less. *)
Fixpoint star (cls : ascii -> bool) (s : string)
         (k : string -> option R) : option R :=
  match s with
  | String c s' =>
      if cls c
      then match star cls s' k with
           | Some x => Some x
           | None => k s
           end
      else k s
  | EmptyString => k s
  end.

Fixpoint rmatch (r : regex) (s : string) (caps : captures)
         (k : string -> captures -> option R) : option R :=
  match r with
  | Lit l =>
      if Str.startswith l s then k (Str.drop (String.length l) s) caps
      else None
  | Star cls => star cls s (fun rest => k rest caps)
  | Plus cls =>
      match s with
      | String c s' =>
          if cls c then star cls s' (fun rest => k rest caps) else None
      | EmptyString => None
      end
  | Group g r1 =>
      rmatch r1 s caps
        (fun rest caps' =>
           k rest
             ((g, Str.take (String.length s - String.length rest) s)
                :: caps'))
  | Seq r1 r2 =>
      rmatch r1 s caps (fun rest caps' => rmatch r2 rest caps' k)
  | Opt r1 =>
      match rmatch r1 s caps k with
      | Some x => Some x
      | None => k s caps
      end
  end.
End Matcher.

(** A match object: [group(0)] and the groups. *)
Record match_obj : Type := MkMatch {
  group0 : string;
  groups : captures
}.

(** [re.match(r, s)]: a match anchored at the start of [s] only. *)
Definition re_match (r : regex) (s : string) : option match_obj :=
  rmatch r s []
    (fun rest caps =>
       Some (MkMatch (Str.take (String.length s - String.length rest) s)
                     caps)).

Definition group (m : match_obj) (n : nat) : option string :=
  lookup (Num n) (groups m).

(** The names of the named groups of a pattern, in the pattern's order. *)
Fixpoint group_names (r : regex) : list string :=
  match r with
  | Lit _ | Star _ | Plus _ => []
  | Group (Named n) r1 => n :: group_names r1
  | Group (Num _) r1 => group_names r1
  | Seq r1 r2 => group_names r1 ++ group_names r2
  | Opt r1 => group_names r1
  end.

Definition isdigit (a : ascii) : bool :=
  let n := nat_of_ascii a in ((48 <=? n) && (n <=? 57))%nat.

End Re.

(* ================================================================== *)
(** ** [int(...)] *)

(** The values of the dictionary [groupdict(0)] returns: the text of a
    group, or the default [0] of a group that took no part. *)
Inductive pyval : Type :=
| VStr (s : string)
| VInt (z : Z).

Definition digit_val (a : ascii) : Z := Z.of_nat (nat_of_ascii a) - 48.

(** The digits of an integer literal after its first one: digits, with
    single underscores allowed between two digits. *)
Fixpoint int_digits (acc : Z) (s : string) : option Z :=
  match s with
  | EmptyString => Some acc
  | String c s' =>
      if Re.isdigit c then int_digits (acc * 10 + digit_val c) s'
      else if Ascii.eqb c "_"
      then match s' with
           | String d s'' =>
               if Re.isdigit d then int_digits (acc * 10 + digit_val d) s''
               else None
           | EmptyString => None
           end
      else None
  end.

Definition int_body (s : string) : option Z :=
  match s with
  | String c s' => if Re.isdigit c then int_digits (digit_val c) s' else None
  | EmptyString => None
  end.

(** The most digits [int] takes in a decimal literal:
    [sys.get_int_max_str_digits()], as the interpreter starts. *)
Definition INT_MAX_STR_DIGITS : nat := 4300.

(** The digits of a literal, its underscores left out. *)
Fixpoint count_digits (s : string) : nat :=
  match s with
  | EmptyString => O
  | String c s' =>
      ((if Re.isdigit c then 1 else 0) + count_digits s')%nat
  end.

(** [int(s)] for a string: white space of C around, an optional sign,
    decimal digits, no more of them than [INT_MAX_STR_DIGITS]; anything else
    is a [ValueError]. *)
Definition int_of_str (s : string) : result Z :=
  let t := Str.strip Str.isspace_c s in
  let body := match t with
              | String "+" b => b
              | String "-" b => b
              | _ => t
              end in
  let r := match t with
           | String "-" _ => option_map Z.opp (int_body body)
           | _ => int_body body
           end in
  match r with
  | Some z =>
      if (count_digits body <=? INT_MAX_STR_DIGITS)%nat then Ok z
      else Raise ValueError
  | None => Raise ValueError
  end.

Definition py_int (v : pyval) : result Z :=
  match v with
  | VStr s => int_of_str s
  | VInt z => Ok z
  end.

(* ================================================================== *)
(** ** [datetime.timedelta] and [datetime.datetime] *)

(** A [timedelta] as CPython stores it: [0 <= seconds < 86400],
    [0 <= microseconds < 1000000], and [|days| <= 999999999]. *)
Record timedelta : Type := MkTimedelta {
  td_days : Z;
  td_seconds : Z;
  td_microseconds : Z
}.

Definition US_PER_SECOND : Z := 1000000.
Definition US_PER_DAY : Z := 86400 * US_PER_SECOND.
Definition MAX_DELTA_DAYS : Z := 999999999.

Definition td_total_us (t : timedelta) : Z :=
  td_days t * US_PER_DAY + td_seconds t * US_PER_SECOND + td_microseconds t.

(** Normalisation of a number of microseconds; a number of days out of range
    is an [OverflowError]. *)
Definition timedelta_of_us (us : Z) : result timedelta :=
  let d := us / US_PER_DAY in
  let r := us mod US_PER_DAY in
  if (Z.abs d >? MAX_DELTA_DAYS) then Raise OverflowError
  else Ok (MkTimedelta d (r / US_PER_SECOND) (r mod US_PER_SECOND)).

(** The microseconds one unit of a keyword argument of [timedelta] is. *)
Definition kw_unit (key : string) : option Z :=
  if String.eqb key "days" then Some US_PER_DAY
  else if String.eqb key "seconds" then Some US_PER_SECOND
  else if String.eqb key "microseconds" then Some 1
  else if String.eqb key "milliseconds" then Some 1000
  else if String.eqb key "minutes" then Some (60 * US_PER_SECOND)
  else if String.eqb key "hours" then Some (3600 * US_PER_SECOND)
  else if String.eqb key "weeks" then Some (7 * US_PER_DAY)
  else None.

Fixpoint kw_total_us (kw : list (string * Z)) : result Z :=
  match kw with
  | [] => Ok 0
  | (key, v) :: kw' =>
      match kw_unit key with
      | None => Raise TypeError
      | Some u => t <- kw_total_us kw' ;; Ok (v * u + t)
      end
  end.

(** [timedelta( **kw )] with integer arguments. *)
Definition timedelta_kw (kw : list (string * Z)) : result timedelta :=
  us <- kw_total_us kw ;; timedelta_of_us us.

(** [timedelta()] *)
Definition timedelta_zero : timedelta := MkTimedelta 0 0 0.

(** [t.total_seconds()] as an exact rational. *)
Definition total_seconds (t : timedelta) : Q :=
  inject_Z (td_total_us t) / inject_Z US_PER_SECOND.

(** A naive [datetime]: the microseconds since 0001-01-01 00:00:00; the
    last one representable is 9999-12-31 23:59:59.999999. *)
Definition datetime : Type := Z.

Definition MAX_ORDINAL : Z := 3652059.

Definition datetime_in_range (d : datetime) : bool :=
  (0 <=? d) && (d <? MAX_ORDINAL * US_PER_DAY).

(** [d + t]: a date out of range is an [OverflowError]. *)
Definition datetime_add (d : datetime) (t : timedelta) : result datetime :=
  let r := d + td_total_us t in
  if datetime_in_range r then Ok r else Raise OverflowError.

(** [d1 - d2] *)
Definition datetime_sub (d1 d2 : datetime) : result timedelta :=
  timedelta_of_us (d1 - d2).

(* ================================================================== *)
(** ** [interval] *)

(** [((?P<days>\d+) days, )?(?P<hours>\d+):(?P<minutes>\d+):(?P<seconds>\d+)] *)
Definition INTERVAL_RE : Re.regex :=
  Re.Seq
    (Re.Opt
       (Re.Group (Re.Num 1)
          (Re.Seq (Re.Group (Re.Named "days") (Re.Plus Re.isdigit))
                  (Re.Lit " days, "))))
    (Re.Seq (Re.Group (Re.Named "hours") (Re.Plus Re.isdigit))
       (Re.Seq (Re.Lit ":")
          (Re.Seq (Re.Group (Re.Named "minutes") (Re.Plus Re.isdigit))
             (Re.Seq (Re.Lit ":")
                (Re.Group (Re.Named "seconds") (Re.Plus Re.isdigit)))))).

(** [m.groupdict(default)] *)
Definition groupdict (r : Re.regex) (m : Re.match_obj) (default : pyval)
  : list (string * pyval) :=
  map (fun n =>
         (n, match Re.lookup (Re.Named n) (Re.groups m) with
             | Some v => VStr v
             | None => default
             end))
      (Re.group_names r).

(** [dict(((key, int(value)) for key, value in d.items()))] *)
Fixpoint int_items (d : list (string * pyval)) : result (list (string * Z)) :=
  match d with
  | [] => Ok []
  | (key, v) :: d' =>
      z <- py_int v ;;
      rest <- int_items d' ;;
      Ok ((key, z) :: rest)
  end.

(** Converts a string to a timedelta.  [re.match] returns [None] when the
    pattern does not match, and [None.groupdict] is an [AttributeError]. *)
Definition interval (s : string) : result timedelta :=
  match Re.re_match INTERVAL_RE s with
  | None => Raise AttributeError
  | Some m =>
      kw <- int_items (groupdict INTERVAL_RE m (VInt 0)) ;;
      timedelta_kw kw
  end.

(* ================================================================== *)
(** ** The job record and its parser *)

(** [VAR_RE]: four spaces, a group of any number of characters other than
    the space and the equals sign, then space, equals sign, space. *)
Definition not_space_eq (a : ascii) : bool :=
  negb (Ascii.eqb a " " || Ascii.eqb a "=").

Definition VAR_RE : Re.regex :=
  Re.Seq (Re.Lit "    ")
    (Re.Seq (Re.Group (Re.Num 1) (Re.Star not_space_eq)) (Re.Lit " = ")).

(** The value of [job_id]: the list [split(":")] leaves, or the string line
    53 replaces it with. *)
Inductive job_id_t : Type :=
| IdList (l : list string)
| IdStr (s : string).

Record Job : Type := MkJob {
  job_id : job_id_t;
  job_name : string;
  job_state : string;
  job_owner : string;
  queue : string;
  nodect : Z;
  walltime : timedelta;
  eligible_time : datetime;
  exec_vnode : list string;
  start_time : datetime
}.

(** What the program takes from its environment. *)
Record Env : Type := MkEnv {
  NODE_TYPE : string;                      (* the global, or [sys.argv[1]] *)
  strptime_c : string -> option datetime;  (* [datetime.strptime(_, "%c")] *)
  now : nat -> datetime;                   (* readings of [datetime.now()] *)
  Job_eligible_time : datetime;            (* class attribute, read once *)
  Job_start_time : datetime;               (* class attribute, read once *)
  username : string                        (* [getpass.getuser()] *)
}.

Definition LF : string := String (ascii_of_nat 10) EmptyString.

(** [Job()]: every attribute is the class attribute; [job_id] is assigned
    at once by the parser. *)
Definition Job_new (env : Env) (id : job_id_t) : Job :=
  MkJob id "" "" "" "" 0 timedelta_zero
        (Job_eligible_time env) [] (Job_start_time env).

Definition set_job_name (v : string) (j : Job) : Job :=
  MkJob (job_id j) v (job_state j) (job_owner j) (queue j) (nodect j)
        (walltime j) (eligible_time j) (exec_vnode j) (start_time j).
Definition set_job_state (v : string) (j : Job) : Job :=
  MkJob (job_id j) (job_name j) v (job_owner j) (queue j) (nodect j)
        (walltime j) (eligible_time j) (exec_vnode j) (start_time j).
Definition set_job_owner (v : string) (j : Job) : Job :=
  MkJob (job_id j) (job_name j) (job_state j) v (queue j) (nodect j)
        (walltime j) (eligible_time j) (exec_vnode j) (start_time j).
Definition set_queue (v : string) (j : Job) : Job :=
  MkJob (job_id j) (job_name j) (job_state j) (job_owner j) v (nodect j)
        (walltime j) (eligible_time j) (exec_vnode j) (start_time j).
Definition set_nodect (v : Z) (j : Job) : Job :=
  MkJob (job_id j) (job_name j) (job_state j) (job_owner j) (queue j) v
        (walltime j) (eligible_time j) (exec_vnode j) (start_time j).
Definition set_walltime (v : timedelta) (j : Job) : Job :=
  MkJob (job_id j) (job_name j) (job_state j) (job_owner j) (queue j)
        (nodect j) v (eligible_time j) (exec_vnode j) (start_time j).
Definition set_eligible_time (v : datetime) (j : Job) : Job :=
  MkJob (job_id j) (job_name j) (job_state j) (job_owner j) (queue j)
        (nodect j) (walltime j) v (exec_vnode j) (start_time j).
Definition set_exec_vnode (v : list string) (j : Job) : Job :=
  MkJob (job_id j) (job_name j) (job_state j) (job_owner j) (queue j)
        (nodect j) (walltime j) (eligible_time j) v (start_time j).
Definition set_start_time (v : datetime) (j : Job) : Job :=
  MkJob (job_id j) (job_name j) (job_state j) (job_owner j) (queue j)
        (nodect j) (walltime j) (eligible_time j) (exec_vnode j) v.

(** The local variables of [job_from_qstat] during its loop, and the number
    of clock readings made so far. *)
Record pstate : Type := MkPstate {
  st_job : Job;
  st_exec_vnode : bool;   (* [exec_vnode] *)
  st_has_stime : bool;    (* [has_stime] *)
  st_in_vnode : bool;     (* [in_vnode] *)
  st_est_vnode : string;  (* [est_vnode] *)
  st_ticks : nat
}.

Definition with_job (f : Job -> Job) (st : pstate) : pstate :=
  MkPstate (f (st_job st)) (st_exec_vnode st) (st_has_stime st)
           (st_in_vnode st) (st_est_vnode st) (st_ticks st).
Definition set_in_vnode (b : bool) (st : pstate) : pstate :=
  MkPstate (st_job st) (st_exec_vnode st) (st_has_stime st) b
           (st_est_vnode st) (st_ticks st).
Definition set_has_stime (b : bool) (st : pstate) : pstate :=
  MkPstate (st_job st) (st_exec_vnode st) b (st_in_vnode st)
           (st_est_vnode st) (st_ticks st).
Definition set_seen_exec_vnode (b : bool) (st : pstate) : pstate :=
  MkPstate (st_job st) b (st_has_stime st) (st_in_vnode st)
           (st_est_vnode st) (st_ticks st).
Definition set_est_vnode (v : string) (st : pstate) : pstate :=
  MkPstate (st_job st) (st_exec_vnode st) (st_has_stime st) (st_in_vnode st)
           v (st_ticks st).
Definition tick (st : pstate) : pstate :=
  MkPstate (st_job st) (st_exec_vnode st) (st_has_stime st) (st_in_vnode st)
           (st_est_vnode st) (S (st_ticks st)).

(** What one turn of the loop does: go on to the next line, leave the
    function with [return None], or raise. *)
Inductive flow : Type :=
| Next (st : pstate)
| ReturnNone (ticks : nat)
| Throw (e : exn).

(** [varmatch.group(1)]; the group takes part in every match of [VAR_RE]. *)
Definition group1 (m : Re.match_obj) : string :=
  match Re.group m 1 with
  | Some v => v
  | None => ""
  end.

(** The body of the loop for a line that matches [VAR_RE], after
    [in_vnode = False], as the chain of [if]/[elif] has it. *)
Definition parse_var (env : Env) (varname rest : string) (st : pstate)
  : flow :=
  if String.eqb varname "Job_Name" then
    Next (with_job (set_job_name rest) st)
  else if String.eqb varname "Job_Owner" then
    Next (with_job (set_job_owner (hd "" (Str.split "@" rest))) st)
  else if String.eqb varname "job_state" then
    Next (with_job (set_job_state rest) st)
  else if String.eqb varname "queue" then
    let st := with_job (set_queue rest) st in
    if Str.find (NODE_TYPE env) rest =? -1
    then ReturnNone (st_ticks st)
    else Next st
  else if String.eqb varname "Resource_List.nodect" then
    match int_of_str rest with
    | Ok n => Next (with_job (set_nodect n) st)
    | Raise e => Throw e
    end
  else if String.eqb varname "Resource_List.walltime" then
    match interval rest with
    | Ok t => Next (with_job (set_walltime t) st)
    | Raise e => Throw e
    end
  else if String.eqb varname "eligible_time" then
    match strptime_c env rest with
    | Some d => Next (with_job (set_eligible_time d) st)
    | None =>
        Next (tick (with_job (set_eligible_time (now env (st_ticks st))) st))
    end
  else if String.eqb varname "stime" then
    let st := set_has_stime true st in
    match strptime_c env rest with
    | Some d => Next (with_job (set_start_time d) st)
    | None => Next st
    end
  else if String.eqb varname "estimated.start_time"
          && negb (st_has_stime st) then
    match strptime_c env rest with
    | Some d => Next (with_job (set_start_time d) st)
    | None => Next st
    end
  else if String.eqb varname "exec_vnode" then
    Next (set_est_vnode rest (set_seen_exec_vnode true (set_in_vnode true st)))
  else if String.eqb varname "estimated.exec_vnode"
          && negb (st_exec_vnode st) then
    Next (set_est_vnode rest (set_in_vnode true st))
  else Next st.

(** One turn of the loop of [job_from_qstat]. *)
Definition parse_line (env : Env) (st : pstate) (line : string) : flow :=
  match Re.re_match VAR_RE line with
  | Some varmatch =>
      let st := set_in_vnode false st in
      let varname := group1 varmatch in
      let rest := Str.replace_first (Re.group0 varmatch) "" line in
      parse_var env varname rest st
  | None =>
      if st_in_vnode st
      then Next (set_est_vnode (st_est_vnode st ++ Str.strip_ws line)%string st)
      else Next st
  end.

(** The loop, over the lines still to read. *)
Fixpoint parse_lines (env : Env) (st : pstate) (lines : list string) : flow :=
  match lines with
  | [] => Next st
  | line :: lines' =>
      match parse_line env st line with
      | Next st' => parse_lines env st' lines'
      | other => other
      end
  end.

(** [l[1:-1]] *)
Definition slice_1_m1 {A : Type} (l : list A) : list A := removelast (tl l).

(** Lines 52 and 53. *)
Definition parse_job_id (job_info : string) : job_id_t :=
  let fragments := Str.split ":" (hd "" (Str.split LF job_info)) in
  if Nat.eqb (List.length fragments) 2
  then IdStr (Str.strip_ws (nth 1 fragments ""))
  else IdList fragments.

(** Lines 106 to 108: the node names of the accumulated field. *)
Definition node_names (est_vnode : string) : list string :=
  let names :=
    map (fun s => Str.strip (Str.is_char "(") (hd "" (Str.split ":" s)))
        (Str.split "+" est_vnode) in
  if Nat.eqb (List.length names) 1 && String.eqb (hd "" names) ""
  then []
  else names.

Definition init_pstate (env : Env) (ticks : nat) (job_info : string)
  : pstate :=
  MkPstate (Job_new env (parse_job_id job_info)) false false false "" ticks.

(** Parse output from qstat -f {id} and return a Job: the job, or [None]
    for a job of another queue, with the number of clock readings made. *)
Definition job_from_qstat (env : Env) (ticks : nat) (job_info : string)
  : result (option Job * nat) :=
  match parse_lines env (init_pstate env ticks job_info)
          (slice_1_m1 (Str.split LF job_info)) with
  | Next st =>
      Ok (Some (set_exec_vnode (node_names (st_est_vnode st)) (st_job st)),
          st_ticks st)
  | ReturnNone t => Ok (None, t)
  | Throw e => Raise e
  end.

(** The list comprehension of [get_xfua_jobs] over the blocks. *)
Fixpoint jobs_of_blocks (env : Env) (ticks : nat) (blocks : list string)
  : result (list (option Job) * nat) :=
  match blocks with
  | [] => Ok ([], ticks)
  | b :: blocks' =>
      r <- job_from_qstat env ticks b ;;
      rs <- jobs_of_blocks env (snd r) blocks' ;;
      Ok (fst r :: fst rs, snd rs)
  end.

(** [get_xfua_jobs], on the standard output of [qstat -f]. *)
Definition get_xfua_jobs (env : Env) (ticks : nat) (qstat_out : string)
  : result (list (option Job) * nat) :=
  jobs_of_blocks env ticks (Str.split (LF ++ LF)%string qstat_out).

(** [[job for job in get_xfua_jobs() if job is not None]] *)
Fixpoint drop_none (l : list (option Job)) : list Job :=
  match l with
  | [] => []
  | Some j :: l' => j :: drop_none l'
  | None :: l' => drop_none l'
  end.

(* ================================================================== *)
(** ** The node inventory *)

(** A node of the JSON [pbsnodes] prints: its state string, and of its
    [resources_available] the [Qlist] and, on some hardware, [mcdram]. *)
Record Node : Type := MkNode {
  state : string;
  Qlist : string;
  mcdram : option string
}.

(** An ordered mapping from node names to nodes, in the order of the JSON
    object; the names are the keys of a dictionary, so they differ. *)
Definition inventory : Type := list (string * Node).

(** Get a list of all nodes that are up: those whose [Qlist] has
    [NODE_TYPE] in it, in their order. *)
Definition get_compute_node_list (env : Env) (nodes : inventory) : inventory :=
  filter (fun kv => 0 <=? Str.find (NODE_TYPE env) (Qlist (snd kv))) nodes.

(** [keys.index(name)]: a name that is no key raises [ValueError]. *)
Fixpoint list_index (name : string) (keys : list string) : result Z :=
  match keys with
  | [] => Raise ValueError
  | k :: keys' =>
      if String.eqb k name then Ok 0
      else i <- list_index name keys' ;; Ok (i + 1)
  end.

Fixpoint map_result {A B : Type} (f : A -> result B) (l : list A)
  : result (list B) :=
  match l with
  | [] => Ok []
  | a :: l' => b <- f a ;; bs <- map_result f l' ;; Ok (b :: bs)
  end.

(* ================================================================== *)
(** ** Grouping the row numbers *)

Fixpoint insert_sorted (n : Z) (l : list Z) : list Z :=
  match l with
  | [] => [n]
  | m :: l' => if n <=? m then n :: l else m :: insert_sorted n l'
  end.

(** [sorted(l)] on integers. *)
Fixpoint sorted (l : list Z) : list Z :=
  match l with
  | [] => []
  | n :: l' => insert_sorted n (sorted l')
  end.

(** The key function [lambda n, c=count(): n-next(c)]: [groupby] calls it
    once for each element, in order, so the k-th element gets its value
    minus k. *)
Fixpoint with_count (c : Z) (l : list Z) : list (Z * Z) :=
  match l with
  | [] => []
  | n :: l' => (n - c, n) :: with_count (c + 1) l'
  end.

(** [itertools.groupby] on the keyed elements: a group is a longest run of
    neighbours of one key. *)
Fixpoint groupby (l : list (Z * Z)) : list (Z * list Z) :=
  match l with
  | [] => []
  | (k, v) :: l' =>
      match groupby l' with
      | (k', g) :: gs =>
          if k =? k' then (k, v :: g) :: gs
          else (k, [v]) :: (k', g) :: gs
      | [] => [(k, [v])]
      end
  end.

(** [[list(v) for k, v in groupby(sorted(i_nodes), ...)]] *)
Definition ranges (i_nodes : list Z) : list (list Z) :=
  map snd (groupby (with_count 0 (sorted i_nodes))).

(* ================================================================== *)
(** ** The renderer *)

(** Colours, by the palette and the value the palette is asked for. *)
Inductive colour : Type :=
| Pastel1 (i_c : Z)        (* [CMAP2.mpl_colormap(c_norm2(i_c))] *)
| Grey                     (* ['grey'] *)
| Dark2 (i n : Z)          (* [CMAP3], [Normalize(1, n)] of [i] *)
| Paired (i n : Z).        (* [CMAP], [Normalize(1, n)] of [i] *)

(** [patches.Rectangle((x, y), w, h, facecolor=..., hatch=...)] *)
Record rectangle : Type := MkRect {
  rx : Q;
  ry : Z;
  rw : Q;
  rh : Z;
  facecolor : colour;
  hatch : option string
}.

(** What the renderer asks of matplotlib, in order. *)
Inductive cmd : Type :=
| SetYlim (lo hi : Z)
| SetXlim (lo hi : Z)
| AddPatch (r : rectangle)
| Annotate (text : string) (x y : Q) (fontsize ha va : string)
| TightLayout
| Savefig (name : string) (dpi : Z).

Definition len {A : Type} (l : list A) : Z := Z.of_nat (List.length l).

(** [t.total_seconds()/3600] *)
Definition hours (t : timedelta) : Q := total_seconds t / inject_Z 3600.

(** [max(q, 0)] *)
Definition max0 (q : Q) : Q := if Qle_bool 0 q then q else 0%Q.

(** Lines 128 to 138: the background of the nodes by their memory mode. *)
Fixpoint draw_mcdram (i : Z) (nodes : inventory) : result (list cmd) :=
  match nodes with
  | [] => Ok []
  | (_, v) :: nodes' =>
      match mcdram v with
      | None => Raise KeyError
      | Some m =>
          let i_c := if String.eqb m "flat" then 1 else 0 in
          let hatch := if i_c =? 0 then "/" else "\" in
          rest <- draw_mcdram (i + 1) nodes' ;;
          Ok (AddPatch (MkRect 0 i (inject_Z 24) 1 (Pastel1 i_c) (Some hatch))
                :: rest)
      end
  end.

(** Lines 126 to 144.  [str.index] raises [ValueError] when the queue has
    no 'knl' in it. *)
Definition draw_knl (nodes : inventory) (jobs : list Job)
  : result (list cmd) :=
  match jobs with
  | [] => Ok []
  | job0 :: _ =>
      i <- Str.index "knl" (queue job0) ;;
      if 0 <=? i then
        shades <- draw_mcdram 0 nodes ;;
        Ok (shades ++
            [Annotate "cache" (inject_Z 12) 1 "10" "center" "bottom";
             Annotate "flat" (inject_Z 12) (inject_Z (len nodes))
                      "10" "center" "top"])
      else Ok []
  end.

(** Lines 147 to 152: the nodes that are offline. *)
Fixpoint draw_offline (i : Z) (nodes : inventory) : list cmd :=
  match nodes with
  | [] => []
  | (_, v) :: nodes' =>
      (if Str.contains "offline" (state v)
       then [AddPatch (MkRect 0 i (inject_Z 24) 1 Grey None)]
       else [])
      ++ draw_offline (i + 1) nodes'
  end.

(** [sum([len(job.exec_vnode) > 0 and p(job) for job in jobs])] *)
Definition count_jobs (p : Job -> bool) (jobs : list Job) : Z :=
  len (filter (fun job => (0 <? len (exec_vnode job)) && p job) jobs).

(** [job.job_id.split('.')[0]]; a [job_id] that is a list has no [split]. *)
Definition short_id (id : job_id_t) : result string :=
  match id with
  | IdStr s => Ok (hd "" (Str.split "." s))
  | IdList _ => Raise AttributeError
  end.

(** Lines 179 to 187: one rectangle for each group, and its label when the
    group has more than one row. *)
Fixpoint draw_ranges (job : Job) (tstart tend : Q) (color_i : colour)
         (rs : list (list Z)) : result (list cmd) :=
  match rs with
  | [] => Ok []
  | r :: rs' =>
      let r0 := hd 0 r in
      let r1 := last r 0 in
      let patch :=
        AddPatch (MkRect tstart r0 (tend - tstart) (r1 - r0 + 1) color_i None)
      in
      label <-
        (if 0 <? r1 - r0 then
           id <- short_id (job_id job) ;;
           Ok [Annotate
                 (id ++ ": " ++ job_name job ++ " (" ++ job_owner job ++ ")")%string
                 (max0 ((tstart + tend) / inject_Z 2))
                 (inject_Z (r0 + r1) / inject_Z 2)
                 "6" "center" "center"]
         else Ok []) ;;
      rest <- draw_ranges job tstart tend color_i rs' ;;
      Ok (patch :: label ++ rest)
  end.

(** The variables the loop over the jobs updates. *)
Record rstate : Type := MkRstate {
  rs_ticks : nat;
  i_user : Z;
  i_other : Z
}.

(** The body of the loop of lines 162 to 187 for one job. *)
Definition draw_job (env : Env) (keys : list string) (n_user n_other : Z)
           (st : rstate) (job : Job) : result (list cmd * rstate) :=
  if (0 <? len (exec_vnode job)) && negb (String.eqb (job_state job) "H")
  then
    i_nodes <- map_result (fun nodename => list_index nodename keys)
                          (exec_vnode job) ;;
    tend_at <- datetime_add (start_time job) (walltime job) ;;
    d1 <- datetime_sub (start_time job) (now env (rs_ticks st)) ;;
    let tstart := hours d1 in
    d2 <- datetime_sub tend_at (now env (S (rs_ticks st))) ;;
    let tend := hours d2 in
    let '(color_i, iu, io) :=
      if String.eqb (job_owner job) (username env)
      then (Dark2 (i_user st + 1) n_user, i_user st + 1, i_other st)
      else (Paired (i_other st + 1) n_other, i_user st, i_other st + 1) in
    cmds <- draw_ranges job tstart tend color_i (ranges i_nodes) ;;
    Ok (cmds, MkRstate (S (S (rs_ticks st))) iu io)
  else Ok ([], st).

Fixpoint draw_jobs (env : Env) (keys : list string) (n_user n_other : Z)
         (st : rstate) (jobs : list Job) : result (list cmd * rstate) :=
  match jobs with
  | [] => Ok ([], st)
  | job :: jobs' =>
      r <- draw_job env keys n_user n_other st job ;;
      rs <- draw_jobs env keys n_user n_other (snd r) jobs' ;;
      Ok (fst r ++ fst rs, snd rs)
  end.

(** Color all of the compute nodes by their job over time: the calls made
    to matplotlib, on the nodes [pbsnodes] printed and the jobs. *)
Definition plot_job_schedule (env : Env) (ticks : nat)
           (pbsnodes : inventory) (jobs : list Job) : result (list cmd) :=
  let nodes := get_compute_node_list env pbsnodes in
  knl <- draw_knl nodes jobs ;;
  let offline := draw_offline 0 nodes in
  let n_user :=
    count_jobs (fun job => String.eqb (job_owner job) (username env)) jobs in
  let n_other :=
    count_jobs (fun job => negb (String.eqb (job_owner job) (username env)))
               jobs in
  drawn <- draw_jobs env (map fst nodes) n_user n_other
                     (MkRstate ticks 0 0) jobs ;;
  Ok ([SetYlim 0 (len nodes); SetXlim 0 24]
        ++ knl ++ offline ++ fst drawn
        ++ [TightLayout; Savefig "jobs.png" 100]).

(** The script: parse the blocks, drop the [None]s, draw. *)
Definition main (env : Env) (qstat_out : string) (pbsnodes : inventory)
  : result (list cmd) :=
  parsed <- get_xfua_jobs env 0 qstat_out ;;
  plot_job_schedule env (snd parsed) pbsnodes (drop_none (fst parsed)).

(* ================================================================== *)
(** ** Vocabulary of the specification *)

(** The next character, if any, is outside the class. *)
Definition head_out (cls : ascii -> bool) (s : string) : bool :=
  match s with
  | String c _ => negb (cls c)
  | EmptyString => true
  end.

(** Every character of [s] is in the class [p]. *)
Fixpoint all_chars (p : ascii -> bool) (s : string) : bool :=
  match s with
  | EmptyString => true
  | String a s' => p a && all_chars p s'
  end.

(** A decimal digit sequence: one digit at least, digits only. *)
Definition digit_seq (s : string) : Prop :=
  s <> "" /\ all_chars Re.isdigit s = true.

(** A digit sequence that [int] takes: of [INT_MAX_STR_DIGITS] digits at
    most. *)
Definition digits_ok (s : string) : bool :=
  (String.length s <=? INT_MAX_STR_DIGITS)%nat.

(** The number a digit sequence denotes, most significant digit first. *)
Fixpoint decimal (acc : Z) (s : string) : Z :=
  match s with
  | EmptyString => acc
  | String a s' => decimal (acc * 10 + digit_val a) s'
  end.

Definition decimal_value (s : string) : Z := decimal 0 s.

(** The two forms of a time span: "D days, HH:MM:SS" and "HH:MM:SS". *)
Definition time_span (D : option string) (HH MM SS : string) : string :=
  match D with
  | Some d => d ++ " days, " ++ HH ++ ":" ++ MM ++ ":" ++ SS
  | None => HH ++ ":" ++ MM ++ ":" ++ SS
  end%string.

Definition span_seconds (D : option string) (HH MM SS : string) : Z :=
  match D with Some d => decimal_value d | None => 0 end * 86400
  + decimal_value HH * 3600 + decimal_value MM * 60 + decimal_value SS.

(** [int] takes each of the digit sequences of the time span. *)
Definition span_digits_ok (D : option string) (HH MM SS : string) : bool :=
  match D with Some d => digits_ok d | None => true end
  && digits_ok HH && digits_ok MM && digits_ok SS.

(** The duration of a number of seconds. *)
Definition timedelta_of_seconds (n : Z) : timedelta :=
  MkTimedelta (n / 86400) (n mod 86400) 0.

(** The text before the first [c] of [s] (all of [s] when it has none), and
    the text after it. *)
Fixpoint before_first (c : ascii) (s : string) : string :=
  match s with
  | EmptyString => EmptyString
  | String a s' => if Ascii.eqb a c then EmptyString
                   else String a (before_first c s')
  end.

Fixpoint after_first (c : ascii) (s : string) : string :=
  match s with
  | EmptyString => EmptyString
  | String a s' => if Ascii.eqb a c then s' else after_first c s'
  end.

(** The separator of one character. *)
Definition sep1 (c : ascii) : string := String c EmptyString.

(** A block of text from its lines. *)
Definition unlines (l : list string) : string := String.concat LF l.

(** The attribute line of a name and a value. *)
Definition var_line (name value : string) : string :=
  ("    " ++ name ++ " = " ++ value)%string.

(** What the loop takes from a line that matches [VAR_RE]: [varname] and
    [rest]; [None] for a line that does not match. *)
Definition var_of (line : string) : option (string * string) :=
  match Re.re_match VAR_RE line with
  | Some m => Some (group1 m, Str.replace_first (Re.group0 m) "" line)
  | None => None
  end.

(** The line is the attribute line of that name. *)
Definition names_var (name line : string) : bool :=
  match var_of line with
  | Some (n, _) => String.eqb n name
  | None => false
  end.

(** The continuation lines at the head of [ls], each one stripped, one
    after the other. *)
Fixpoint continuation (ls : list string) : string :=
  match ls with
  | [] => ""
  | l :: ls' =>
      match var_of l with
      | None => (Str.strip_ws l ++ continuation ls')%string
      | Some _ => ""
      end
  end.

(** The node names as the specification words them: the field split on
    "+", of each entry the text before the first ":" with a leading "("
    stripped, and no name at all for the empty field. *)
Definition drop_paren (s : string) : string :=
  match s with
  | String "(" t => t
  | _ => s
  end.

Definition spec_entry_name (entry : string) : string :=
  drop_paren (before_first ":" entry).

Definition spec_node_names (field : string) : list string :=
  if String.eqb field "" then []
  else map spec_entry_name (Str.split "+" field).

(** The last character, if any, is outside the class. *)
Fixpoint last_out (cls : ascii -> bool) (s : string) : bool :=
  match s with
  | EmptyString => true
  | String a EmptyString => negb (cls a)
  | String _ s' => last_out cls s'
  end.

(** A name with no "(" at either end. *)
Definition clean (name : string) : Prop :=
  head_out (Str.is_char "(") name = true /\
  last_out (Str.is_char "(") name = true.

(** The part of [INTERVAL_RE] after the optional days. *)
Definition HMS_RE : Re.regex :=
  Re.Seq (Re.Group (Re.Named "hours") (Re.Plus Re.isdigit))
    (Re.Seq (Re.Lit ":")
       (Re.Seq (Re.Group (Re.Named "minutes") (Re.Plus Re.isdigit))
          (Re.Seq (Re.Lit ":")
             (Re.Group (Re.Named "seconds") (Re.Plus Re.isdigit))))).

(** The texts of the labels among the calls made to matplotlib. *)
Fixpoint labels_of (cmds : list cmd) : list string :=
  match cmds with
  | [] => []
  | Annotate text _ _ _ _ _ :: cmds' => text :: labels_of cmds'
  | _ :: cmds' => labels_of cmds'
  end.

(** A run of more than one row. *)
Definition wide (r : list Z) : bool := 0 <? last r 0 - hd 0 r.

(** The label of a job. *)
Definition label_text (id : string) (job : Job) : string :=
  (before_first "." id ++ ": " ++ job_name job ++ " (" ++ job_owner job
   ++ ")")%string.

(** The background of a row: the whole day wide, one row high. *)
Definition row_rect (i : nat) (c : colour) (h : option string) : rectangle :=
  MkRect 0 (Z.of_nat i) (inject_Z 24) 1 c h.

(** The shade and the hatch of a memory mode. *)
Definition mcdram_shade (m : string) : Z :=
  if String.eqb m "flat" then 1 else 0.

Definition mcdram_hatch (m : string) : string :=
  if String.eqb m "flat" then "\" else "/".

(** The value asked of a palette of jobs lies between the bounds of its
    [Normalize(1, n)]. *)
Definition colour_in_range (c : colour) : Prop :=
  match c with
  | Dark2 i n | Paired i n => 1 <= i <= n
  | Pastel1 _ | Grey => True
  end.

(** A run of consecutive row numbers. *)
Fixpoint contiguous (r : list Z) : Prop :=
  match r with
  | a :: (b :: _) as r' => b = a + 1 /\ contiguous r'
  | _ => True
  end.

(** No run can be joined with the next one: a row at least lies between. *)
Fixpoint separated (rs : list (list Z)) : Prop :=
  match rs with
  | r1 :: (r2 :: _) as rs' => last r1 0 + 1 < hd 0 r2 /\ separated rs'
  | _ => True
  end.

(** The rectangles among the calls made to matplotlib, in their order. *)
Fixpoint patches_of (cmds : list cmd) : list rectangle :=
  match cmds with
  | [] => []
  | AddPatch r :: cmds' => r :: patches_of cmds'
  | _ :: cmds' => patches_of cmds'
  end.

(** The rectangle of a run of rows. *)
Definition rect_of_run (tstart tend : Q) (color_i : colour) (r : list Z)
  : rectangle :=
  MkRect tstart (hd 0 r) (tend - tstart) (last r 0 - hd 0 r + 1) color_i None.

(** The colours of the rectangles of jobs: those of [CMAP3] and [CMAP]. *)
Definition is_job_colour (c : colour) : bool :=
  match c with
  | Dark2 _ _ | Paired _ _ => true
  | Pastel1 _ | Grey => false
  end.

(** The rectangles of jobs among the calls made to matplotlib. *)
Definition job_rectangles (cmds : list cmd) : list rectangle :=
  filter (fun r => is_job_colour (facecolor r)) (patches_of cmds).

(** A job the renderer is to draw: some node, and not held. *)
Definition drawable (job : Job) : Prop :=
  exec_vnode job <> [] /\ job_state job <> "H".

(** Microseconds as hours. *)
Definition hours_of_us (us : Z) : Q :=
  inject_Z us / inject_Z US_PER_SECOND / inject_Z 3600.

(** The rectangle spans, in hours, from the start time of the job less the
    clock reading [n] to its start time plus its walltime less the next
    clock reading. *)
Definition extent (env : Env) (job : Job) (n : nat) (r : rectangle) : Prop :=
  rx r == hours_of_us (start_time job - now env n) /\
  rx r + rw r ==
    hours_of_us (start_time job + td_total_us (walltime job)
                 - now env (S n)).

(** How a turn of the loop ends, the state left aside. *)
Inductive flow_kind : Type :=
| KNext
| KReturnNone
| KThrow (e : exn).

Definition kind_of (f : flow) : flow_kind :=
  match f with
  | Next _ => KNext
  | ReturnNone _ => KReturnNone
  | Throw e => KThrow e
  end.


(** A line that does not raise. *)
Definition no_raise (env : Env) (line : string) : Prop :=
  forall st e, parse_line env st line <> Throw e.

Definition no_space (a : ascii) : bool := negb (Ascii.eqb a " ").

(* ================================================================== *)
(** ** An environment and inputs to try the program on *)

(** 2018-01-01 10:00:00 and 12:00:00, in microseconds. *)
Definition T_10h : datetime := (736694 * 86400 + 36000) * US_PER_SECOND.
Definition T_12h : datetime := (736694 * 86400 + 43200) * US_PER_SECOND.

(** A [strptime] that reads one date only, a clock that starts at ten and
    gains a millisecond with each reading, and the node type "xfuaknl". *)
Definition env_ex : Env :=
  MkEnv "xfuaknl"
        (fun s => if String.eqb s "Mon Jan  1 12:00:00 2018"
                  then Some T_12h else None)
        (fun n => T_10h + Z.of_nat n * 1000)
        (T_10h - 2) (T_10h - 1)
        "alice".

Definition block_running : string :=
  unlines ["Job Id: 12.srv";
           "    Job_Name = relax";
           "    Job_Owner = alice@login1";
           "    job_state = R";
           "    queue = xfuaknl";
           "    estimated.exec_vnode = (n9:ncpus=1)";
           "    exec_vnode = (n1:ncpus=2)+(n2:";
           "	ncpus=2)";
           "    Resource_List.nodect = 2";
           "    Resource_List.walltime = 01:00:00";
           "    stime = never";
           "    eligible_time = 00:00:10";
           "    estimated.start_time = Mon Jan  1 12:00:00 2018";
           "    project = p"].

Definition block_estimated : string :=
  unlines ["Job Id: a:b:c";
           "    queue = xfuaknl";
           "    estimated.exec_vnode = (n3:ncpus=1)";
           "    estimated.start_time = Mon Jan  1 12:00:00 2018";
           "    project = p"].

(** The exec_vnode attribute on the last line of the block. *)
Definition block_vnode_last : string :=
  unlines ["Job Id: 7.srv";
           "    estimated.exec_vnode = (n1:ncpus=1)";
           "    exec_vnode = (n2:ncpus=1)"].

(** A node count that is no number, before the queue of another type. *)
Definition block_bad_nodect : string :=
  unlines ["Job Id: 8.srv";
           "    Resource_List.nodect = many";
           "    queue = workq";
           "    project = p"].

Definition block_other_queue : string :=
  unlines ["Job Id: 9.srv";
           "    Job_Name = relax";
           "    eligible_time = 00:00:10";
           "    queue = workq";
           "    Resource_List.nodect = many";
           "    project = p"].

(** The estimated start time, read, before an stime that does not parse. *)
Definition block_estimated_first : string :=
  unlines ["Job Id: 10.srv";
           "    estimated.start_time = Mon Jan  1 12:00:00 2018";
           "    stime = never";
           "    project = p"].

Definition nodes_ex : inventory :=
  [("n1", MkNode "free" "xfuaknl" (Some "flat"));
   ("n2", MkNode "job-busy" "xfuaknl" (Some "cache"));
   ("x1", MkNode "free" "workq" None);
   ("n3", MkNode "offline" "xfuaknl" (Some "cache"))].

Definition job_ex (owner state : string) (nodes : list string)
           (start : datetime) : Job :=
  MkJob (IdStr "12.srv") "relax" state owner "xfuaknl" 2
        (MkTimedelta 0 3600 0) T_10h nodes start.

Definition jobs_ex : list Job :=
  [job_ex "alice" "R" ["n2"; "n1"] (T_10h - 1800 * US_PER_SECOND);
   job_ex "bob" "H" ["n3"] T_12h;
   job_ex "bob" "Q" [] T_12h;
   job_ex "bob" "Q" ["n3"] T_12h].

(** The node type the script has when it is given no argument, and the
    output of qstat for one job of a queue of that type. *)
Definition env_xfua : Env :=
  MkEnv "xfua" (strptime_c env_ex) (now env_ex)
        (Job_eligible_time env_ex) (Job_start_time env_ex) "alice".

Definition qstat_xfua : string :=
  unlines ["Job Id: 12.srv";
           "    Job_Name = relax";
           "    Job_Owner = alice@login1";
           "    job_state = R";
           "    queue = xfua";
           "    exec_vnode = (n1:ncpus=2)";
           "    Resource_List.walltime = 01:00:00";
           "    project = p";
           "";
           ""].

Definition nodes_xfua : inventory :=
  [("n1", MkNode "free" "xfua" None); ("n2", MkNode "free" "xfua" None)].

(** The script called with an empty argument. *)
Definition env_all : Env :=
  MkEnv "" (strptime_c env_ex) (now env_ex)
        (Job_eligible_time env_ex) (Job_start_time env_ex) "alice".

(** A walltime that is no time span. *)
Definition block_bad_walltime : string :=
  unlines ["Job Id: 11.srv";
           "    queue = xfuaknl";
           "    Resource_List.walltime = soon";
           "    project = p"].

(** The output of qstat for two jobs, the second of which has a node count
    that is no number. *)
Definition qstat_two : string :=
  unlines [block_running; ""; block_bad_nodect; ""; ""].

(** A digit sequence of [n] zeros. *)
Fixpoint zeros (n : nat) : string :=
  match n with
  | O => EmptyString
  | S k => String "0" (zeros k)
  end.

(* ================================================================== *)
(** * Facts about the strings *)

Module StrFacts.
Import Str.

Lemma startswith_app (p r : string) : startswith p (p ++ r) = true.
Proof.
  induction p as [|a p IH]; simpl; [reflexivity|].
  now rewrite Ascii.eqb_refl, IH.
Qed.

Lemma drop_app_length (p r : string) : drop (String.length p) (p ++ r) = r.
Proof. induction p as [|a p IH]; simpl; [now destruct r | exact IH]. Qed.

Lemma length_app (p r : string) :
  String.length (p ++ r) = (String.length p + String.length r)%nat.
Proof. induction p as [|a p IH]; simpl; [reflexivity | now rewrite IH]. Qed.

Lemma take_app_length (p r : string) : take (String.length p) (p ++ r) = p.
Proof. induction p as [|a p IH]; simpl; [reflexivity | now rewrite IH]. Qed.

Lemma take_consumed (p r : string) :
  take (String.length (p ++ r) - String.length r) (p ++ r) = p.
Proof.
  rewrite length_app.
  replace (String.length p + String.length r - String.length r)%nat
    with (String.length p) by lia.
  apply take_app_length.
Qed.

Lemma app_assoc (a b c : string) : ((a ++ b) ++ c = a ++ (b ++ c))%string.
Proof. induction a as [|x a IH]; simpl; [reflexivity | now rewrite IH]. Qed.

Lemma app_empty_r (a : string) : (a ++ "")%string = a.
Proof. induction a as [|x a IH]; simpl; [reflexivity | now rewrite IH]. Qed.

Lemma replace_first_prefix (p r : string) : replace_first p "" (p ++ r) = r.
Proof.
  destruct p as [|a p]; simpl.
  - now destruct r.
  - rewrite Ascii.eqb_refl, startswith_app. simpl. apply drop_app_length.
Qed.

(** A string none of whose ends is in the class is left as it is. *)
Lemma rstrip_all_out (p : ascii -> bool) (s : string) :
  all_chars (fun a => negb (p a)) s = true -> rstrip p s = s.
Proof.
  induction s as [|a s IH]; simpl; [reflexivity|].
  intros H. apply andb_prop in H as [Ha Hs]. rewrite (IH Hs).
  destruct s; [|reflexivity].
  now destruct (p a).
Qed.

Lemma lstrip_head_out (p : ascii -> bool) (a : ascii) (s : string) :
  p a = false -> lstrip p (String a s) = String a s.
Proof. intros H. simpl. now rewrite H. Qed.

Lemma all_chars_impl (p q : ascii -> bool) (s : string) :
  (forall a, p a = true -> q a = true) ->
  all_chars p s = true -> all_chars q s = true.
Proof.
  intros Hpq. induction s as [|a s IH]; simpl; [reflexivity|].
  intros H. apply andb_prop in H as [Ha Hs].
  now rewrite (Hpq _ Ha), (IH Hs).
Qed.

Lemma all_chars_app (p : ascii -> bool) (s t : string) :
  all_chars p (s ++ t) = all_chars p s && all_chars p t.
Proof.
  induction s as [|a s IH]; simpl; [reflexivity|].
  now rewrite IH, andb_assoc.
Qed.

Lemma split_sep1_cons (c a : ascii) (s : string) :
  split (sep1 c) (String a s) =
  if Ascii.eqb a c then EmptyString :: split (sep1 c) s
  else cons_head a (split (sep1 c) s).
Proof.
  unfold split, sep1. cbn [split_from startswith String.length].
  rewrite Ascii.eqb_sym, andb_true_r. now destruct (Ascii.eqb a c).
Qed.

Lemma split_from_not_nil (sep : string) (skip : nat) (s : string) :
  split_from sep skip s <> [].
Proof.
  revert skip. induction s as [|a s IH]; intros skip; simpl; [discriminate|].
  destruct skip as [|n]; [|apply IH].
  destruct (startswith sep (String a s)); [discriminate|].
  specialize (IH O). now destruct (split_from sep 0 s).
Qed.

Lemma split_not_nil (sep s : string) : split sep s <> [].
Proof. apply split_from_not_nil. Qed.

Lemma hd_cons_head (a : ascii) (l : list string) :
  l <> [] -> hd "" (cons_head a l) = String a (hd "" l).
Proof. now destruct l. Qed.

Lemma tl_cons_head (a : ascii) (l : list string) :
  l <> [] -> tl (cons_head a l) = tl l.
Proof. now destruct l. Qed.

Lemma length_cons_head (a : ascii) (l : list string) :
  l <> [] -> List.length (cons_head a l) = List.length l.
Proof. now destruct l. Qed.

Lemma hd_split_sep1 (c : ascii) (s : string) :
  hd "" (split (sep1 c) s) = before_first c s.
Proof.
  induction s as [|a s IH]; [reflexivity|].
  rewrite split_sep1_cons. simpl. destruct (Ascii.eqb a c); [reflexivity|].
  rewrite hd_cons_head by apply split_not_nil. now rewrite IH.
Qed.

Lemma length_split_sep1 (c : ascii) (s : string) :
  List.length (split (sep1 c) s) = S (count_char c s).
Proof.
  induction s as [|a s IH]; [reflexivity|].
  rewrite split_sep1_cons. simpl. destruct (Ascii.eqb a c); simpl.
  - now rewrite IH.
  - rewrite length_cons_head by apply split_not_nil. exact IH.
Qed.

Lemma split_sep1_none (c : ascii) (s : string) :
  count_char c s = O -> split (sep1 c) s = [s].
Proof.
  induction s as [|a s IH]; [reflexivity|].
  rewrite split_sep1_cons. simpl. destruct (Ascii.eqb a c); [discriminate|].
  intros H. now rewrite (IH H).
Qed.

Lemma nth1_split_sep1 (c : ascii) (s : string) :
  count_char c s = 1%nat -> nth 1 (split (sep1 c) s) "" = after_first c s.
Proof.
  induction s as [|a s IH]; [discriminate|].
  rewrite split_sep1_cons. simpl. destruct (Ascii.eqb a c); simpl.
  - intros H. injection H as H. now rewrite (split_sep1_none _ _ H).
  - intros H. rewrite <- (IH H).
    pose proof (split_not_nil (sep1 c) s).
    now destruct (split (sep1 c) s).
Qed.

End StrFacts.

(** An ASCII digit is none of the other characters the parser looks for. *)
Lemma isdigit_cases (a : ascii) :
  Re.isdigit a = true ->
  Str.isspace a = false /\ Ascii.eqb a "+" = false /\
  Ascii.eqb a "-" = false /\ Ascii.eqb a " " = false /\
  Ascii.eqb a ":" = false /\ Ascii.eqb a "_" = false /\
  0 <= digit_val a <= 9.
Proof.
  destruct a as [[] [] [] [] [] [] [] []]; vm_compute; intuition congruence.
Qed.

(* ================================================================== *)
(** * Facts about the matcher *)

Module ReFacts.
Import Str Re StrFacts.

Lemma star_longest {R} cls ds rest (k : string -> option R) x :
  all_chars cls ds = true -> head_out cls rest = true ->
  k rest = Some x -> star cls (ds ++ rest) k = Some x.
Proof.
  intros Hds Hrest Hk. induction ds as [|a ds IH]; simpl in *.
  - destruct rest as [|c rest]; [exact Hk|].
    simpl in *. apply negb_true_iff in Hrest. now rewrite Hrest.
  - apply andb_prop in Hds as [Ha Hds]. now rewrite Ha, (IH Hds).
Qed.

Lemma star_none {R} cls s (k : string -> option R) :
  (forall n, k (drop n s) = None) -> star cls s k = None.
Proof.
  induction s as [|a s IH]; intros H; simpl.
  - exact (H O).
  - rewrite (IH (fun n => H (S n))). destruct (cls a); exact (H O).
Qed.

Lemma plus_longest {R} cls ds rest caps (k : string -> captures -> option R) x :
  ds <> "" -> all_chars cls ds = true -> head_out cls rest = true ->
  k rest caps = Some x -> rmatch (Plus cls) (ds ++ rest) caps k = Some x.
Proof.
  intros Hne Hds Hrest Hk. destruct ds as [|a ds]; [congruence|].
  simpl in *. apply andb_prop in Hds as [Ha Hds]. rewrite Ha.
  now apply star_longest.
Qed.

Lemma rmatch_group {R} g r s caps (k : string -> captures -> option R) :
  rmatch (Group g r) s caps k =
  rmatch r s caps
    (fun rest caps' =>
       k rest ((g, take (String.length s - String.length rest) s) :: caps')).
Proof. reflexivity. Qed.

Lemma rmatch_seq {R} r1 r2 s caps (k : string -> captures -> option R) :
  rmatch (Seq r1 r2) s caps k =
  rmatch r1 s caps (fun rest caps' => rmatch r2 rest caps' k).
Proof. reflexivity. Qed.

Lemma rmatch_opt {R} r s caps (k : string -> captures -> option R) :
  rmatch (Opt r) s caps k =
  match rmatch r s caps k with
  | Some x => Some x
  | None => k s caps
  end.
Proof. reflexivity. Qed.

Lemma group_plus_longest {R} g cls ds rest caps
      (k : string -> captures -> option R) x :
  ds <> "" -> all_chars cls ds = true -> head_out cls rest = true ->
  k rest ((g, ds) :: caps) = Some x ->
  rmatch (Group g (Plus cls)) (ds ++ rest) caps k = Some x.
Proof.
  intros Hne Hds Hrest Hk. rewrite rmatch_group.
  apply plus_longest; auto. now rewrite take_consumed.
Qed.

Lemma lit_app {R} l rest caps (k : string -> captures -> option R) :
  rmatch (Lit l) (l ++ rest) caps k = k rest caps.
Proof. cbn [rmatch]. now rewrite startswith_app, drop_app_length. Qed.

Lemma drop_all_chars p n s : all_chars p s = true -> all_chars p (drop n s) = true.
Proof.
  revert s. induction n as [|n IH]; intros s H; [now destruct s|].
  destruct s as [|a s]; [reflexivity|]. simpl in *.
  apply andb_prop in H as [_ H]. now apply IH.
Qed.

(** Without a space in the text, the optional group of days fails. *)
Lemma days_group_fails {R} s caps (k : string -> captures -> option R) :
  all_chars no_space s = true ->
  rmatch (Group (Num 1)
            (Seq (Group (Named "days") (Plus isdigit)) (Lit " days, ")))
         s caps k = None.
Proof.
  intros Hs. cbn [rmatch].
  destruct s as [|c s]; [reflexivity|].
  destruct (isdigit c); [|reflexivity].
  apply star_none. intros n.
  simpl in Hs. apply andb_prop in Hs as [_ Hs].
  pose proof (drop_all_chars _ n _ Hs) as Hd.
  destruct (drop n s) as [|b t]; [reflexivity|].
  simpl in Hd. apply andb_prop in Hd as [Hb _].
  unfold no_space in Hb. apply negb_true_iff in Hb.
  cbn [startswith]. rewrite Ascii.eqb_sym, Hb. reflexivity.
Qed.

Lemma digit_no_space s : all_chars isdigit s = true -> all_chars no_space s = true.
Proof.
  apply all_chars_impl. intros a Ha. unfold no_space.
  destruct (isdigit_cases a Ha) as (_ & _ & _ & H & _). now rewrite H.
Qed.

Lemma head_out_lit cls c t : cls c = false -> head_out cls (String c t) = true.
Proof. intros H. simpl. now rewrite H. Qed.

Lemma match_hms HH MM SS caps0 :
  digit_seq HH -> digit_seq MM -> digit_seq SS ->
  forall whole,
  rmatch (Seq (Group (Named "hours") (Plus isdigit))
       (Seq (Lit ":")
          (Seq (Group (Named "minutes") (Plus isdigit))
             (Seq (Lit ":")
                (Group (Named "seconds") (Plus isdigit))))))
    (HH ++ ":" ++ MM ++ ":" ++ SS) caps0 
    (fun rest caps => Some (MkMatch (whole rest) caps))
  = Some (MkMatch (whole "") ((Named "seconds", SS) :: (Named "minutes", MM) :: (Named "hours", HH) :: caps0)).
Proof.
  intros [HH0 HH1] [MM0 MM1] [SS0 SS1] whole.
  rewrite rmatch_seq. apply group_plus_longest; auto.
  rewrite rmatch_seq. change (":" ++ MM ++ ":" ++ SS)%string with (":" ++ (MM ++ ":" ++ SS))%string.
  rewrite lit_app.
  rewrite rmatch_seq. apply group_plus_longest; auto.
  rewrite rmatch_seq. change (":" ++ SS)%string with (":" ++ SS)%string.
  rewrite lit_app.
  rewrite <- (app_empty_r SS) at 1.
  apply group_plus_longest; auto.
Qed.

Lemma re_match_interval (D : option string) (HH MM SS : string) :
  match D with Some d => digit_seq d | None => True end ->
  digit_seq HH -> digit_seq MM -> digit_seq SS ->
  exists m,
    re_match INTERVAL_RE (time_span D HH MM SS) = Some m /\
    groupdict INTERVAL_RE m (VInt 0) =
      [("days", match D with Some d => VStr d | None => VInt 0 end);
       ("hours", VStr HH); ("minutes", VStr MM); ("seconds", VStr SS)].
Proof.
  intros HD HHH HMM HSS. unfold re_match, INTERVAL_RE.
  rewrite rmatch_seq, rmatch_opt.
  destruct D as [d|]; unfold time_span.
  - destruct HD as [Hd0 Hd1].
    eexists. split.
    + rewrite rmatch_group, rmatch_seq.
      erewrite group_plus_longest; [reflexivity | assumption | assumption | reflexivity |].
      change (" days, " ++ HH ++ ":" ++ MM ++ ":" ++ SS)%string
        with (" days, " ++ (HH ++ ":" ++ MM ++ ":" ++ SS))%string.
      rewrite lit_app.
      apply (match_hms HH MM SS _ HHH HMM HSS
               (fun rest => take (String.length (d ++ " days, " ++ HH ++ ":" ++ MM ++ ":" ++ SS)
                                  - String.length rest) (d ++ " days, " ++ HH ++ ":" ++ MM ++ ":" ++ SS))).
    + reflexivity.
  - rewrite days_group_fails.
    + eexists. split.
      * apply (match_hms HH MM SS _ HHH HMM HSS
               (fun rest => take (String.length (HH ++ ":" ++ MM ++ ":" ++ SS)
                                  - String.length rest) (HH ++ ":" ++ MM ++ ":" ++ SS))).
      * reflexivity.
    + destruct HHH as [_ H1], HMM as [_ H2], HSS as [_ H3].
      rewrite !all_chars_app. 
      rewrite (digit_no_space _ H1), (digit_no_space _ H2), (digit_no_space _ H3).
      reflexivity.
Qed.

End ReFacts.

(* ================================================================== *)
(** * [interval] *)

Section IntervalFacts.
Import Str Re StrFacts ReFacts.

Lemma int_digits_decimal acc s :
  all_chars isdigit s = true -> int_digits acc s = Some (decimal acc s).
Proof.
  revert acc. induction s as [|a s IH]; intros acc H; simpl in *; [reflexivity|].
  apply andb_prop in H as [Ha Hs]. rewrite Ha. now apply IH.
Qed.

Lemma isdigit_not_cspace (a : ascii) :
  isdigit a = true -> isspace_c a = false.
Proof. destruct a as [[] [] [] [] [] [] [] []]; vm_compute; congruence. Qed.

Lemma count_digits_all s :
  all_chars isdigit s = true -> count_digits s = String.length s.
Proof.
  induction s as [|a s IH]; simpl; [reflexivity|].
  intros H. apply andb_prop in H as [Ha Hs]. now rewrite Ha, (IH Hs).
Qed.

Lemma int_of_str_digits s :
  digit_seq s ->
  int_of_str s = if digits_ok s then Ok (decimal_value s)
                 else Raise ValueError.
Proof.
  intros [Hne Hd]. unfold int_of_str, strip.
  destruct s as [|a s]; [congruence|].
  pose proof Hd as Hd'. simpl in Hd'. apply andb_prop in Hd' as [Ha Hs].
  destruct (isdigit_cases a Ha) as (_ & Hplus & Hminus & _).
  rewrite lstrip_head_out by now apply isdigit_not_cspace.
  rewrite rstrip_all_out.
  2:{ revert Hd. apply all_chars_impl. intros b Hb.
      now rewrite (isdigit_not_cspace b Hb). }
  assert (E : int_body (String a s) = Some (decimal_value (String a s))).
  { unfold int_body. rewrite Ha. rewrite int_digits_decimal by assumption.
    reflexivity. }
  assert (Hbody : match String a s with
                  | String "+" b => b
                  | String "-" b => b
                  | _ => String a s
                  end = String a s).
  { destruct a as [[] [] [] [] [] [] [] []]; try reflexivity; discriminate. }
  assert (Hr : match String a s with
               | String "-" _ => option_map Z.opp (int_body (String a s))
               | _ => int_body (String a s)
               end = Some (decimal_value (String a s))).
  { rewrite E.
    destruct a as [[] [] [] [] [] [] [] []]; try reflexivity; discriminate. }
  cbv zeta. rewrite Hbody, Hr, (count_digits_all _ Hd). reflexivity.
Qed.

Lemma decimal_nonneg acc s :
  0 <= acc -> all_chars isdigit s = true -> 0 <= decimal acc s.
Proof.
  revert acc. induction s as [|a s IH]; intros acc Hacc H; simpl in *; [assumption|].
  apply andb_prop in H as [Ha Hs]. apply IH; [|assumption].
  destruct (isdigit_cases a Ha) as (_ & _ & _ & _ & _ & _ & Hv). lia.
Qed.

Lemma decimal_value_nonneg s : digit_seq s -> 0 <= decimal_value s.
Proof. intros [_ H]. apply decimal_nonneg; [lia | assumption]. Qed.

Lemma timedelta_of_us_seconds n :
  0 <= n ->
  timedelta_of_us (n * US_PER_SECOND) =
  if n <? 86400 * (MAX_DELTA_DAYS + 1) then Ok (timedelta_of_seconds n)
  else Raise OverflowError.
Proof.
  intros Hn. unfold timedelta_of_us, US_PER_DAY, timedelta_of_seconds.
  assert (Hus : US_PER_SECOND = 1000000) by reflexivity.
  rewrite Z.div_mul_cancel_r by (rewrite ?Hus; lia).
  rewrite Z.mul_mod_distr_r by (rewrite ?Hus; lia).
  rewrite Z.div_mul by (rewrite Hus; lia).
  rewrite Z.mod_mul by (rewrite Hus; lia).
  assert (Hq : 0 <= n / 86400) by (apply Z.div_pos; lia).
  rewrite Z.abs_eq by assumption.
  unfold MAX_DELTA_DAYS.
  destruct (Z.ltb_spec n (86400 * (999999999 + 1))) as [Hlt|Hge].
  - assert (n / 86400 < 1000000000) by (apply Z.div_lt_upper_bound; lia).
    destruct (Z.gtb_spec (n / 86400) 999999999); [lia | reflexivity].
  - assert (1000000000 <= n / 86400) by (apply Z.div_le_lower_bound; lia).
    destruct (Z.gtb_spec (n / 86400) 999999999); [reflexivity | lia].
Qed.

(** What [interval] makes of the dictionary of a match. *)
Lemma interval_of_dict s m (D : option string) (HH MM SS : string) :
  re_match INTERVAL_RE s = Some m ->
  groupdict INTERVAL_RE m (VInt 0) =
      [("days", match D with Some d => VStr d | None => VInt 0 end);
       ("hours", VStr HH); ("minutes", VStr MM); ("seconds", VStr SS)] ->
  match D with Some d => digit_seq d | None => True end ->
  digit_seq HH -> digit_seq MM -> digit_seq SS ->
  interval s =
  if span_digits_ok D HH MM SS
  then if span_seconds D HH MM SS <? 86400 * 1000000000
       then Ok (timedelta_of_seconds (span_seconds D HH MM SS))
       else Raise OverflowError
  else Raise ValueError.
Proof.
  intros Hm Hg HD HHH HMM HSS.
  unfold interval. rewrite Hm, Hg.
  assert (HDv : py_int match D with Some d => VStr d | None => VInt 0 end
                = if match D with Some d => digits_ok d | None => true end
                  then Ok match D with Some d => decimal_value d | None => 0 end
                  else Raise ValueError).
  { destruct D as [d|]; [apply int_of_str_digits; assumption | reflexivity]. }
  assert (HD0 : 0 <= match D with Some d => decimal_value d | None => 0 end).
  { destruct D as [d|]; [now apply decimal_value_nonneg | lia]. }
  cbn [int_items]. rewrite HDv. cbn [py_int].
  rewrite !int_of_str_digits by assumption.
  unfold span_digits_ok.
  destruct (match D with Some d => digits_ok d | None => true end);
    cbn [bind andb]; [|reflexivity].
  destruct (digits_ok HH); cbn [bind andb]; [|reflexivity].
  destruct (digits_ok MM); cbn [bind andb]; [|reflexivity].
  destruct (digits_ok SS); cbn [bind andb]; [|reflexivity].
  unfold timedelta_kw.
  pose proof (decimal_value_nonneg _ HHH).
  pose proof (decimal_value_nonneg _ HMM).
  pose proof (decimal_value_nonneg _ HSS).
  set (d := match D with Some d => decimal_value d | None => 0 end) in *.
  assert (E : kw_total_us
                [("days", d); ("hours", decimal_value HH);
                 ("minutes", decimal_value MM); ("seconds", decimal_value SS)]
              = Ok (span_seconds D HH MM SS * US_PER_SECOND)).
  { unfold span_seconds. fold d. cbn. f_equal.
    unfold US_PER_DAY, US_PER_SECOND. lia. }
  rewrite E. cbn [bind].
  rewrite timedelta_of_us_seconds; [reflexivity|].
  unfold span_seconds. fold d. lia.
Qed.

Lemma interval_on_time_span (D : option string) (HH MM SS : string) :
  match D with Some d => digit_seq d | None => True end ->
  digit_seq HH -> digit_seq MM -> digit_seq SS ->
  interval (time_span D HH MM SS) =
  if span_digits_ok D HH MM SS
  then if span_seconds D HH MM SS <? 86400 * 1000000000
       then Ok (timedelta_of_seconds (span_seconds D HH MM SS))
       else Raise OverflowError
  else Raise ValueError.
Proof.
  intros HD HHH HMM HSS.
  destruct (re_match_interval D HH MM SS HD HHH HMM HSS) as (m & Hm & Hg).
  now apply (interval_of_dict _ m).
Qed.

Lemma span_seconds_nonneg (D : option string) (HH MM SS : string) :
  match D with Some d => digit_seq d | None => True end ->
  digit_seq HH -> digit_seq MM -> digit_seq SS ->
  0 <= span_seconds D HH MM SS.
Proof.
  intros HD HHH HMM HSS. unfold span_seconds.
  pose proof (decimal_value_nonneg _ HHH).
  pose proof (decimal_value_nonneg _ HMM).
  pose proof (decimal_value_nonneg _ HSS).
  destruct D as [d|]; [pose proof (decimal_value_nonneg _ HD)|]; lia.
Qed.

Lemma timedelta_of_seconds_total n :
  td_total_us (timedelta_of_seconds n) = n * US_PER_SECOND.
Proof.
  unfold td_total_us, timedelta_of_seconds, US_PER_DAY. cbn [td_days td_seconds td_microseconds].
  pose proof (Z.div_mod n 86400). lia.
Qed.

End IntervalFacts.

(** C1, as the code has it.  For a time span "D days, HH:MM:SS" or
    "HH:MM:SS" of decimal digit sequences, with D taken as 0 when the days
    are absent: when [int] takes each of the sequences, of 4300 digits at
    most, [interval] returns the duration of
    D*86400 + HH*3600 + MM*60 + SS seconds as long as that number is below
    86400 * 1000000000, the range of a [timedelta], and from there on the
    constructor of [timedelta] raises [OverflowError]; when one of the
    sequences has more digits, [int] raises [ValueError]. *)
Theorem interval_time_span (D : option string) (HH MM SS : string) :
  match D with Some d => digit_seq d | None => True end ->
  digit_seq HH -> digit_seq MM -> digit_seq SS ->
  let n := span_seconds D HH MM SS in
  (span_digits_ok D HH MM SS = true ->
   n < 86400 * 1000000000 ->
   exists td, interval (time_span D HH MM SS) = Ok td /\
              td = timedelta_of_seconds n /\
              td_total_us td = n * US_PER_SECOND) /\
  (span_digits_ok D HH MM SS = true ->
   86400 * 1000000000 <= n ->
   interval (time_span D HH MM SS) = Raise OverflowError) /\
  (span_digits_ok D HH MM SS = false ->
   interval (time_span D HH MM SS) = Raise ValueError).
Proof.
  intros HD HHH HMM HSS n. subst n.
  rewrite (interval_on_time_span D HH MM SS HD HHH HMM HSS).
  split; [|split].
  - intros -> Hn. apply Z.ltb_lt in Hn. rewrite Hn.
    eexists. split; [reflexivity|]. split; [reflexivity|].
    apply timedelta_of_seconds_total.
  - intros -> Hn. apply Z.ltb_ge in Hn. now rewrite Hn.
  - now intros ->.
Qed.

Lemma digit_seq_literal (s : string) :
  (negb (String.eqb s "") && all_chars Re.isdigit s)%bool = true -> digit_seq s.
Proof.
  intros H. apply andb_prop in H as [H0 H1]. split; [|exact H1].
  intros ->. discriminate.
Qed.

(** The claim at "2 days, 03:04:05" and at "03:04:05", and the limit of
    [int] at hours of 4301 zeros. *)
Lemma interval_time_span_witness :
  (exists td, interval "2 days, 03:04:05" = Ok td /\
              td = timedelta_of_seconds 183845 /\
              td_total_us td = 183845 * US_PER_SECOND) /\
  (exists td, interval "03:04:05" = Ok td /\
              td = timedelta_of_seconds 11045 /\
              td_total_us td = 11045 * US_PER_SECOND) /\
  interval (time_span None (zeros 4301) "00" "00") = Raise ValueError.
Proof.
  split; [|split].
  3:{ apply (interval_time_span None (zeros 4301) "00" "00");
        try (apply digit_seq_literal; vm_compute; reflexivity);
        try exact I.
      vm_compute. reflexivity. }
  - apply (interval_time_span (Some "2") "03" "04" "05");
      try (apply digit_seq_literal; reflexivity).
    + vm_compute. reflexivity.
    + vm_compute. reflexivity.
  - apply (interval_time_span None "03" "04" "05");
      try (apply digit_seq_literal; reflexivity); try exact I.
    + vm_compute. reflexivity.
    + vm_compute. reflexivity.
Defined.

(** C1 as stated fails: a billion days is a time span of the form, and
    [interval] returns no duration for it. *)
Lemma interval_overflow_counterexample :
  digit_seq "1000000000" /\ digit_seq "00" /\
  span_digits_ok (Some "1000000000") "00" "00" "00" = true /\
  time_span (Some "1000000000") "00" "00" "00" = "1000000000 days, 00:00:00" /\
  interval "1000000000 days, 00:00:00" = Raise OverflowError /\
  ~ (exists td, interval "1000000000 days, 00:00:00" = Ok td /\
                td_total_us td = span_seconds (Some "1000000000") "00" "00" "00" * US_PER_SECOND).
Proof.
  split; [apply digit_seq_literal; reflexivity|].
  split; [apply digit_seq_literal; reflexivity|].
  split; [vm_compute; reflexivity|].
  split; [reflexivity|].
  split; [vm_compute; reflexivity|].
  intros [td [H _]]. vm_compute in H. discriminate.
Qed.

(* ================================================================== *)
(** * The parser *)

Section ParserFacts.
Import Str Re StrFacts ReFacts.

Lemma parse_line_var_of env st line :
  parse_line env st line =
  match var_of line with
  | Some (name, rest) => parse_var env name rest (set_in_vnode false st)
  | None => if st_in_vnode st
            then Next (set_est_vnode (st_est_vnode st ++ strip_ws line)%string st)
            else Next st
  end.
Proof. unfold parse_line, var_of. now destruct (re_match VAR_RE line). Qed.

Lemma var_of_var_line name value :
  all_chars not_space_eq name = true ->
  var_of (var_line name value) = Some (name, value).
Proof.
  intros Hn. unfold var_of, re_match, VAR_RE, var_line.
  rewrite rmatch_seq.
  change ("    " ++ name ++ " = " ++ value)%string
    with ("    " ++ (name ++ " = " ++ value))%string at 1.
  rewrite lit_app, rmatch_seq, rmatch_group.
  cbn [rmatch].
  erewrite star_longest; [| exact Hn | reflexivity |].
  2:{ rewrite take_consumed.
      change (" = " ++ value)%string with (" = " ++ value)%string.
      rewrite startswith_app, drop_app_length. reflexivity. }
  cbn [group1 group groups lookup glabel_eqb Nat.eqb group0].
  f_equal. f_equal.
  replace ("    " ++ name ++ " = " ++ value)%string
    with (("    " ++ name ++ " = ") ++ value)%string.
  2:{ rewrite !app_assoc. reflexivity. }
  rewrite take_consumed. apply replace_first_prefix.
Qed.

Ltac chain :=
  unfold parse_var;
  repeat match goal with
    | |- context [if String.eqb ?n ?c then _ else _] =>
        destruct (String.eqb n c) eqn:?
    | |- context [if (String.eqb ?n ?c && _)%bool then _ else _] =>
        destruct (String.eqb n c) eqn:?; cbn [andb]
    | |- context [if negb ?b then _ else _] => destruct b eqn:?; cbn [negb]
    | |- context [if ?a =? ?b then _ else _] => destruct (a =? b) eqn:?
    | |- context [match int_of_str ?r with _ => _ end] =>
        destruct (int_of_str r) eqn:?
    | |- context [match interval ?r with _ => _ end] =>
        destruct (interval r) eqn:?
    | |- context [match strptime_c ?e ?r with _ => _ end] =>
        destruct (strptime_c e r) eqn:?
    end.

Lemma parse_var_job_id env name v st st' :
  parse_var env name v st = Next st' ->
  job_id (st_job st') = job_id (st_job st).
Proof.
  chain; intros H; try discriminate; injection H as <-; reflexivity.
Qed.

Lemma parse_line_job_id env line st st' :
  parse_line env st line = Next st' ->
  job_id (st_job st') = job_id (st_job st).
Proof.
  rewrite parse_line_var_of. destruct (var_of line) as [[name v]|].
  - intros H. now apply parse_var_job_id in H.
  - destruct (st_in_vnode st); intros H; injection H as <-; reflexivity.
Qed.

Lemma parse_lines_job_id env ls st st' :
  parse_lines env st ls = Next st' ->
  job_id (st_job st') = job_id (st_job st).
Proof.
  revert st. induction ls as [|l ls IH]; intros st; simpl.
  - intros H. now injection H as <-.
  - destruct (parse_line env st l) as [st1| |] eqn:E; try discriminate.
    intros H. rewrite (IH _ H). now apply parse_line_job_id in E.
Qed.

(** C9.  The job record [job_from_qstat] returns has its id from the first
    line of the block, the text before the first line feed: when that line
    has exactly one colon the id is the string after the colon with the
    white space around it stripped; when it has none, or two or more, the id
    is the list of the pieces the colons split the line into. *)
Theorem job_id_of_first_line env ticks job_info j t :
  job_from_qstat env ticks job_info = Ok (Some j, t) ->
  let first_line := before_first (ascii_of_nat 10) job_info in
  (count_char ":" first_line = 1%nat ->
   job_id j = IdStr (strip_ws (after_first ":" first_line))) /\
  (count_char ":" first_line <> 1%nat ->
   job_id j = IdList (split ":" first_line)).
Proof.
  unfold job_from_qstat.
  destruct (parse_lines env (init_pstate env ticks job_info) _) as [st| |] eqn:E;
    try discriminate.
  intros H. injection H as <- <-.
  apply parse_lines_job_id in E. cbn [job_id set_exec_vnode].
  rewrite E. cbn [init_pstate st_job Job_new job_id]. unfold parse_job_id.
  change LF with (sep1 (ascii_of_nat 10)).
  rewrite hd_split_sep1.
  set (first_line := before_first (ascii_of_nat 10) job_info).
  change ":" with (sep1 ":").
  rewrite length_split_sep1.
  split; intros Hc.
  - rewrite Hc. cbn [Nat.eqb]. now rewrite nth1_split_sep1.
  - destruct (Nat.eqb_spec (S (count_char ":" first_line)) 2) as [Heq|]; [|reflexivity].
    exfalso. apply Hc. lia.
Qed.

(** ** The frame of an attribute line *)

Lemma parse_var_vnode_frame env name v st st' :
  parse_var env name v st = Next st' ->
  String.eqb name "exec_vnode" = false ->
  st_exec_vnode st = true \/ String.eqb name "estimated.exec_vnode" = false ->
  st_est_vnode st' = st_est_vnode st /\
  st_in_vnode st' = st_in_vnode st /\
  st_exec_vnode st' = st_exec_vnode st.
Proof.
  chain; intros H Hn Hf; try discriminate; try (injection H as <-);
    try (now repeat split).
  all: destruct Hf; congruence.
Qed.

Lemma parse_var_seen_frame env name v st st' :
  parse_var env name v st = Next st' ->
  String.eqb name "exec_vnode" = false ->
  st_exec_vnode st' = st_exec_vnode st.
Proof.
  chain; intros H Hn; try discriminate; try (injection H as <-);
    cbn; congruence.
Qed.

Lemma parse_var_stime_frame env name v st st' :
  parse_var env name v st = Next st' ->
  String.eqb name "stime" = false ->
  st_has_stime st = true \/ String.eqb name "estimated.start_time" = false ->
  start_time (st_job st') = start_time (st_job st) /\
  st_has_stime st' = st_has_stime st.
Proof.
  chain; intros H Hn Hf; try discriminate; try (injection H as <-);
    try (now repeat split).
  all: destruct Hf; congruence.
Qed.

Lemma parse_lines_app env a b st :
  parse_lines env st (a ++ b) =
  match parse_lines env st a with
  | Next st' => parse_lines env st' b
  | other => other
  end.
Proof.
  revert st. induction a as [|l a IH]; intros st; simpl; [reflexivity|].
  destruct (parse_line env st l); auto.
Qed.

Lemma slice_block {A} (header : A) body last :
  slice_1_m1 (header :: body ++ [last]) = body.
Proof. unfold slice_1_m1. simpl. apply removelast_last. Qed.

(** ** How a line ends does not depend on the state *)

Lemma parse_var_kind env name v st1 st2 :
  kind_of (parse_var env name v st1) = kind_of (parse_var env name v st2).
Proof. chain; reflexivity. Qed.

Lemma parse_line_kind env line st1 st2 :
  kind_of (parse_line env st1 line) = kind_of (parse_line env st2 line).
Proof.
  rewrite !parse_line_var_of. destruct (var_of line) as [[name v]|].
  - apply parse_var_kind.
  - destruct (st_in_vnode st1), (st_in_vnode st2); reflexivity.
Qed.


Lemma no_raise_by_kind env line st0 :
  (forall e, kind_of (parse_line env st0 line) <> KThrow e) ->
  no_raise env line.
Proof.
  intros H st e E. apply (H e).
  rewrite (parse_line_kind env line st0 st), E. reflexivity.
Qed.

(** ** The node assignment *)

Lemma names_var_false name line n v :
  var_of line = Some (n, v) -> names_var name line = false ->
  String.eqb n name = false.
Proof. unfold names_var. now intros ->. Qed.

Lemma accumulate env post : forall st st',
  parse_lines env st post = Next st' ->
  Forall (fun l => names_var "exec_vnode" l = false) post ->
  st_exec_vnode st = true \/
    Forall (fun l => names_var "estimated.exec_vnode" l = false) post ->
  st_est_vnode st' =
    (st_est_vnode st ++ if st_in_vnode st then continuation post else "")%string
  /\ st_exec_vnode st' = st_exec_vnode st.
Proof.
  induction post as [|l post IH]; intros st st' H Hact Hest.
  - simpl in H. injection H as <-. simpl.
    destruct (st_in_vnode st); now rewrite app_empty_r.
  - simpl in H. destruct (parse_line env st l) as [st1| |] eqn:E; try discriminate.
    apply Forall_cons_iff in Hact as [Hl Hact].
    rewrite parse_line_var_of in E. cbn [continuation].
    destruct (var_of l) as [[n v]|] eqn:Ev.
    + assert (Hest1 : st_exec_vnode (set_in_vnode false st) = true \/
                      String.eqb n "estimated.exec_vnode" = false).
      { destruct Hest as [Hf|Hf]; [now left | right].
        apply Forall_cons_iff in Hf as [Hf _].
        eapply names_var_false; eauto. }
      destruct (parse_var_vnode_frame _ _ _ _ _ E
                  (names_var_false _ _ _ _ Ev Hl) Hest1) as (He & Hi & Hs).
      cbn in He, Hi, Hs.
      destruct (IH st1 st' H Hact) as [IH1 IH2].
      { destruct Hest as [Hf|Hf]; [left; congruence | right].
        now apply Forall_cons_iff in Hf as [_ Hf]. }
      rewrite IH1, IH2, Hi, He, Hs.
      split; [|reflexivity].
      destruct (st_in_vnode st); reflexivity.
    + assert (Hest' : st_exec_vnode st = true \/
          Forall (fun l => names_var "estimated.exec_vnode" l = false) post).
      { destruct Hest as [Hf|Hf]; [now left | right].
        now apply Forall_cons_iff in Hf as [_ Hf]. }
      destruct (st_in_vnode st) eqn:Hin; injection E as <-.
      * destruct (IH _ st' H Hact Hest') as [IH1 IH2].
        cbn in IH1, IH2. rewrite Hin in IH1.
        rewrite IH1, IH2. split; [|reflexivity]. now rewrite app_assoc.
      * destruct (IH _ st' H Hact Hest') as [IH1 IH2].
        rewrite Hin in IH1. now rewrite IH1, IH2.
Qed.

Lemma seen_preserved env ls : forall st st',
  parse_lines env st ls = Next st' ->
  Forall (fun l => names_var "exec_vnode" l = false) ls ->
  st_exec_vnode st' = st_exec_vnode st.
Proof.
  induction ls as [|l ls IH]; intros st st' H Hact.
  - simpl in H. now injection H as <-.
  - simpl in H. destruct (parse_line env st l) as [st1| |] eqn:E; try discriminate.
    apply Forall_cons_iff in Hact as [Hl Hact].
    rewrite (IH _ _ H Hact).
    rewrite parse_line_var_of in E.
    destruct (var_of l) as [[n v]|] eqn:Ev.
    + now rewrite (parse_var_seen_frame _ _ _ _ _ E (names_var_false _ _ _ _ Ev Hl)).
    + destruct (st_in_vnode st); now injection E as <-.
Qed.

(** C4, as the code has it.  The parser reads the lines of a block but the
    first and the last.  When one of the lines it reads is an exec_vnode
    attribute and none after it is, the node list of the job returned comes
    from that attribute, its value followed by its continuation lines,
    wherever estimated.exec_vnode attributes stand before or after it.  When
    a line it reads is an estimated.exec_vnode attribute, no line is an
    exec_vnode attribute and no later one an estimated.exec_vnode attribute,
    the node list comes from the estimated one. *)
Theorem exec_vnode_precedence env ticks job_info header pre name v post last j t :
  split LF job_info = header :: pre ++ var_line name v :: post ++ [last] ->
  job_from_qstat env ticks job_info = Ok (Some j, t) ->
  (name = "exec_vnode" ->
   Forall (fun l => names_var "exec_vnode" l = false) post ->
   exec_vnode j = node_names (v ++ continuation post)) /\
  (name = "estimated.exec_vnode" ->
   Forall (fun l => names_var "exec_vnode" l = false) (pre ++ post) ->
   Forall (fun l => names_var "estimated.exec_vnode" l = false) post ->
   exec_vnode j = node_names (v ++ continuation post)).
Proof.
  intros Hsplit Hjob. unfold job_from_qstat in Hjob. rewrite Hsplit in Hjob.
  replace (header :: pre ++ var_line name v :: post ++ [last])
    with (header :: (pre ++ var_line name v :: post) ++ [last]) in Hjob
    by (now rewrite <- List.app_assoc).
  rewrite slice_block, parse_lines_app in Hjob.
  destruct (parse_lines env (init_pstate env ticks job_info) pre)
    as [st1| |] eqn:Epre; try discriminate.
  cbn [parse_lines] in Hjob.
  destruct (parse_line env st1 (var_line name v)) as [st2| |] eqn:El;
    try discriminate.
  destruct (parse_lines env st2 post) as [st3| |] eqn:Epost; try discriminate.
  injection Hjob as <- <-. cbn [exec_vnode set_exec_vnode].
  rewrite parse_line_var_of in El.
  split.
  - intros -> Hpost. rewrite var_of_var_line in El by reflexivity.
    cbn in El. injection El as <-.
    destruct (accumulate _ _ _ _ Epost Hpost) as [H _]; [now left|].
    now rewrite H.
  - intros -> Hact Hest. apply Forall_app in Hact as [Hpre Hpost].
    rewrite var_of_var_line in El by reflexivity.
    pose proof (seen_preserved _ _ _ _ Epre Hpre) as Hseen. cbn in Hseen.
    unfold parse_var in El. cbn in El. rewrite Hseen in El. cbn in El.
    injection El as <-.
    destruct (accumulate _ _ _ _ Epost Hpost) as [H _]; [now right|].
    now rewrite H.
Qed.

(** ** The start time *)

Lemma stime_preserved env ls : forall st st',
  parse_lines env st ls = Next st' ->
  Forall (fun l => names_var "stime" l = false) ls ->
  st_has_stime st = true \/
    Forall (fun l => names_var "estimated.start_time" l = false) ls ->
  start_time (st_job st') = start_time (st_job st) /\
  st_has_stime st' = st_has_stime st.
Proof.
  induction ls as [|l ls IH]; intros st st' H Hs Hest.
  - simpl in H. now injection H as <-.
  - simpl in H. destruct (parse_line env st l) as [st1| |] eqn:E; try discriminate.
    apply Forall_cons_iff in Hs as [Hl Hs].
    rewrite parse_line_var_of in E.
    assert (H1 : start_time (st_job st1) = start_time (st_job st) /\
                 st_has_stime st1 = st_has_stime st).
    { destruct (var_of l) as [[n v]|] eqn:Ev.
      - apply (parse_var_stime_frame _ _ _ _ _ E
                 (names_var_false _ _ _ _ Ev Hl)).
        destruct Hest as [Hf|Hf]; [now left | right].
        apply Forall_cons_iff in Hf as [Hf _].
        eapply names_var_false; eauto.
      - destruct (st_in_vnode st); now injection E as <-. }
    destruct H1 as [H1 H2].
    destruct (IH _ _ H Hs) as [IH1 IH2].
    { destruct Hest as [Hf|Hf]; [left; congruence | right].
      now apply Forall_cons_iff in Hf as [_ Hf]. }
    split; congruence.
Qed.

(** C10, as the code has it.  For a block with an stime attribute among the
    lines the parser reads, and none after it, the start time of the job
    returned is the stime when it parses, and otherwise the start time the
    job had before the stime line: the estimated.start_time attributes after
    the stime line are ignored, whether the stime parses or not.  The start
    time before the stime line is the default of the class when no stime and
    no estimated.start_time attribute stands before it. *)
Theorem estimated_start_after_stime env ticks job_info header pre v post last j t :
  split LF job_info = header :: pre ++ var_line "stime" v :: post ++ [last] ->
  job_from_qstat env ticks job_info = Ok (Some j, t) ->
  Forall (fun l => names_var "stime" l = false) post ->
  exists st_pre,
    parse_lines env (init_pstate env ticks job_info) pre = Next st_pre /\
    start_time j = match strptime_c env v with
                   | Some d => d
                   | None => start_time (st_job st_pre)
                   end /\
    (Forall (fun l => names_var "stime" l = false) pre ->
     Forall (fun l => names_var "estimated.start_time" l = false) pre ->
     start_time (st_job st_pre) = Job_start_time env).
Proof.
  intros Hsplit Hjob Hpost. unfold job_from_qstat in Hjob. rewrite Hsplit in Hjob.
  replace (header :: pre ++ var_line "stime" v :: post ++ [last])
    with (header :: (pre ++ var_line "stime" v :: post) ++ [last]) in Hjob
    by (now rewrite <- List.app_assoc).
  rewrite slice_block, parse_lines_app in Hjob.
  destruct (parse_lines env (init_pstate env ticks job_info) pre)
    as [st1| |] eqn:Epre; try discriminate.
  cbn [parse_lines] in Hjob.
  destruct (parse_line env st1 (var_line "stime" v)) as [st2| |] eqn:El;
    try discriminate.
  destruct (parse_lines env st2 post) as [st3| |] eqn:Epost; try discriminate.
  injection Hjob as <- <-. cbn [start_time set_exec_vnode].
  exists st1. split; [reflexivity|].
  rewrite parse_line_var_of, var_of_var_line in El by reflexivity.
  unfold parse_var in El. cbn in El.
  split.
  - destruct (stime_preserved _ _ _ _ Epost Hpost) as [H _].
    { left. destruct (strptime_c env v); now injection El as <-. }
    rewrite H. destruct (strptime_c env v); now injection El as <-.
  - intros Hs He.
    destruct (stime_preserved _ _ _ _ Epre Hs) as [H _]; [now right|].
    exact H.
Qed.

(** ** The queue filter *)

Lemma filtered_out env pre line post : forall st,
  Forall (no_raise env) pre ->
  (forall st, exists t, parse_line env st line = ReturnNone t) ->
  exists t, parse_lines env st (pre ++ line :: post) = ReturnNone t.
Proof.
  induction pre as [|l pre IH]; intros st Hpre Hline.
  - simpl. destruct (Hline st) as [t ->]. now exists t.
  - apply Forall_cons_iff in Hpre as [Hl Hpre]. simpl.
    destruct (parse_line env st l) as [st1|t|e] eqn:E.
    + now apply IH.
    + now exists t.
    + exfalso. exact (Hl st e E).
Qed.

Lemma drop_none_app a b : drop_none (a ++ b) = drop_none a ++ drop_none b.
Proof.
  induction a as [|[x|] a IH]; simpl; [reflexivity | now rewrite IH | exact IH].
Qed.

(** C2, as the code has it.  When a line the parser reads (any but the
    first and the last of the block) is a queue attribute whose value has no
    NODE_TYPE in it, and no line before it raises, [job_from_qstat] returns
    [None] whatever the other lines are; and the caller drops a [None] from
    the list of the jobs. *)
Theorem queue_filter env ticks job_info header pre v post last :
  split LF job_info = header :: pre ++ var_line "queue" v :: post ++ [last] ->
  find (NODE_TYPE env) v = -1 ->
  Forall (no_raise env) pre ->
  exists t,
    job_from_qstat env ticks job_info = Ok (None, t) /\
    forall before after,
      drop_none (before ++ None :: after) = drop_none (before ++ after).
Proof.
  intros Hsplit Hfind Hpre.
  destruct (filtered_out env pre (var_line "queue" v) post
              (init_pstate env ticks job_info) Hpre) as [t Ht].
  { intros st. rewrite parse_line_var_of, var_of_var_line by reflexivity.
    unfold parse_var. cbn. rewrite Hfind. cbn. eauto. }
  exists t. split.
  - unfold job_from_qstat. rewrite Hsplit.
    replace (header :: pre ++ var_line "queue" v :: post ++ [last])
      with (header :: (pre ++ var_line "queue" v :: post) ++ [last])
      by (now rewrite <- List.app_assoc).
    now rewrite slice_block, Ht.
  - intros before after. now rewrite !drop_none_app.
Qed.

(** ** Timestamps that do not parse *)



End ParserFacts.

(* ================================================================== *)
(** * The node names *)

Section NodeNamesFacts.
Import Str Re StrFacts ReFacts.

Lemma lstrip_head (p : ascii -> bool) (s : string) :
  head_out p s = true -> lstrip p s = s.
Proof.
  destruct s as [|a s]; [reflexivity|]. simpl. intros H.
  apply negb_true_iff in H. now rewrite H.
Qed.

Lemma rstrip_last (p : ascii -> bool) (s : string) :
  last_out p s = true -> rstrip p s = s.
Proof.
  induction s as [|a s IH]; [reflexivity|].
  destruct s as [|b s].
  - simpl. intros H. apply negb_true_iff in H. now rewrite H.
  - intros H. change (last_out p (String a (String b s)))
      with (last_out p (String b s)) in H.
    change (rstrip p (String a (String b s)))
      with (match rstrip p (String b s) with
            | EmptyString => if p a then EmptyString else String a EmptyString
            | t => String a t
            end).
    now rewrite (IH H).
Qed.

Lemma strip_clean (n : string) : clean n -> strip (is_char "(") n = n.
Proof.
  intros [H1 H2]. unfold strip. now rewrite lstrip_head, rstrip_last.
Qed.

Lemma strip_drop_paren (t : string) :
  clean (drop_paren t) -> strip (is_char "(") t = drop_paren t.
Proof.
  intros Hc. destruct t as [|a t]; [reflexivity|].
  destruct (Ascii.eqb a "(") eqn:E.
  - apply Ascii.eqb_eq in E. subst a. cbn [drop_paren] in *.
    unfold strip.
    change (lstrip (is_char "(") (String "(" t)) with (lstrip (is_char "(") t).
    fold (strip (is_char "(") t). now apply strip_clean.
  - assert (Hd : drop_paren (String a t) = String a t).
    { destruct a as [[] [] [] [] [] [] [] []]; try reflexivity; discriminate. }
    rewrite Hd in *. now apply strip_clean.
Qed.

Lemma single_empty (names : list string) :
  (Nat.eqb (List.length names) 1 && String.eqb (hd "" names) "")%bool = true
  <-> names = [""].
Proof.
  split.
  - intros H. apply andb_prop in H as [H1 H2].
    apply Nat.eqb_eq in H1. apply String.eqb_eq in H2.
    destruct names as [|n [|m names]]; try discriminate. simpl in H2. now subst.
  - now intros ->.
Qed.

(** C3, as the code has it.  The accumulated field is split on the plus
    sign and of each entry the text before the first colon is kept, with
    every opening parenthesis at its two ends stripped; a list of one empty
    name is replaced by the empty list.  For the entries of the scheduler,
    whose name has no parenthesis but a leading one, this is what the
    specification says, one leading parenthesis stripped; the field of the
    two nodes A and B gives their two names and the empty field no name. *)
Theorem node_names_spec (field : string) :
  node_names field =
    (let names := map (fun e => strip (is_char "(") (before_first ":" e))
                      (split "+" field) in
     match names with
     | [EmptyString] => []
     | _ => names
     end) /\
  (Forall (fun e => clean (spec_entry_name e)) (split "+" field) ->
   field = "" \/ map spec_entry_name (split "+" field) <> [""] ->
   node_names field = spec_node_names field) /\
  node_names "(nodeA:ncpus=2)+(nodeB:ncpus=4)" = ["nodeA"; "nodeB"] /\
  node_names "" = [].
Proof.
  assert (Hgen : node_names field =
    (let names := map (fun e => strip (is_char "(") (before_first ":" e))
                      (split "+" field) in
     match names with
     | [EmptyString] => []
     | _ => names
     end)).
  { unfold node_names.
    assert (E : map (fun s => strip (is_char "(") (hd "" (split ":" s)))
                    (split "+" field)
                = map (fun e => strip (is_char "(") (before_first ":" e))
                      (split "+" field)).
    { apply map_ext. intros e. change ":" with (sep1 ":").
      now rewrite hd_split_sep1. }
    rewrite E. cbv zeta.
    set (names := map _ _).
    destruct (Nat.eqb (List.length names) 1 && String.eqb (hd "" names) "")%bool
      eqn:Hb.
    - apply single_empty in Hb. now rewrite Hb.
    - destruct names as [|[|a n] [|m names]]; try reflexivity.
      discriminate. }
  split; [exact Hgen|]. split; [|split; reflexivity].
  intros Hclean Hne. rewrite Hgen. cbv zeta.
  assert (E : map (fun e => strip (is_char "(") (before_first ":" e))
                  (split "+" field)
              = map spec_entry_name (split "+" field)).
  { apply map_ext_in. intros e He.
    rewrite Forall_forall in Hclean. specialize (Hclean e He).
    now apply strip_drop_paren. }
  rewrite E. unfold spec_node_names.
  destruct Hne as [-> | Hne]; [reflexivity|].
  destruct field as [|c field]; [reflexivity|].
  cbn [String.eqb].
  destruct (map spec_entry_name (split "+" (String c field)))
    as [|[|a n] [|m names]]; try reflexivity.
  congruence.
Qed.

End NodeNamesFacts.

(* ================================================================== *)
(** * The runs of rows *)

Lemma insert_sorted_perm n l : Permutation (n :: l) (insert_sorted n l).
Proof.
  induction l as [|m l IH]; simpl; [reflexivity|].
  destruct (n <=? m); [reflexivity|].
  rewrite perm_swap. now apply perm_skip.
Qed.

Lemma sorted_perm l : Permutation l (sorted l).
Proof.
  induction l as [|n l IH]; simpl; [constructor|].
  rewrite <- insert_sorted_perm. now apply perm_skip.
Qed.

Lemma insert_sorted_hd n a l :
  HdRel Z.le a l -> a <= n -> HdRel Z.le a (insert_sorted n l).
Proof.
  intros H Han. destruct l as [|m l]; simpl.
  - now constructor.
  - destruct (n <=? m); constructor; [assumption | now inversion H].
Qed.

Lemma insert_sorted_Sorted n l : Sorted Z.le l -> Sorted Z.le (insert_sorted n l).
Proof.
  induction 1 as [|m l Hs IH Hhd]; simpl.
  - repeat constructor.
  - destruct (Z.leb_spec n m) as [Hle|Hgt].
    + constructor; [now constructor | now constructor].
    + constructor; [assumption|].
      apply insert_sorted_hd; [assumption | lia].
Qed.

Lemma sorted_Sorted l : Sorted Z.le (sorted l).
Proof.
  induction l as [|n l IH]; simpl; [constructor | now apply insert_sorted_Sorted].
Qed.

Lemma Sorted_le_NoDup_lt l : Sorted Z.le l -> NoDup l -> Sorted Z.lt l.
Proof.
  induction 1 as [|a l Hs IH Hhd]; intros Hnd; [constructor|].
  inversion Hnd as [|? ? Hnotin Hnd']; subst.
  constructor; [now apply IH|].
  destruct Hhd as [|b l Hab]; constructor.
  assert (a <> b) by (intros ->; apply Hnotin; now left). lia.
Qed.

Lemma sorted_strict l : NoDup l -> Sorted Z.lt (sorted l).
Proof.
  intros H. apply Sorted_le_NoDup_lt; [apply sorted_Sorted|].
  eapply Permutation_NoDup; [apply sorted_perm | exact H].
Qed.

Lemma insert_sorted_comm a b l :
  insert_sorted a (insert_sorted b l) = insert_sorted b (insert_sorted a l).
Proof.
  induction l as [|m l IH]; simpl.
  - destruct (Z.leb_spec a b), (Z.leb_spec b a); try reflexivity; try lia.
    now replace a with b by lia.
  - destruct (Z.leb_spec b m), (Z.leb_spec a m); simpl;
      destruct (Z.leb_spec a b), (Z.leb_spec b a); simpl;
      repeat match goal with
        | |- context [?x <=? ?y] => destruct (Z.leb_spec x y)
        end; try lia; try reflexivity; try (now replace a with b by lia).
    all: now rewrite IH.
Qed.

Lemma sorted_of_perm l l' : Permutation l l' -> sorted l = sorted l'.
Proof.
  induction 1; simpl; try congruence.
  apply insert_sorted_comm.
Qed.

(** The groups of a strictly increasing list. *)
Lemma groupby_head a s c :
  exists g gs, groupby (with_count c (a :: s)) = (a - c, a :: g) :: gs.
Proof.
  simpl. destruct (groupby (with_count (c + 1) s)) as [|[k' g] gs]; [eauto|].
  destruct (a - c =? k'); eauto.
Qed.

Lemma groupby_runs s : Sorted Z.lt s -> forall c,
  let rs := map snd (groupby (with_count c s)) in
  List.concat rs = s /\ Forall (fun r => r <> [] /\ contiguous r) rs /\ separated rs.
Proof.
  induction 1 as [|a s Hs IH Hhd]; intros c; [simpl; auto|].
  specialize (IH (c + 1)). cbv zeta in IH.
  destruct s as [|b s].
  - simpl. repeat split; auto. constructor; [|constructor]. split; [discriminate | exact I].
  - assert (Hab : a < b) by now inversion Hhd.
    destruct (groupby_head b s (c + 1)) as (g & gs & E).
    change (with_count c (a :: b :: s))
      with ((a - c, a) :: with_count (c + 1) (b :: s)).
    cbn [groupby]. cbv zeta. rewrite E in *.
    cbn [map snd List.concat] in IH. destruct IH as (Hc & Hf & Hsep).
    apply Forall_cons_iff in Hf as [[_ Hg] Hf].
    destruct (Z.eqb_spec (a - c) (b - (c + 1))) as [Heq|Hne];
      cbn [map snd List.concat].
    + split; [|split].
      * cbn [app]. f_equal. exact Hc.
      * constructor; [|exact Hf]. split; [discriminate|].
        cbn [contiguous]. split; [lia | exact Hg].
      * destruct gs as [|[k2 g2] gs]; [exact I|].
        cbn [map snd separated] in *. exact Hsep.
    + split; [|split].
      * cbn [app]. f_equal. exact Hc.
      * constructor; [split; [discriminate | exact I]|].
        constructor; [|exact Hf]. split; [discriminate | exact Hg].
      * cbn [separated hd last]. split; [lia | exact Hsep].
Qed.

Lemma patches_of_app a b : patches_of (a ++ b) = patches_of a ++ patches_of b.
Proof.
  induction a as [|[] a IH]; simpl; try assumption; [reflexivity | now rewrite IH].
Qed.

Lemma draw_ranges_patches job tstart tend color_i rs : forall cmds,
  draw_ranges job tstart tend color_i rs = Ok cmds ->
  patches_of cmds = map (rect_of_run tstart tend color_i) rs.
Proof.
  induction rs as [|r rs IH]; intros cmds H; simpl in H.
  - now injection H as <-.
  - destruct (0 <? last r 0 - hd 0 r).
    + destruct (short_id (job_id job)); simpl in H; [|discriminate].
      destruct (draw_ranges job tstart tend color_i rs); simpl in H; [|discriminate].
      injection H as <-. simpl. now rewrite (IH _ eq_refl).
    + simpl in H.
      destruct (draw_ranges job tstart tend color_i rs); simpl in H; [|discriminate].
      injection H as <-. simpl. now rewrite (IH _ eq_refl).
Qed.

(** Whether the runs are all drawn depends on the labels of the runs of
    more than one row, which take a job id that is a string. *)
Lemma draw_ranges_returns job tstart tend color_i rs :
  (exists id, job_id job = IdStr id) \/ existsb wide rs = false ->
  exists cmds, draw_ranges job tstart tend color_i rs = Ok cmds.
Proof.
  intros H. induction rs as [|r rs IH]; simpl; [eauto|].
  destruct IH as [cs IH].
  { destruct H as [H|H]; [now left | right].
    simpl in H. now apply orb_false_iff in H as [_ H]. }
  rewrite IH. fold (wide r).
  destruct (wide r) eqn:Hw; cbn [bind]; [|eauto].
  destruct H as [[id Hid]|H].
  - rewrite Hid. cbn [short_id bind]. eauto.
  - simpl in H. rewrite Hw in H. discriminate.
Qed.

Lemma draw_ranges_list_id job tstart tend color_i rs l :
  job_id job = IdList l -> existsb wide rs = true ->
  draw_ranges job tstart tend color_i rs = Raise AttributeError.
Proof.
  intros Hl. induction rs as [|r rs IH]; simpl; [discriminate|].
  fold (wide r). destruct (wide r); cbn [orb].
  - intros _. rewrite Hl. reflexivity.
  - intros H. cbn [bind]. now rewrite (IH H).
Qed.

(** C5, as the code has it.  For row numbers without duplicates, in any
    order, the groups of the renderer are the maximal contiguous runs of the
    sorted numbers: put end to end they are the sorted list, each one is a
    non-empty run of consecutive numbers, a row at least lies between a run
    and the next, and the runs depend on the set of the numbers only.  For a
    job whose id is a string, and for any job when no run has more than one
    row, the drawing of the runs completes and draws one rectangle for each
    run, from its first row to its last; for a job whose id is a list and a
    run of more than one row, the label of the run raises [AttributeError].
    The rows 2, 3, 4, 7, 9, 10 give the runs (2,4), (7,7), (9,10). *)
Theorem ranges_maximal_runs (i_nodes : list Z) :
  NoDup i_nodes ->
  let rs := ranges i_nodes in
  (Sorted Z.lt (sorted i_nodes) /\ Permutation i_nodes (sorted i_nodes)) /\
  List.concat rs = sorted i_nodes /\
  Forall (fun r => r <> [] /\ contiguous r) rs /\
  separated rs /\
  (forall l, Permutation l i_nodes -> ranges l = rs) /\
  (forall job tstart tend color_i,
      (exists id, job_id job = IdStr id) \/ existsb wide rs = false ->
      exists cmds,
        draw_ranges job tstart tend color_i rs = Ok cmds /\
        patches_of cmds = map (rect_of_run tstart tend color_i) rs) /\
  (forall job tstart tend color_i l,
      job_id job = IdList l -> existsb wide rs = true ->
      draw_ranges job tstart tend color_i rs = Raise AttributeError) /\
  map (fun r => (hd 0 r, last r 0)) (ranges [2; 3; 4; 7; 9; 10])
    = [(2, 4); (7, 7); (9, 10)].
Proof.
  intros Hnd rs.
  pose proof (sorted_strict _ Hnd) as Hs.
  destruct (groupby_runs _ Hs 0) as (Hc & Hf & Hsep).
  split; [split; [exact Hs | apply sorted_perm]|].
  split; [exact Hc|]. split; [exact Hf|]. split; [exact Hsep|].
  split.
  - intros l Hl. unfold rs, ranges. now rewrite (sorted_of_perm _ _ Hl).
  - split; [|split; [|reflexivity]].
    + intros job tstart tend color_i H.
      destruct (draw_ranges_returns job tstart tend color_i rs H) as [cmds E].
      exists cmds. split; [exact E|].
      now apply (draw_ranges_patches job).
    + intros job tstart tend color_i l Hl Hw.
      now apply (draw_ranges_list_id job _ _ _ _ l).
Qed.

(* ================================================================== *)
(** * The renderer *)

Lemma find_from_range sub s : forall i,
  0 <= i -> Str.find_from sub s i = -1 \/ i <= Str.find_from sub s i.
Proof.
  induction s as [|a s IH]; intros i Hi; simpl.
  - destruct (Str.startswith sub ""); [right; lia | now left].
  - destruct (Str.startswith sub (String a s)); [right; lia|].
    destruct (IH (i + 1)) as [H|H]; [lia | now left | right; lia].
Qed.

Lemma not_contains_find sub s :
  Str.contains sub s = false -> Str.find sub s = -1.
Proof.
  unfold Str.contains, Str.find. intros H. apply Z.leb_gt in H.
  destruct (find_from_range sub s 0); lia.
Qed.

(** C7, what the code does instead.  When the list of jobs is not empty and
    the queue of the first job has no knl in it, [str.index] raises
    [ValueError] and [plot_job_schedule] ends with it: nothing of the
    rendering goes on. *)
Theorem knl_check_raises env ticks pbsnodes job jobs :
  Str.contains "knl" (queue job) = false ->
  plot_job_schedule env ticks pbsnodes (job :: jobs) = Raise ValueError.
Proof.
  intros H. unfold plot_job_schedule, draw_knl, Str.index.
  now rewrite (not_contains_find _ _ H).
Qed.

Lemma timedelta_of_us_total us d :
  timedelta_of_us us = Ok d -> td_total_us d = us.
Proof.
  unfold timedelta_of_us.
  destruct (Z.abs (us / US_PER_DAY) >? MAX_DELTA_DAYS); [discriminate|].
  intros H. injection H as <-. unfold td_total_us. cbn.
  pose proof (Z.div_mod us US_PER_DAY ltac:(discriminate)).
  pose proof (Z.div_mod (us mod US_PER_DAY) US_PER_SECOND ltac:(discriminate)).
  unfold US_PER_DAY, US_PER_SECOND in *.
  change (86400 * 1000000) with 86400000000 in *. lia.
Qed.

Lemma hours_total d : hours d = hours_of_us (td_total_us d).
Proof. reflexivity. Qed.

Lemma hours_of_us_neg us : us < 0 -> (hours_of_us us < 0)%Q.
Proof.
  intros H. unfold hours_of_us, Qlt, Qdiv, Qmult, Qinv, US_PER_SECOND. simpl. lia.
Qed.

Lemma map_result_length {A B} (f : A -> result B) l : forall l',
  map_result f l = Ok l' -> List.length l' = List.length l.
Proof.
  induction l as [|a l IH]; intros l' H; simpl in H.
  - now injection H as <-.
  - destruct (f a); simpl in H; [|discriminate].
    destruct (map_result f l); simpl in H; [|discriminate].
    injection H as <-. simpl. now rewrite (IH _ eq_refl).
Qed.

Lemma ranges_not_nil l : l <> [] -> ranges l <> [].
Proof.
  intros Hl. unfold ranges.
  assert (Hs : sorted l <> []).
  { intros E. pose proof (Permutation_length (sorted_perm l)) as H.
    rewrite E in H. destruct l; [congruence | discriminate]. }
  destruct (sorted l) as [|a s]; [congruence|].
  destruct (groupby_head a s 0) as (g & gs & ->). discriminate.
Qed.

Lemma drawable_iff job :
  ((0 <? len (exec_vnode job)) && negb (String.eqb (job_state job) "H"))%bool
  = true <-> drawable job.
Proof.
  unfold drawable, len. split.
  - intros H. apply andb_prop in H as [H1 H2].
    apply Z.ltb_lt in H1. apply negb_true_iff in H2.
    apply String.eqb_neq in H2. split; [|exact H2].
    intros E. rewrite E in H1. simpl in H1. lia.
  - intros [H1 H2]. apply andb_true_intro. split.
    + apply Z.ltb_lt. destruct (exec_vnode job); [congruence | simpl; lia].
    + apply negb_true_iff. now apply String.eqb_neq.
Qed.

Lemma draw_job_spec env keys nu no st job cmds st' :
  draw_job env keys nu no st job = Ok (cmds, st') ->
  (drawable job -> patches_of cmds <> []) /\
  (forall r, In r (patches_of cmds) ->
     drawable job /\ is_job_colour (facecolor r) = true /\
     extent env job (rs_ticks st) r).
Proof.
  unfold draw_job.
  destruct ((0 <? len (exec_vnode job))
            && negb (String.eqb (job_state job) "H"))%bool eqn:C.
  - apply drawable_iff in C.
    destruct (map_result _ (exec_vnode job)) as [i_nodes|] eqn:Ei;
      cbn [bind]; [|discriminate].
    destruct (datetime_add (start_time job) (walltime job)) as [tend_at|] eqn:Ea;
      cbn [bind]; [|discriminate].
    destruct (datetime_sub (start_time job) (now env (rs_ticks st)))
      as [d1|] eqn:E1; cbn [bind]; [|discriminate].
    destruct (datetime_sub tend_at (now env (S (rs_ticks st))))
      as [d2|] eqn:E2; cbn [bind]; [|discriminate].
    set (col := if String.eqb (job_owner job) (username env)
                then (Dark2 (i_user st + 1) nu, i_user st + 1, i_other st)
                else (Paired (i_other st + 1) no, i_user st, i_other st + 1)).
    assert (Hcol : is_job_colour (fst (fst col)) = true).
    { unfold col. now destruct (String.eqb (job_owner job) (username env)). }
    destruct col as [[color_i iu] io]. cbn [fst] in Hcol.
    destruct (draw_ranges job (hours d1) (hours d2) color_i (ranges i_nodes))
      as [cs|] eqn:Ed; cbn [bind]; [|discriminate].
    intros H. injection H as <- <-.
    rewrite (draw_ranges_patches _ _ _ _ _ _ Ed).
    split.
    + intros _ E. apply map_eq_nil in E. revert E. apply ranges_not_nil.
      intros ->. apply map_result_length in Ei.
      destruct C as [C _]. destruct (exec_vnode job); [congruence | discriminate].
    + intros r Hr. apply in_map_iff in Hr as (run & <- & _).
      split; [exact C|]. split; [exact Hcol|].
      unfold extent, rect_of_run. cbn [rx rw].
      apply timedelta_of_us_total in E1, E2.
      unfold datetime_add in Ea.
      destruct (datetime_in_range _); [|discriminate]. injection Ea as <-.
      rewrite !hours_total, E1, E2. split; [reflexivity | ring].
  - intros H. injection H as <- <-. simpl.
    assert (Hn : ~ drawable job).
    { intros Hd. apply drawable_iff in Hd. congruence. }
    split; [tauto | intros r []].
Qed.

Lemma draw_jobs_spec env keys nu no jobs : forall st cmds st',
  draw_jobs env keys nu no st jobs = Ok (cmds, st') ->
  (forall job, In job jobs -> drawable job ->
     exists r n, In r (patches_of cmds) /\ extent env job n r) /\
  (forall r, In r (patches_of cmds) ->
     is_job_colour (facecolor r) = true /\
     exists job n, In job jobs /\ drawable job /\ extent env job n r).
Proof.
  induction jobs as [|job jobs IH]; intros st cmds st' H; simpl in H.
  - injection H as <- <-. split; [intros ? [] | intros ? []].
  - destruct (draw_job env keys nu no st job) as [[c1 st1]|] eqn:E1;
      cbn [bind] in H; [|discriminate].
    cbn [snd fst] in H.
    destruct (draw_jobs env keys nu no st1 jobs) as [[c2 st2]|] eqn:E2;
      cbn [bind] in H; [|discriminate].
    injection H as <- <-. cbn [fst].
    destruct (draw_job_spec _ _ _ _ _ _ _ _ E1) as [Hne Hin].
    destruct (IH _ _ _ E2) as [IHa IHb].
    rewrite patches_of_app. split.
    + intros j [<-|Hj] Hd.
      * specialize (Hne Hd).
        destruct (patches_of c1) as [|r rs] eqn:Ep; [congruence|].
        exists r, (rs_ticks st). split; [now left|].
        apply (Hin r). now left.
      * destruct (IHa j Hj Hd) as (r & n & Hr & He).
        exists r, n. split; [apply in_or_app; now right | exact He].
    + intros r Hr. apply in_app_or in Hr as [Hr|Hr].
      * destruct (Hin r Hr) as (Hd & Hc & He).
        split; [exact Hc|]. exists job, (rs_ticks st). split; [now left | now split].
      * destruct (IHb r Hr) as (Hc & j & n & Hj & Hd & He).
        split; [exact Hc|]. exists j, n. split; [now right | now split].
Qed.

Lemma draw_mcdram_colours nodes : forall i cmds,
  draw_mcdram i nodes = Ok cmds ->
  Forall (fun r => is_job_colour (facecolor r) = false) (patches_of cmds).
Proof.
  induction nodes as [|[k v] nodes IH]; intros i cmds H; simpl in H.
  - injection H as <-. constructor.
  - destruct (mcdram v); [|discriminate].
    destruct (draw_mcdram (i + 1) nodes) as [rest|] eqn:E; cbn [bind] in H;
      [|discriminate].
    injection H as <-. simpl. constructor; [reflexivity | now apply (IH (i + 1))].
Qed.

Lemma draw_knl_colours nodes jobs cmds :
  draw_knl nodes jobs = Ok cmds ->
  Forall (fun r => is_job_colour (facecolor r) = false) (patches_of cmds).
Proof.
  unfold draw_knl. destruct jobs as [|job0 jobs].
  - intros H. injection H as <-. constructor.
  - destruct (Str.index "knl" (queue job0)) as [i|]; cbn [bind]; [|discriminate].
    destruct (0 <=? i).
    + destruct (draw_mcdram 0 nodes) as [shades|] eqn:E; cbn [bind]; [|discriminate].
      intros H. injection H as <-. rewrite patches_of_app. simpl.
      rewrite List.app_nil_r. now apply draw_mcdram_colours in E.
    + intros H. injection H as <-. constructor.
Qed.

Lemma draw_offline_colours nodes : forall i,
  Forall (fun r => is_job_colour (facecolor r) = false)
         (patches_of (draw_offline i nodes)).
Proof.
  induction nodes as [|[k v] nodes IH]; intros i; simpl; [constructor|].
  rewrite patches_of_app. apply Forall_app. split; [|apply IH].
  destruct (Str.contains "offline" (state v)); simpl; repeat constructor.
Qed.

Lemma filter_none {A} (p : A -> bool) l :
  Forall (fun x => p x = false) l -> filter p l = [].
Proof.
  induction 1 as [|x l Hx _ IH]; simpl; [reflexivity | now rewrite Hx].
Qed.

Lemma filter_all {A} (p : A -> bool) l :
  (forall x, In x l -> p x = true) -> filter p l = l.
Proof.
  induction l as [|x l IH]; intros H; simpl; [reflexivity|].
  rewrite (H x) by now left. f_equal. apply IH. intros y Hy. apply H. now right.
Qed.

(** C6, as the code has it.  Whenever the renderer completes, the
    rectangles in the colours of jobs are those of the jobs with a non-empty
    node list and a state other than H: each such job has one at least, and
    each such rectangle is the one of such a job.  It spans, in hours, from
    the start time less a reading of the clock to the start time plus the
    walltime less the next reading, and its left edge is negative for a job
    that started before the reading. *)
Theorem job_rectangles_drawn env ticks pbsnodes jobs cmds :
  plot_job_schedule env ticks pbsnodes jobs = Ok cmds ->
  (forall job, In job jobs -> drawable job ->
     exists r n, In r (job_rectangles cmds) /\ extent env job n r) /\
  (forall r, In r (job_rectangles cmds) ->
     exists job n,
       In job jobs /\ drawable job /\ extent env job n r /\
       (start_time job < now env n -> (rx r < 0)%Q)).
Proof.
  unfold plot_job_schedule.
  set (nodes := get_compute_node_list env pbsnodes).
  destruct (draw_knl nodes jobs) as [knl|] eqn:Ek; cbn [bind]; [|discriminate].
  destruct (draw_jobs env (map fst nodes) _ _ _ jobs) as [[drawn st']|] eqn:Ed;
    cbn [bind]; [|discriminate].
  intros H. injection H as <-.
  destruct (draw_jobs_spec _ _ _ _ _ _ _ _ Ed) as [Ha Hb].
  match goal with
  | |- context [job_rectangles ?c] =>
      assert (E : job_rectangles c = patches_of drawn)
  end.
  { unfold job_rectangles. cbn [fst app patches_of].
    rewrite !patches_of_app, !filter_app. cbn [patches_of filter].
    rewrite (filter_none _ _ (draw_knl_colours _ _ _ Ek)).
    rewrite (filter_none _ _ (draw_offline_colours nodes 0)).
    rewrite List.app_nil_r. cbn [app].
    apply filter_all. intros r Hr. now apply Hb. }
  rewrite E. split; [exact Ha|].
  intros r Hr. destruct (Hb r Hr) as (_ & job & n & Hj & Hd & He).
  exists job, n. repeat split; try assumption; try apply Hd; try apply He.
  intros Hlt. destruct He as [He _]. rewrite He.
  apply hours_of_us_neg. lia.
Qed.

(* ================================================================== *)
(** * The claims on the inputs of the examples *)

Section Examples.
Import Str.

(** ** C2 *)

Lemma queue_filter_witness :
  exists t, job_from_qstat env_ex 0 block_other_queue = Ok (None, t).
Proof.
  destruct (queue_filter env_ex 0 block_other_queue "Job Id: 9.srv"
              ["    Job_Name = relax"; "    eligible_time = 00:00:10"]
              "workq" ["    Resource_List.nodect = many"] "    project = p")
    as (t & H & _).
  - vm_compute. reflexivity.
  - vm_compute. reflexivity.
  - constructor; [|constructor; [|constructor]];
      apply (no_raise_by_kind env_ex _ (init_pstate env_ex 0 ""));
      intros e; vm_compute; discriminate.
  - exists t. exact H.
Defined.

Lemma queue_filter_counterexample :
  split LF block_bad_nodect =
    ["Job Id: 8.srv"; var_line "Resource_List.nodect" "many";
     var_line "queue" "workq"; "    project = p"] /\
  find (NODE_TYPE env_ex) "workq" = -1 /\
  job_from_qstat env_ex 0 block_bad_nodect = Raise ValueError /\
  ~ (exists t, job_from_qstat env_ex 0 block_bad_nodect = Ok (None, t)).
Proof.
  split; [vm_compute; reflexivity|].
  split; [vm_compute; reflexivity|].
  split; [vm_compute; reflexivity|].
  intros [t H]. vm_compute in H. discriminate.
Qed.

(** ** C3 *)

Lemma node_names_spec_witness :
  node_names "(nodeA:ncpus=2)+(nodeB:ncpus=4)"
  = spec_node_names "(nodeA:ncpus=2)+(nodeB:ncpus=4)".
Proof.
  apply (proj1 (proj2 (node_names_spec "(nodeA:ncpus=2)+(nodeB:ncpus=4)"))).
  - change (split "+" "(nodeA:ncpus=2)+(nodeB:ncpus=4)")
      with ["(nodeA:ncpus=2)"; "(nodeB:ncpus=4)"].
    constructor; [split; reflexivity|].
    constructor; [split; reflexivity|].
    constructor.
  - right. vm_compute. discriminate.
Defined.

Lemma node_names_counterexample :
  split "+" "n1(:ncpus=2" = ["n1(:ncpus=2"] /\
  before_first ":" "n1(:ncpus=2" = "n1(" /\
  spec_node_names "n1(:ncpus=2" = ["n1("] /\
  node_names "n1(:ncpus=2" = ["n1"] /\
  node_names "n1(:ncpus=2" <> spec_node_names "n1(:ncpus=2".
Proof.
  repeat split; try (vm_compute; reflexivity).
  vm_compute. discriminate.
Qed.

(** ** C4 *)

Lemma exec_vnode_precedence_witness :
  (exists j t, job_from_qstat env_ex 0 block_running = Ok (Some j, t) /\
               exec_vnode j = ["n1"; "n2"]) /\
  (exists j t, job_from_qstat env_ex 0 block_estimated = Ok (Some j, t) /\
               exec_vnode j = ["n3"]).
Proof.
  split.
  - eexists. eexists. split; [vm_compute; reflexivity|].
    transitivity (node_names
      ("(n1:ncpus=2)+(n2:" ++
       continuation ["	ncpus=2)"; "    Resource_List.nodect = 2";
                     "    Resource_List.walltime = 01:00:00";
                     "    stime = never"; "    eligible_time = 00:00:10";
                     "    estimated.start_time = Mon Jan  1 12:00:00 2018"]));
      [|vm_compute; reflexivity].
    apply (proj1 (exec_vnode_precedence env_ex 0 block_running "Job Id: 12.srv"
             ["    Job_Name = relax"; "    Job_Owner = alice@login1";
              "    job_state = R"; "    queue = xfuaknl";
              "    estimated.exec_vnode = (n9:ncpus=1)"]
             "exec_vnode" "(n1:ncpus=2)+(n2:"
             ["	ncpus=2)"; "    Resource_List.nodect = 2";
              "    Resource_List.walltime = 01:00:00";
              "    stime = never"; "    eligible_time = 00:00:10";
              "    estimated.start_time = Mon Jan  1 12:00:00 2018"]
             "    project = p" _ 1%nat
             ltac:(vm_compute; reflexivity) ltac:(vm_compute; reflexivity))).
    + reflexivity.
    + repeat constructor.
  - eexists. eexists. split; [vm_compute; reflexivity|].
    transitivity (node_names
      ("(n3:ncpus=1)" ++
       continuation ["    estimated.start_time = Mon Jan  1 12:00:00 2018"]));
      [|vm_compute; reflexivity].
    apply (proj2 (exec_vnode_precedence env_ex 0 block_estimated "Job Id: a:b:c"
             ["    queue = xfuaknl"]
             "estimated.exec_vnode" "(n3:ncpus=1)"
             ["    estimated.start_time = Mon Jan  1 12:00:00 2018"]
             "    project = p" _ 0%nat
             ltac:(vm_compute; reflexivity) ltac:(vm_compute; reflexivity))).
    + reflexivity.
    + repeat constructor.
    + repeat constructor.
Defined.

Lemma exec_vnode_last_line_counterexample :
  split LF block_vnode_last =
    ["Job Id: 7.srv"; var_line "estimated.exec_vnode" "(n1:ncpus=1)";
     var_line "exec_vnode" "(n2:ncpus=1)"] /\
  node_names "(n2:ncpus=1)" = ["n2"] /\
  exists j t, job_from_qstat env_ex 0 block_vnode_last = Ok (Some j, t) /\
              exec_vnode j = ["n1"] /\
              exec_vnode j <> node_names "(n2:ncpus=1)".
Proof.
  split; [vm_compute; reflexivity|].
  split; [vm_compute; reflexivity|].
  eexists. eexists. split; [vm_compute; reflexivity|].
  split; [reflexivity | vm_compute; discriminate].
Qed.

(** ** C5 *)

Lemma ranges_maximal_runs_witness :
  ranges [10; 3; 2; 9; 7; 4] = [[2; 3; 4]; [7]; [9; 10]] /\
  List.concat (ranges [10; 3; 2; 9; 7; 4]) = sorted [10; 3; 2; 9; 7; 4] /\
  separated (ranges [10; 3; 2; 9; 7; 4]) /\
  exists cmds,
    draw_ranges (job_ex "alice" "R" [] T_10h) 0 1 (Dark2 1 1)
                (ranges [10; 3; 2; 9; 7; 4]) = Ok cmds /\
    patches_of cmds =
      [MkRect 0 2 (1 - 0) 3 (Dark2 1 1) None;
       MkRect 0 7 (1 - 0) 1 (Dark2 1 1) None;
       MkRect 0 9 (1 - 0) 2 (Dark2 1 1) None].
Proof.
  assert (Hnd : NoDup [10; 3; 2; 9; 7; 4]).
  { repeat constructor; simpl; intuition discriminate. }
  destruct (ranges_maximal_runs [10; 3; 2; 9; 7; 4] Hnd)
    as (_ & Hc & _ & Hs & _ & Hd & _).
  split; [vm_compute; reflexivity|]. split; [exact Hc|]. split; [exact Hs|].
  destruct (Hd (job_ex "alice" "R" [] T_10h) 0%Q 1%Q (Dark2 1 1))
    as (cmds & E & Hp).
  - left. exists "12.srv". reflexivity.
  - exists cmds. split; [exact E|]. rewrite Hp. reflexivity.
Defined.

(** C5 as stated fails for a job whose id is a list: the rows 0, 1, 3 have
    the runs (0,1) and (3,3), and no rectangle is drawn for them, in the
    loop of the runs and in the renderer as a whole. *)
Lemma wide_run_list_id_counterexample :
  NoDup [0; 1; 3] /\
  ranges [0; 1; 3] = [[0; 1]; [3]] /\
  draw_ranges (MkJob (IdList ["Job Id"; " a"; "b"; "c"]) "relax" "R" "alice"
                     "xfuaknl" 2 (MkTimedelta 0 3600 0) T_10h
                     ["n1"; "n2"] T_10h)
              0 1 (Dark2 1 1) (ranges [0; 1; 3])
  = Raise AttributeError /\
  plot_job_schedule env_ex 0 nodes_ex
    [MkJob (IdList ["Job Id"; " a"; "b"; "c"]) "relax" "R" "alice"
           "xfuaknl" 2 (MkTimedelta 0 3600 0) T_10h ["n1"; "n2"] T_10h]
  = Raise AttributeError.
Proof.
  split; [repeat constructor; simpl; intuition discriminate|].
  split; [vm_compute; reflexivity|].
  split; vm_compute; reflexivity.
Qed.

(** ** C7 *)

Lemma knl_check_raises_witness :
  plot_job_schedule env_xfua 0 nodes_xfua
    [MkJob (IdStr "12.srv") "relax" "R" "alice" "xfua" 0
           (MkTimedelta 0 3600 0) (T_10h - 2) ["n1"] (T_10h - 1)]
  = Raise ValueError /\
  main env_xfua qstat_xfua nodes_xfua = Raise ValueError.
Proof.
  split; [apply knl_check_raises|]; vm_compute; reflexivity.
Defined.

(** ** C6 *)

Lemma job_rectangles_drawn_witness :
  exists cmds,
    plot_job_schedule env_ex 0 nodes_ex jobs_ex = Ok cmds /\
    List.length (job_rectangles cmds) = 2%nat /\
    (forall job, In job jobs_ex -> drawable job ->
       exists r n, In r (job_rectangles cmds) /\ extent env_ex job n r).
Proof.
  eexists. split; [vm_compute; reflexivity|].
  split; [vm_compute; reflexivity|].
  apply (job_rectangles_drawn env_ex 0 nodes_ex jobs_ex).
  vm_compute. reflexivity.
Defined.

Lemma missing_node_counterexample :
  drawable (job_ex "bob" "R" ["n7"] T_12h) /\
  Str.contains "knl" (queue (job_ex "bob" "R" ["n7"] T_12h)) = true /\
  plot_job_schedule env_ex 0 nodes_ex [job_ex "bob" "R" ["n7"] T_12h]
  = Raise ValueError.
Proof.
  split; [split; discriminate|].
  split; vm_compute; reflexivity.
Qed.

(** ** C8 *)


(** ** C9 *)

Lemma job_id_of_first_line_witness :
  (exists j t, job_from_qstat env_ex 0 block_running = Ok (Some j, t) /\
               job_id j = IdStr "12.srv") /\
  (exists j t, job_from_qstat env_ex 0 block_estimated = Ok (Some j, t) /\
               job_id j = IdList ["Job Id"; " a"; "b"; "c"]).
Proof.
  split.
  - eexists. eexists. split; [vm_compute; reflexivity|].
    apply (proj1 (job_id_of_first_line env_ex 0 block_running _ 1%nat
                    ltac:(vm_compute; reflexivity))).
    vm_compute. reflexivity.
  - eexists. eexists. split; [vm_compute; reflexivity|].
    apply (proj2 (job_id_of_first_line env_ex 0 block_estimated _ 0%nat
                    ltac:(vm_compute; reflexivity))).
    vm_compute. discriminate.
Defined.

(** ** C10 *)

Lemma estimated_start_after_stime_witness :
  exists j t, job_from_qstat env_ex 0 block_running = Ok (Some j, t) /\
              start_time j = Job_start_time env_ex.
Proof.
  eexists. eexists. split; [vm_compute; reflexivity|].
  destruct (estimated_start_after_stime env_ex 0 block_running "Job Id: 12.srv"
              ["    Job_Name = relax"; "    Job_Owner = alice@login1";
               "    job_state = R"; "    queue = xfuaknl";
               "    estimated.exec_vnode = (n9:ncpus=1)";
               "    exec_vnode = (n1:ncpus=2)+(n2:"; "	ncpus=2)";
               "    Resource_List.nodect = 2";
               "    Resource_List.walltime = 01:00:00"]
              "never"
              ["    eligible_time = 00:00:10";
               "    estimated.start_time = Mon Jan  1 12:00:00 2018"]
              "    project = p" _ 1%nat
              ltac:(vm_compute; reflexivity) ltac:(vm_compute; reflexivity))
    as (st_pre & _ & Hs & Hd).
  - repeat constructor.
  - rewrite Hs. change (strptime_c env_ex "never") with (@None datetime).
    apply Hd; repeat constructor.
Defined.

Lemma estimated_before_stime_counterexample :
  split LF block_estimated_first =
    ["Job Id: 10.srv";
     var_line "estimated.start_time" "Mon Jan  1 12:00:00 2018";
     var_line "stime" "never"; "    project = p"] /\
  strptime_c env_ex "never" = None /\
  strptime_c env_ex "Mon Jan  1 12:00:00 2018" = Some T_12h /\
  exists j t, job_from_qstat env_ex 0 block_estimated_first = Ok (Some j, t) /\
              start_time j = T_12h /\
              start_time j <> Job_start_time env_ex.
Proof.
  split; [vm_compute; reflexivity|].
  split; [vm_compute; reflexivity|].
  split; [vm_compute; reflexivity|].
  eexists. eexists. split; [vm_compute; reflexivity|].
  split; [vm_compute; reflexivity | vm_compute; discriminate].
Qed.

End Examples.

(* ================================================================== *)
(** * More of the parser: where its results come from *)

Section ParserMore.
Import Str StrFacts.

Ltac branches :=
  unfold parse_var;
  repeat match goal with
    | |- context [if String.eqb ?n ?c then _ else _] =>
        destruct (String.eqb n c) eqn:?
    | |- context [if (String.eqb ?n ?c && _)%bool then _ else _] =>
        destruct (String.eqb n c) eqn:?; cbn [andb]
    | |- context [if negb ?b then _ else _] => destruct b eqn:?; cbn [negb]
    | |- context [if ?a =? ?b then _ else _] => destruct (a =? b) eqn:?
    | |- context [match int_of_str ?r with _ => _ end] =>
        destruct (int_of_str r) eqn:?
    | |- context [match interval ?r with _ => _ end] =>
        destruct (interval r) eqn:?
    | |- context [match strptime_c ?e ?r with _ => _ end] =>
        destruct (strptime_c e r) eqn:?
    end.

(** ** Where [None] and the exceptions come from *)

Lemma parse_var_return env name v st t :
  parse_var env name v st = ReturnNone t ->
  name = "queue" /\ find (NODE_TYPE env) v = -1.
Proof.
  branches; intros H; try discriminate.
  split; [now apply String.eqb_eq | now apply Z.eqb_eq].
Qed.

Lemma parse_var_throw env name v st e :
  parse_var env name v st = Throw e ->
  (name = "Resource_List.nodect" /\ int_of_str v = Raise e) \/
  (name = "Resource_List.walltime" /\ interval v = Raise e).
Proof.
  branches; intros H; try discriminate; injection H as H; subst.
  - left. split; [now apply String.eqb_eq | congruence].
  - right. split; [now apply String.eqb_eq | congruence].
Qed.

Lemma parse_lines_return env ls : forall st t,
  parse_lines env st ls = ReturnNone t ->
  exists line v, In line ls /\ var_of line = Some ("queue", v) /\
                 find (NODE_TYPE env) v = -1.
Proof.
  induction ls as [|l ls IH]; intros st t H; simpl in H; [discriminate|].
  destruct (parse_line env st l) as [st1|t1|e] eqn:E; try discriminate.
  - destruct (IH _ _ H) as (line & v & Hin & Hv & Hf).
    exists line, v. split; [now right | now split].
  - rewrite parse_line_var_of in E.
    destruct (var_of l) as [[n v]|] eqn:Ev.
    + apply parse_var_return in E as [-> Hf].
      exists l, v. split; [now left | now split].
    + destruct (st_in_vnode st); discriminate.
Qed.

Lemma parse_lines_throw env ls : forall st e,
  parse_lines env st ls = Throw e ->
  exists line v, In line ls /\
    ((var_of line = Some ("Resource_List.nodect", v) /\
      int_of_str v = Raise e) \/
     (var_of line = Some ("Resource_List.walltime", v) /\
      interval v = Raise e)).
Proof.
  induction ls as [|l ls IH]; intros st e H; simpl in H; [discriminate|].
  destruct (parse_line env st l) as [st1|t1|e1] eqn:E; try discriminate.
  - destruct (IH _ _ H) as (line & v & Hin & Hv).
    exists line, v. split; [now right | assumption].
  - injection H as <-. rewrite parse_line_var_of in E.
    destruct (var_of l) as [[n v]|] eqn:Ev.
    + exists l, v. split; [now left|].
      apply parse_var_throw in E as [[-> Hi]|[-> Hi]]; [left | right];
        now split.
    + destruct (st_in_vnode st); discriminate.
Qed.

(** X4.  When [job_from_qstat] returns [None], one of the lines it reads
    (all but the first and the last of the block) is a queue attribute whose
    value has no NODE_TYPE in it: the sentinel comes from nothing else. *)
Theorem none_only_from_queue env ticks job_info t :
  job_from_qstat env ticks job_info = Ok (None, t) ->
  exists line v,
    In line (slice_1_m1 (split LF job_info)) /\
    var_of line = Some ("queue", v) /\
    find (NODE_TYPE env) v = -1.
Proof.
  unfold job_from_qstat.
  destruct (parse_lines env _ _) as [st|t1|e] eqn:E; try discriminate.
  intros _. now apply parse_lines_return in E.
Qed.

(** X5.  When [job_from_qstat] raises, one of the lines it reads is a
    Resource_List.nodect attribute on whose value [int] raises that
    exception, or a Resource_List.walltime attribute on whose value
    [interval] raises it: no other line makes the parser fail. *)
Theorem raise_only_from_numbers env ticks job_info e :
  job_from_qstat env ticks job_info = Raise e ->
  exists line v,
    In line (slice_1_m1 (split LF job_info)) /\
    ((var_of line = Some ("Resource_List.nodect", v) /\
      int_of_str v = Raise e) \/
     (var_of line = Some ("Resource_List.walltime", v) /\
      interval v = Raise e)).
Proof.
  unfold job_from_qstat.
  destruct (parse_lines env _ _) as [st|t1|e1] eqn:E; try discriminate.
  intros H. injection H as <-. now apply parse_lines_throw in E.
Qed.

(** ** The queue of a job that is returned *)

Lemma parse_var_queue env name v st st' :
  parse_var env name v st = Next st' ->
  queue (st_job st') = queue (st_job st) \/
  find (NODE_TYPE env) (queue (st_job st')) <> -1.
Proof.
  branches; intros H; try discriminate; injection H as <-;
    try (now left).
  right. cbn. now apply Z.eqb_neq.
Qed.

Lemma parse_lines_queue env ls : forall st st',
  parse_lines env st ls = Next st' ->
  queue (st_job st') = queue (st_job st) \/
  find (NODE_TYPE env) (queue (st_job st')) <> -1.
Proof.
  induction ls as [|l ls IH]; intros st st' H; simpl in H.
  - injection H as <-. now left.
  - destruct (parse_line env st l) as [st1| |] eqn:E; try discriminate.
    destruct (IH _ _ H) as [Hq|Hq]; [|now right].
    rewrite Hq. rewrite parse_line_var_of in E.
    destruct (var_of l) as [[n v]|].
    + apply parse_var_queue in E. exact E.
    + left. destruct (st_in_vnode st); now injection E as <-.
Qed.

(** X6.  The queue of a job that [job_from_qstat] returns is the empty
    default or has NODE_TYPE in it: no job of another queue is returned. *)
Theorem returned_job_queue env ticks job_info j t :
  job_from_qstat env ticks job_info = Ok (Some j, t) ->
  queue j = "" \/ find (NODE_TYPE env) (queue j) <> -1.
Proof.
  unfold job_from_qstat.
  destruct (parse_lines env _ _) as [st|t1|e] eqn:E; try discriminate.
  intros H. injection H as <- <-. cbn [queue set_exec_vnode].
  apply parse_lines_queue in E as [E|E]; [left | now right].
  rewrite E. reflexivity.
Qed.

(** ** The last line of a block *)

Lemma slice_last {A} (ls : list A) (x : A) :
  slice_1_m1 (ls ++ [x]) = tl ls.
Proof.
  unfold slice_1_m1. destruct ls as [|a ls]; [reflexivity|].
  simpl. apply removelast_last.
Qed.

(** X7.  Two blocks whose lines are the same but for the last one give
    the same result: the last line of a block is never read. *)
Theorem last_line_not_read env ticks b1 b2 ls x y :
  ls <> [] ->
  split LF b1 = ls ++ [x] ->
  split LF b2 = ls ++ [y] ->
  job_from_qstat env ticks b1 = job_from_qstat env ticks b2.
Proof.
  intros Hls H1 H2. unfold job_from_qstat, init_pstate, parse_job_id.
  rewrite H1, H2, !slice_last.
  destruct ls as [|h ls]; [congruence | reflexivity].
Qed.

(** X8.  When none of the lines read is an exec_vnode or an
    estimated.exec_vnode attribute, the job returned has the empty node list:
    continuation lines alone assign no node. *)
Theorem no_vnode_attribute env ticks job_info j t :
  job_from_qstat env ticks job_info = Ok (Some j, t) ->
  Forall (fun l => names_var "exec_vnode" l = false)
         (slice_1_m1 (split LF job_info)) ->
  Forall (fun l => names_var "estimated.exec_vnode" l = false)
         (slice_1_m1 (split LF job_info)) ->
  exec_vnode j = [].
Proof.
  unfold job_from_qstat.
  destruct (parse_lines env _ _) as [st|t1|e] eqn:E; try discriminate.
  intros H Ha He. injection H as <- <-. cbn [exec_vnode set_exec_vnode].
  destruct (accumulate _ _ _ _ E Ha) as [Hacc _]; [now right|].
  rewrite Hacc. reflexivity.
Qed.

(** ** An empty node type *)

Lemma find_empty s : find "" s = 0.
Proof. unfold find. now destruct s. Qed.

(** X10.  With the empty string as node type nothing is filtered:
    [job_from_qstat] returns [None] for no block, and the inventory is the
    whole list of nodes. *)
Theorem empty_node_type env :
  NODE_TYPE env = "" ->
  (forall ticks job_info t,
      job_from_qstat env ticks job_info <> Ok (None, t)) /\
  (forall nodes, get_compute_node_list env nodes = nodes).
Proof.
  intros Hn. split.
  - intros ticks job_info t H.
    apply none_only_from_queue in H as (line & v & _ & _ & Hf).
    rewrite Hn, find_empty in Hf. discriminate.
  - intros nodes. unfold get_compute_node_list.
    induction nodes as [|kv nodes IH]; [reflexivity|].
    simpl. rewrite Hn, find_empty. simpl. now rewrite <- Hn, IH.
Qed.

(** ** The fields an attribute sets *)

Lemma field_frame {A : Type} (f : Job -> A) (X : string) env :
  (forall n v st st',
      parse_var env n v st = Next st' -> String.eqb n X = false ->
      f (st_job st') = f (st_job st)) ->
  forall ls st st',
    parse_lines env st ls = Next st' ->
    Forall (fun l => names_var X l = false) ls ->
    f (st_job st') = f (st_job st).
Proof.
  intros Hvar. induction ls as [|l ls IH]; intros st st' H Hno; simpl in H.
  - now injection H as <-.
  - destruct (parse_line env st l) as [st1| |] eqn:E; try discriminate.
    apply Forall_cons_iff in Hno as [Hl Hno].
    rewrite (IH _ _ H Hno). rewrite parse_line_var_of in E.
    destruct (var_of l) as [[n v]|] eqn:Ev.
    + apply (Hvar _ _ _ _ E). unfold names_var in Hl. now rewrite Ev in Hl.
    + destruct (st_in_vnode st); now injection E as <-.
Qed.

Lemma frame_job_name env n v st st' :
  parse_var env n v st = Next st' -> String.eqb n "Job_Name" = false ->
  job_name (st_job st') = job_name (st_job st).
Proof. branches; intros H Hn; try discriminate; now injection H as <-. Qed.

Lemma frame_job_owner env n v st st' :
  parse_var env n v st = Next st' -> String.eqb n "Job_Owner" = false ->
  job_owner (st_job st') = job_owner (st_job st).
Proof. branches; intros H Hn; try discriminate; now injection H as <-. Qed.

Lemma frame_job_state env n v st st' :
  parse_var env n v st = Next st' -> String.eqb n "job_state" = false ->
  job_state (st_job st') = job_state (st_job st).
Proof. branches; intros H Hn; try discriminate; now injection H as <-. Qed.

Lemma frame_queue env n v st st' :
  parse_var env n v st = Next st' -> String.eqb n "queue" = false ->
  queue (st_job st') = queue (st_job st).
Proof. branches; intros H Hn; try discriminate; now injection H as <-. Qed.

Lemma frame_nodect env n v st st' :
  parse_var env n v st = Next st' ->
  String.eqb n "Resource_List.nodect" = false ->
  nodect (st_job st') = nodect (st_job st).
Proof. branches; intros H Hn; try discriminate; now injection H as <-. Qed.

Lemma frame_walltime env n v st st' :
  parse_var env n v st = Next st' ->
  String.eqb n "Resource_List.walltime" = false ->
  walltime (st_job st') = walltime (st_job st).
Proof. branches; intros H Hn; try discriminate; now injection H as <-. Qed.

(** X9.  Among the lines read, the last Job_Name, Job_Owner, job_state,
    queue, Resource_List.nodect or Resource_List.walltime attribute gives the
    field of the job returned: the value itself, for the owner the value
    before its first at sign, for the node count what [int] returns, for the
    walltime what [interval] returns. *)
Theorem attribute_sets_field env ticks job_info header pre name v post last j t :
  split LF job_info = header :: pre ++ var_line name v :: post ++ [last] ->
  job_from_qstat env ticks job_info = Ok (Some j, t) ->
  Forall (fun l => names_var name l = false) post ->
  (name = "Job_Name" -> job_name j = v) /\
  (name = "Job_Owner" -> job_owner j = before_first "@" v) /\
  (name = "job_state" -> job_state j = v) /\
  (name = "queue" -> queue j = v) /\
  (name = "Resource_List.nodect" -> int_of_str v = Ok (nodect j)) /\
  (name = "Resource_List.walltime" -> interval v = Ok (walltime j)).
Proof.
  intros Hsplit Hjob Hpost. unfold job_from_qstat in Hjob. rewrite Hsplit in Hjob.
  replace (header :: pre ++ var_line name v :: post ++ [last])
    with (header :: (pre ++ var_line name v :: post) ++ [last]) in Hjob
    by (now rewrite <- List.app_assoc).
  rewrite slice_block, parse_lines_app in Hjob.
  destruct (parse_lines env (init_pstate env ticks job_info) pre)
    as [st1| |] eqn:Epre; try discriminate.
  cbn [parse_lines] in Hjob.
  destruct (parse_line env st1 (var_line name v)) as [st2| |] eqn:El;
    try discriminate.
  destruct (parse_lines env st2 post) as [st3| |] eqn:Epost; try discriminate.
  injection Hjob as <- <-.
  cbn [job_name job_owner job_state queue nodect walltime set_exec_vnode].
  rewrite parse_line_var_of in El.
  repeat split; intros ->; rewrite var_of_var_line in El by reflexivity;
    unfold parse_var in El; cbn in El.
  - injection El as <-.
    now rewrite (field_frame job_name _ env (frame_job_name env) _ _ _ Epost Hpost).
  - injection El as <-.
    rewrite (field_frame job_owner _ env (frame_job_owner env) _ _ _ Epost Hpost).
    cbn. change "@" with (sep1 "@"). apply hd_split_sep1.
  - injection El as <-.
    now rewrite (field_frame job_state _ env (frame_job_state env) _ _ _ Epost Hpost).
  - destruct (find (NODE_TYPE env) v =? -1); [discriminate|].
    injection El as <-.
    now rewrite (field_frame queue _ env (frame_queue env) _ _ _ Epost Hpost).
  - destruct (int_of_str v) as [n|]; [|discriminate].
    injection El as <-.
    now rewrite (field_frame nodect _ env (frame_nodect env) _ _ _ Epost Hpost).
  - destruct (interval v) as [d|]; [|discriminate].
    injection El as <-.
    now rewrite (field_frame walltime _ env (frame_walltime env) _ _ _ Epost Hpost).
Qed.

(** ** The list of the jobs *)

Lemma parse_lines_kind env ls : forall st1 st2,
  kind_of (parse_lines env st1 ls) = kind_of (parse_lines env st2 ls).
Proof.
  induction ls as [|l ls IH]; intros st1 st2; simpl; [reflexivity|].
  pose proof (parse_line_kind env l st1 st2) as H.
  destruct (parse_line env st1 l), (parse_line env st2 l);
    try discriminate; auto.
Qed.

Lemma job_from_qstat_raise env t1 t2 b e :
  job_from_qstat env t1 b = Raise e -> job_from_qstat env t2 b = Raise e.
Proof.
  unfold job_from_qstat.
  pose proof (parse_lines_kind env (slice_1_m1 (split LF b))
                (init_pstate env t1 b) (init_pstate env t2 b)) as H.
  destruct (parse_lines env (init_pstate env t1 b) _),
           (parse_lines env (init_pstate env t2 b) _);
    try discriminate; intros E; try discriminate.
  simpl in H. congruence.
Qed.

Lemma jobs_of_blocks_length env blocks : forall ticks rs t,
  jobs_of_blocks env ticks blocks = Ok (rs, t) ->
  List.length rs = List.length blocks.
Proof.
  induction blocks as [|b blocks IH]; intros ticks rs t H; simpl in H.
  - now injection H as <- <-.
  - destruct (job_from_qstat env ticks b) as [[r t1]|]; cbn [bind] in H;
      [|discriminate].
    cbn [snd fst] in H.
    destruct (jobs_of_blocks env t1 blocks) as [[rs1 t2]|] eqn:E;
      cbn [bind] in H; [|discriminate].
    injection H as <- <-. simpl. now rewrite (IH _ _ _ E).
Qed.

Lemma jobs_of_blocks_raise env blocks b e t0 :
  In b blocks -> job_from_qstat env t0 b = Raise e ->
  forall ticks, exists e', jobs_of_blocks env ticks blocks = Raise e'.
Proof.
  induction blocks as [|b1 blocks IH]; intros Hin Hr ticks; [destruct Hin|].
  simpl. destruct (job_from_qstat env ticks b1) as [[r t1]|e1] eqn:E1;
    cbn [bind]; [|eauto].
  destruct Hin as [->|Hin].
  - rewrite (job_from_qstat_raise _ _ ticks _ _ Hr) in E1. discriminate.
  - cbn [snd]. destruct (IH Hin Hr t1) as [e' ->]. cbn [bind]. eauto.
Qed.

(** X11.  [get_xfua_jobs] returns one entry for each block of the
    output, one at least, or raises: as soon as the parser raises on one of
    the blocks, no list is returned at all. *)
Theorem get_xfua_jobs_all_or_nothing env ticks qstat_out :
  (forall rs t, get_xfua_jobs env ticks qstat_out = Ok (rs, t) ->
     List.length rs = List.length (split (LF ++ LF) qstat_out) /\
     rs <> []) /\
  (forall b e t0,
     In b (split (LF ++ LF) qstat_out) ->
     job_from_qstat env t0 b = Raise e ->
     exists e', get_xfua_jobs env ticks qstat_out = Raise e').
Proof.
  unfold get_xfua_jobs. split.
  - intros rs t H. pose proof (jobs_of_blocks_length _ _ _ _ _ H) as Hl.
    split; [exact Hl|]. intros ->.
    pose proof (split_not_nil (LF ++ LF) qstat_out) as Hn.
    destruct (split (LF ++ LF) qstat_out); [congruence | discriminate].
  - intros b e t0 Hin Hr. now apply (jobs_of_blocks_raise env _ b e t0).
Qed.

End ParserMore.

(* ================================================================== *)
(** * More of [interval]: what it accepts *)

Section IntervalMore.
Import Str Re StrFacts ReFacts.

(** ** What a match tells about the text *)

Lemma star_sound {R} cls s (k : string -> option R) x :
  star cls s k = Some x ->
  exists ds rest, s = (ds ++ rest)%string /\ all_chars cls ds = true /\
                  k rest = Some x.
Proof.
  induction s as [|a s IH]; simpl; intros H.
  - exists "", "". auto.
  - destruct (cls a) eqn:Ha.
    + destruct (star cls s k) as [y|] eqn:E.
      * injection H as ->. destruct (IH eq_refl) as (ds & rest & -> & Hd & Hk).
        exists (String a ds), rest. simpl. now rewrite Ha, Hd.
      * exists "", (String a s). auto.
    + exists "", (String a s). auto.
Qed.

Lemma group_plus_sound {R} g cls s caps
      (k : string -> captures -> option R) x :
  rmatch (Group g (Plus cls)) s caps k = Some x ->
  exists ds rest, ds <> "" /\ s = (ds ++ rest)%string /\
                  all_chars cls ds = true /\
                  k rest ((g, ds) :: caps) = Some x.
Proof.
  rewrite rmatch_group. cbn [rmatch].
  destruct s as [|a s]; [discriminate|].
  destruct (cls a) eqn:Ha; [|discriminate].
  intros H. apply star_sound in H as (ds & rest & -> & Hd & Hk).
  exists (String a ds), rest. split; [discriminate|]. split; [reflexivity|].
  split; [simpl; now rewrite Ha, Hd|].
  change (String a (ds ++ rest)) with (String a ds ++ rest)%string in Hk.
  now rewrite take_consumed in Hk.
Qed.

Lemma startswith_split l s :
  startswith l s = true -> s = (l ++ drop (String.length l) s)%string.
Proof.
  revert s. induction l as [|a l IH]; intros s H; simpl in *.
  - now destruct s.
  - destruct s as [|b s]; [discriminate|].
    apply andb_prop in H as [Hab Hl]. apply Ascii.eqb_eq in Hab. subst b.
    now rewrite <- (IH _ Hl).
Qed.

Lemma lit_sound {R} l s caps (k : string -> captures -> option R) x :
  rmatch (Lit l) s caps k = Some x ->
  exists rest, s = (l ++ rest)%string /\ k rest caps = Some x.
Proof.
  cbn [rmatch]. destruct (startswith l s) eqn:E; [|discriminate].
  intros H. exists (drop (String.length l) s).
  split; [now apply startswith_split | exact H].
Qed.

Lemma hms_sound {R} s caps (k : string -> captures -> option R) x :
  rmatch HMS_RE s caps k = Some x ->
  exists HH MM SS rest,
    s = (HH ++ ":" ++ MM ++ ":" ++ SS ++ rest)%string /\
    digit_seq HH /\ digit_seq MM /\ digit_seq SS /\
    k rest ((Named "seconds", SS) :: (Named "minutes", MM)
              :: (Named "hours", HH) :: caps) = Some x.
Proof.
  unfold HMS_RE. rewrite rmatch_seq. intros H.
  apply group_plus_sound in H as (HH & r1 & H0 & -> & H1 & H).
  rewrite rmatch_seq in H. apply lit_sound in H as (r2 & -> & H).
  rewrite rmatch_seq in H.
  apply group_plus_sound in H as (MM & r3 & M0 & -> & M1 & H).
  rewrite rmatch_seq in H. apply lit_sound in H as (r4 & -> & H).
  apply group_plus_sound in H as (SS & rest & S0 & -> & S1 & H).
  exists HH, MM, SS, rest. repeat split; auto.
Qed.

(** The dictionary of a match of [INTERVAL_RE]. *)
Lemma re_match_interval_sound s m :
  re_match INTERVAL_RE s = Some m ->
  exists D HH MM SS tail,
    s = (time_span D HH MM SS ++ tail)%string /\
    match D with Some d => digit_seq d | None => True end /\
    digit_seq HH /\ digit_seq MM /\ digit_seq SS /\
    groupdict INTERVAL_RE m (VInt 0) =
      [("days", match D with Some d => VStr d | None => VInt 0 end);
       ("hours", VStr HH); ("minutes", VStr MM); ("seconds", VStr SS)].
Proof.
  unfold re_match, INTERVAL_RE. fold HMS_RE.
  rewrite rmatch_seq, rmatch_opt.
  match goal with
  | |- context [match ?a with Some _ => _ | None => _ end] =>
      destruct a as [y|] eqn:E
  end.
  - intros H. injection H as ->.
    rewrite rmatch_group, rmatch_seq in E.
    apply group_plus_sound in E as (d & r1 & D0 & -> & D1 & E).
    apply lit_sound in E as (r2 & -> & E).
    apply hms_sound in E as (HH & MM & SS & tail & -> & HHH & HMM & HSS & E).
    injection E as <-.
    exists (Some d), HH, MM, SS, tail. unfold time_span.
    split; [now rewrite !app_assoc|].
    repeat split; auto; first [apply HHH | apply HMM | apply HSS].
  - intros H.
    apply hms_sound in H as (HH & MM & SS & tail & -> & HHH & HMM & HSS & H).
    injection H as <-.
    exists None, HH, MM, SS, tail. unfold time_span.
    split; [now rewrite !app_assoc|].
    repeat split; auto; first [apply HHH | apply HMM | apply HSS].
Qed.

(** X1.  [interval] returns a duration for no other text than one that
    begins with a time span "D days, HH:MM:SS" or "HH:MM:SS" of digit
    sequences, and the duration is the one of that span: never a negative
    one, never one with microseconds, never more than 999999999 days. *)
Theorem interval_sound s td :
  interval s = Ok td ->
  exists D HH MM SS tail,
    s = (time_span D HH MM SS ++ tail)%string /\
    match D with Some d => digit_seq d | None => True end /\
    digit_seq HH /\ digit_seq MM /\ digit_seq SS /\
    td = timedelta_of_seconds (span_seconds D HH MM SS) /\
    0 <= td_days td <= MAX_DELTA_DAYS /\
    0 <= td_seconds td < 86400 /\ td_microseconds td = 0.
Proof.
  intros H.
  destruct (re_match INTERVAL_RE s) as [m|] eqn:Em.
  2:{ unfold interval in H. rewrite Em in H. discriminate. }
  destruct (re_match_interval_sound s m Em)
    as (D & HH & MM & SS & tail & Hs & HD & HHH & HMM & HSS & Hg).
  rewrite (interval_of_dict s m D HH MM SS Em Hg HD HHH HMM HSS) in H.
  pose proof (span_seconds_nonneg D HH MM SS HD HHH HMM HSS) as Hn.
  destruct (span_digits_ok D HH MM SS); [|discriminate].
  destruct (Z.ltb_spec (span_seconds D HH MM SS) (86400 * 1000000000))
    as [Hlt|]; [|discriminate].
  injection H as <-.
  exists D, HH, MM, SS, tail.
  split; [assumption|]. split; [assumption|]. split; [assumption|].
  split; [assumption|]. split; [assumption|]. split; [reflexivity|].
  cbn. repeat split.
  - now apply Z.div_pos.
  - unfold MAX_DELTA_DAYS.
    assert (span_seconds D HH MM SS / 86400 < 1000000000)
      by (apply Z.div_lt_upper_bound; lia). lia.
  - apply Z.mod_pos_bound. lia.
  - apply Z.mod_pos_bound. lia.
Qed.

(** X2.  For a text that does not begin with a digit, the empty text and
    a text with a leading space among them, the pattern does not match and
    [interval] raises [AttributeError]. *)
Theorem interval_rejects s :
  head_out isdigit s = true -> interval s = Raise AttributeError.
Proof.
  intros H. unfold interval.
  destruct (re_match INTERVAL_RE s) as [m|] eqn:Em; [|reflexivity].
  apply re_match_interval_sound in Em
    as (D & HH & MM & SS & tail & -> & HD & [H0 H1] & _).
  exfalso. destruct D as [d|]; unfold time_span in H.
  - destruct HD as [D0 D1]. destruct d as [|a d]; [congruence|].
    simpl in H, D1. apply andb_prop in D1 as [Ha _]. now rewrite Ha in H.
  - destruct HH as [|a HH]; [congruence|].
    simpl in H, H1. apply andb_prop in H1 as [Ha _]. now rewrite Ha in H.
Qed.

(** ** Text after the seconds *)

Lemma star_none_run {R} cls ds rest (k : string -> option R) :
  all_chars cls ds = true -> head_out cls rest = true ->
  (forall n, k (drop n ds ++ rest)%string = None) ->
  star cls (ds ++ rest) k = None.
Proof.
  intros Hds Hrest Hk. induction ds as [|a ds IH]; simpl in *.
  - specialize (Hk O). simpl in Hk.
    destruct rest as [|c rest]; [exact Hk|].
    simpl in *. apply negb_true_iff in Hrest. now rewrite Hrest.
  - apply andb_prop in Hds as [Ha Hds]. rewrite Ha.
    rewrite (IH Hds (fun n => Hk (S n))). exact (Hk O).
Qed.

Lemma days_group_fails_hms {R} HH rest caps
      (k : string -> captures -> option R) :
  digit_seq HH ->
  rmatch (Group (Num 1)
            (Seq (Group (Named "days") (Plus isdigit)) (Lit " days, ")))
         (HH ++ ":" ++ rest) caps k = None.
Proof.
  intros [H0 H1]. rewrite rmatch_group, rmatch_seq, rmatch_group.
  destruct HH as [|a hs]; [congruence|].
  simpl in H1. apply andb_prop in H1 as [Ha Hs].
  cbn [rmatch append]. rewrite Ha.
  apply star_none_run; [assumption | reflexivity|].
  intros n. pose proof (drop_all_chars isdigit n hs Hs) as Hd.
  destruct (drop n hs) as [|b t]; [reflexivity|].
  simpl in Hd. apply andb_prop in Hd as [Hb _].
  destruct (isdigit_cases b Hb) as (_ & _ & _ & Hsp & _).
  cbn [append startswith]. rewrite Ascii.eqb_sym, Hsp. reflexivity.
Qed.

Lemma hms_complete {R} HH MM SS tail caps
      (k : string -> captures -> option R) x :
  digit_seq HH -> digit_seq MM -> digit_seq SS ->
  head_out isdigit tail = true ->
  k tail ((Named "seconds", SS) :: (Named "minutes", MM)
            :: (Named "hours", HH) :: caps) = Some x ->
  rmatch HMS_RE (HH ++ ":" ++ MM ++ ":" ++ SS ++ tail) caps k = Some x.
Proof.
  intros [HH0 HH1] [MM0 MM1] [SS0 SS1] Ht Hk. unfold HMS_RE.
  rewrite rmatch_seq. apply group_plus_longest; auto.
  rewrite rmatch_seq.
  change (":" ++ MM ++ ":" ++ SS ++ tail)%string
    with (":" ++ (MM ++ ":" ++ SS ++ tail))%string.
  rewrite lit_app.
  rewrite rmatch_seq. apply group_plus_longest; auto.
  rewrite rmatch_seq.
  change (":" ++ SS ++ tail)%string with (":" ++ (SS ++ tail))%string.
  rewrite lit_app.
  apply group_plus_longest; auto.
Qed.

Lemma re_match_interval_tail (D : option string) (HH MM SS tail : string) :
  match D with Some d => digit_seq d | None => True end ->
  digit_seq HH -> digit_seq MM -> digit_seq SS ->
  head_out isdigit tail = true ->
  exists m,
    re_match INTERVAL_RE (time_span D HH MM SS ++ tail) = Some m /\
    groupdict INTERVAL_RE m (VInt 0) =
      [("days", match D with Some d => VStr d | None => VInt 0 end);
       ("hours", VStr HH); ("minutes", VStr MM); ("seconds", VStr SS)].
Proof.
  intros HD HHH HMM HSS Ht. unfold re_match, INTERVAL_RE. fold HMS_RE.
  rewrite rmatch_seq, rmatch_opt.
  destruct D as [d|]; unfold time_span.
  - destruct HD as [Hd0 Hd1].
    replace ((d ++ " days, " ++ HH ++ ":" ++ MM ++ ":" ++ SS) ++ tail)%string
      with (d ++ " days, " ++ (HH ++ ":" ++ MM ++ ":" ++ SS ++ tail))%string
      by (now rewrite !app_assoc).
    eexists. split.
    + rewrite rmatch_group, rmatch_seq.
      erewrite group_plus_longest;
        [reflexivity | assumption | assumption | reflexivity |].
      rewrite lit_app.
      apply (hms_complete HH MM SS tail _
               (fun rest caps => Some (MkMatch _ caps)) _ HHH HMM HSS Ht).
      reflexivity.
    + reflexivity.
  - replace ((HH ++ ":" ++ MM ++ ":" ++ SS) ++ tail)%string
      with (HH ++ ":" ++ (MM ++ ":" ++ SS ++ tail))%string
      by (now rewrite !app_assoc).
    rewrite days_group_fails_hms by assumption.
    eexists. split.
    + apply (hms_complete HH MM SS tail _
               (fun rest caps => Some (MkMatch _ caps)) _ HHH HMM HSS Ht).
      reflexivity.
    + reflexivity.
Qed.

(** X3.  The pattern is matched at the start of the text only: what
    follows the seconds of a time span, if it does not go on with a digit,
    changes nothing of what [interval] returns or raises. *)
Theorem interval_ignores_tail (D : option string) (HH MM SS tail : string) :
  match D with Some d => digit_seq d | None => True end ->
  digit_seq HH -> digit_seq MM -> digit_seq SS ->
  head_out isdigit tail = true ->
  interval (time_span D HH MM SS ++ tail) = interval (time_span D HH MM SS).
Proof.
  intros HD HHH HMM HSS Ht.
  destruct (re_match_interval_tail D HH MM SS tail HD HHH HMM HSS Ht)
    as (m & Hm & Hg).
  rewrite (interval_of_dict _ m D HH MM SS Hm Hg HD HHH HMM HSS).
  now rewrite interval_on_time_span.
Qed.

End IntervalMore.

(* ================================================================== *)
(** * More of the renderer: rows, labels, background and colours *)

Section RendererMore.
Import Str StrFacts.

(** ** The rows of the inventory *)

Lemma list_index_ok name keys : forall i,
  list_index name keys = Ok i ->
  0 <= i /\ nth_error keys (Z.to_nat i) = Some name.
Proof.
  induction keys as [|k keys IH]; intros i H; simpl in H; [discriminate|].
  destruct (String.eqb_spec k name) as [->|Hne].
  - injection H as <-. now split.
  - destruct (list_index name keys) as [j|]; cbn [bind] in H; [|discriminate].
    injection H as <-. destruct (IH j eq_refl) as [Hj Hn].
    split; [lia|]. replace (Z.to_nat (j + 1)) with (S (Z.to_nat j)) by lia.
    exact Hn.
Qed.

Lemma list_index_raise name keys e :
  list_index name keys = Raise e -> e = ValueError /\ ~ In name keys.
Proof.
  induction keys as [|k keys IH]; simpl; intros H.
  - injection H as <-. now split.
  - destruct (String.eqb_spec k name) as [->|Hne]; [discriminate|].
    destruct (list_index name keys) as [j|e']; cbn [bind] in H; [discriminate|].
    injection H as <-. destruct (IH eq_refl) as [-> Hn].
    split; [reflexivity|]. intros [Hk|Hin]; [congruence | contradiction].
Qed.

Lemma list_index_in name keys :
  In name keys -> exists i, list_index name keys = Ok i.
Proof.
  intros Hin. destruct (list_index name keys) as [i|e] eqn:E; [eauto|].
  apply list_index_raise in E as [_ Hn]. contradiction.
Qed.

Lemma map_result_ok {A B} (f : A -> result B) l : forall l',
  map_result f l = Ok l' ->
  (forall x, In x l -> exists y, In y l' /\ f x = Ok y) /\
  (forall y, In y l' -> exists x, In x l /\ f x = Ok y).
Proof.
  induction l as [|a l IH]; intros l' H; simpl in H.
  - injection H as <-. split; intros ? [].
  - destruct (f a) as [b|] eqn:Ea; cbn [bind] in H; [|discriminate].
    destruct (map_result f l) as [bs|] eqn:El; cbn [bind] in H; [|discriminate].
    injection H as <-. destruct (IH _ eq_refl) as [IH1 IH2]. split.
    + intros x [<-|Hx].
      * exists b. split; [now left | exact Ea].
      * destruct (IH1 x Hx) as (y & Hy & Hf). exists y. split; [now right | exact Hf].
    + intros y [<-|Hy].
      * exists a. split; [now left | exact Ea].
      * destruct (IH2 y Hy) as (x & Hx & Hf). exists x. split; [now right | exact Hf].
Qed.

Lemma map_result_raise {A B} (f : A -> result B) l e :
  map_result f l = Raise e -> exists x, In x l /\ f x = Raise e.
Proof.
  induction l as [|a l IH]; simpl; intros H; [discriminate|].
  destruct (f a) as [b|e1] eqn:Ea; cbn [bind] in H.
  - destruct (map_result f l) as [bs|e2] eqn:El; cbn [bind] in H; [discriminate|].
    injection H as <-. destruct (IH eq_refl) as (x & Hx & Hf).
    exists x. split; [now right | exact Hf].
  - injection H as <-. exists a. split; [now left | exact Ea].
Qed.

(** ** The groups of any list of rows *)

Lemma groupby_contiguous s : forall c,
  let rs := map snd (groupby (with_count c s)) in
  List.concat rs = s /\ Forall (fun r => r <> [] /\ contiguous r) rs.
Proof.
  induction s as [|a s IH]; intros c; [simpl; auto|].
  specialize (IH (c + 1)). cbv zeta in IH.
  destruct s as [|b s].
  - simpl. split; [reflexivity|]. constructor; [|constructor].
    split; [discriminate | exact I].
  - destruct (groupby_head b s (c + 1)) as (g & gs & E).
    change (with_count c (a :: b :: s))
      with ((a - c, a) :: with_count (c + 1) (b :: s)).
    cbn [groupby]. cbv zeta. rewrite E in *.
    cbn [map snd List.concat] in IH. destruct IH as (Hc & Hf).
    apply Forall_cons_iff in Hf as [[_ Hg] Hf].
    destruct (Z.eqb_spec (a - c) (b - (c + 1))) as [Heq|Hne];
      cbn [map snd List.concat].
    + split.
      * cbn [app]. f_equal. exact Hc.
      * constructor; [|exact Hf]. split; [discriminate|].
        cbn [contiguous]. split; [lia | exact Hg].
    + split.
      * cbn [app]. f_equal. exact Hc.
      * constructor; [split; [discriminate | exact I]|].
        constructor; [|exact Hf]. split; [discriminate | exact Hg].
Qed.

Lemma contiguous_range r :
  r <> [] -> contiguous r ->
  forall z, In z r <-> hd 0 r <= z <= last r 0.
Proof.
  induction r as [|a r IH]; intros Hne Hc z; [congruence|].
  destruct r as [|b r].
  - simpl. split; [intros [<-|[]]; lia | intros H; left; lia].
  - cbn [contiguous] in Hc. destruct Hc as [Hb Hc].
    pose proof (IH ltac:(discriminate) Hc) as IH'.
    change (last (a :: b :: r) 0) with (last (b :: r) 0).
    cbn [hd] in *.
    assert (Hle : b <= last (b :: r) 0).
    { apply (IH' b). now left. }
    split.
    + intros [<-|Hin]; [lia|]. apply IH' in Hin. lia.
    + intros H. destruct (Z.eq_dec z a) as [->|Hza]; [now left|].
      right. apply IH'. lia.
Qed.

(** X13.  The groups of the renderer are runs of consecutive rows for
    any list of rows, repeated rows included; end to end they are the sorted
    list, and a row is one of the rows given exactly when a group spans
    it. *)
Theorem ranges_of_any_rows (i_nodes : list Z) :
  List.concat (ranges i_nodes) = sorted i_nodes /\
  Forall (fun r => r <> [] /\ contiguous r) (ranges i_nodes) /\
  (forall z, In z i_nodes <->
             exists r, In r (ranges i_nodes) /\ hd 0 r <= z <= last r 0).
Proof.
  destruct (groupby_contiguous (sorted i_nodes) 0) as [Hc Hf].
  fold (ranges i_nodes) in Hc, Hf.
  split; [exact Hc|]. split; [exact Hf|].
  intros z. rewrite Forall_forall in Hf. split.
  - intros Hz. apply (Permutation_in _ (sorted_perm i_nodes)) in Hz.
    rewrite <- Hc in Hz. apply in_concat in Hz as (r & Hr & Hzr).
    exists r. split; [exact Hr|].
    destruct (Hf r Hr) as [Hne Hcr]. now apply contiguous_range.
  - intros (r & Hr & Hz). destruct (Hf r Hr) as [Hne Hcr].
    apply (contiguous_range r Hne Hcr) in Hz.
    apply (Permutation_in _ (Permutation_sym (sorted_perm i_nodes))).
    rewrite <- Hc. apply in_concat. eauto.
Qed.

(** X14.  When the body of the loop completes for a job it draws, every
    node of the job is a key of the inventory whose position a rectangle of
    the job spans, and every row a rectangle spans is the position of a node
    of the job. *)
Theorem draw_job_rows env keys nu no st job cmds st' :
  draw_job env keys nu no st job = Ok (cmds, st') ->
  drawable job ->
  (forall name, In name (exec_vnode job) ->
     exists r row, In r (patches_of cmds) /\
                   nth_error keys (Z.to_nat row) = Some name /\
                   ry r <= row < ry r + rh r) /\
  (forall r row, In r (patches_of cmds) -> ry r <= row < ry r + rh r ->
     0 <= row /\
     exists name, In name (exec_vnode job) /\
                  nth_error keys (Z.to_nat row) = Some name).
Proof.
  unfold draw_job. intros H Hd.
  rewrite (proj2 (drawable_iff job) Hd) in H.
  destruct (map_result _ (exec_vnode job)) as [i_nodes|] eqn:Ei;
    cbn [bind] in H; [|discriminate].
  destruct (datetime_add (start_time job) (walltime job)) as [tend_at|];
    cbn [bind] in H; [|discriminate].
  destruct (datetime_sub (start_time job) (now env (rs_ticks st))) as [d1|];
    cbn [bind] in H; [|discriminate].
  destruct (datetime_sub tend_at (now env (S (rs_ticks st)))) as [d2|];
    cbn [bind] in H; [|discriminate].
  destruct (if String.eqb (job_owner job) (username env)
            then (Dark2 (i_user st + 1) nu, i_user st + 1, i_other st)
            else (Paired (i_other st + 1) no, i_user st, i_other st + 1))
    as [[color_i iu] io].
  destruct (draw_ranges job (hours d1) (hours d2) color_i (ranges i_nodes))
    as [cs|] eqn:Ed; cbn [bind] in H; [|discriminate].
  injection H as <- <-.
  rewrite (draw_ranges_patches _ _ _ _ _ _ Ed).
  destruct (map_result_ok _ _ _ Ei) as [Hfw Hbw].
  destruct (ranges_of_any_rows i_nodes) as (_ & _ & Hrows).
  split.
  - intros name Hn. destruct (Hfw name Hn) as (row & Hrow & Hidx).
    apply Hrows in Hrow as (run & Hrun & Hz).
    exists (rect_of_run (hours d1) (hours d2) color_i run), row.
    split; [now apply in_map|].
    split; [now apply list_index_ok in Hidx|].
    unfold rect_of_run. cbn [ry rh]. lia.
  - intros r row Hr Hrow. apply in_map_iff in Hr as (run & <- & Hrun).
    unfold rect_of_run in Hrow. cbn [ry rh] in Hrow.
    assert (Hin : In row i_nodes).
    { apply Hrows. exists run. split; [exact Hrun | lia]. }
    destruct (Hbw row Hin) as (name & Hn & Hidx).
    apply list_index_ok in Hidx as [H0 Hnth].
    split; [exact H0|]. exists name. now split.
Qed.

(** ** What the renderer needs to complete *)

Lemma draw_job_nodes env keys nu no st job cmds st' :
  draw_job env keys nu no st job = Ok (cmds, st') ->
  drawable job ->
  forall name, In name (exec_vnode job) -> In name keys.
Proof.
  intros H Hd name Hn.
  destruct (draw_job_rows _ _ _ _ _ _ _ _ H Hd) as [Hfw _].
  destruct (Hfw name Hn) as (r & row & _ & Hnth & _).
  now apply nth_error_In in Hnth.
Qed.

Lemma draw_jobs_nodes env keys nu no jobs : forall st cmds st',
  draw_jobs env keys nu no st jobs = Ok (cmds, st') ->
  forall job, In job jobs -> drawable job ->
  forall name, In name (exec_vnode job) -> In name keys.
Proof.
  induction jobs as [|j jobs IH]; intros st cmds st' H job Hin; [destruct Hin|].
  simpl in H.
  destruct (draw_job env keys nu no st j) as [[c1 st1]|] eqn:E1;
    cbn [bind] in H; [|discriminate].
  cbn [snd fst] in H.
  destruct (draw_jobs env keys nu no st1 jobs) as [[c2 st2]|] eqn:E2;
    cbn [bind] in H; [|discriminate].
  destruct Hin as [<-|Hin].
  - now apply (draw_job_nodes _ _ _ _ _ _ _ _ E1).
  - now apply (IH _ _ _ E2).
Qed.

Lemma draw_mcdram_ok nodes : forall i cmds,
  draw_mcdram i nodes = Ok cmds ->
  forall k v, In (k, v) nodes -> mcdram v <> None.
Proof.
  induction nodes as [|[k0 v0] nodes IH]; intros i cmds H k v Hin; [destruct Hin|].
  simpl in H. destruct (mcdram v0) as [m|] eqn:Em; [|discriminate].
  destruct (draw_mcdram (i + 1) nodes) as [rest|] eqn:E; cbn [bind] in H;
    [|discriminate].
  destruct Hin as [Heq|Hin].
  - injection Heq as <- <-. congruence.
  - now apply (IH _ _ E k v).
Qed.

Lemma find_not_minus_one sub s : find sub s <> -1 -> contains sub s = true.
Proof.
  unfold contains, find. intros H. apply Z.leb_le.
  destruct (find_from_range sub s 0); [lia | contradiction | assumption].
Qed.

(** X15.  The renderer completes only if every node of every job it
    draws is in the filtered inventory and, with a job at least, the queue of
    the first job has knl in it and every node of the inventory has a memory
    mode. *)
Theorem renderer_needs env ticks pbsnodes jobs cmds :
  plot_job_schedule env ticks pbsnodes jobs = Ok cmds ->
  let nodes := get_compute_node_list env pbsnodes in
  (forall job name, In job jobs -> drawable job ->
     In name (exec_vnode job) -> In name (map fst nodes)) /\
  (forall job0 jobs', jobs = job0 :: jobs' ->
     contains "knl" (queue job0) = true /\
     forall k v, In (k, v) nodes -> mcdram v <> None).
Proof.
  unfold plot_job_schedule. intros H.
  set (nodes := get_compute_node_list env pbsnodes) in *.
  destruct (draw_knl nodes jobs) as [knl|] eqn:Ek; cbn [bind] in H;
    [|discriminate].
  destruct (draw_jobs env (map fst nodes) _ _ _ jobs) as [[drawn st']|] eqn:Ed;
    cbn [bind] in H; [|discriminate].
  split.
  - intros job name Hj Hdr Hn. now apply (draw_jobs_nodes _ _ _ _ _ _ _ _ Ed job).
  - intros job0 jobs' ->. unfold draw_knl, index in Ek.
    destruct (Z.eqb_spec (find "knl" (queue job0)) (-1)) as [|Hne];
      [discriminate|].
    cbn [bind] in Ek.
    pose proof (find_not_minus_one _ _ Hne) as Hc.
    split; [exact Hc|].
    unfold contains in Hc. rewrite Hc in Ek.
    destruct (draw_mcdram 0 nodes) as [shades|] eqn:Em; cbn [bind] in Ek;
      [|discriminate].
    now apply (draw_mcdram_ok _ _ _ Em).
Qed.

End RendererMore.

Section BackgroundMore.
Import Str StrFacts.

(** ** The labels *)

Lemma labels_of_app a b : labels_of (a ++ b) = labels_of a ++ labels_of b.
Proof.
  induction a as [|[] a IH]; simpl; try assumption; [reflexivity | now rewrite IH].
Qed.

(** X16.  For a job whose id is a string, drawing the runs never
    raises and labels each run of more than one row, and no other, with the
    id up to its first dot, the name and the owner.  For a job whose id
    is a list, drawing raises [AttributeError] as soon as a run has more than
    one row, and otherwise draws without a label. *)
Theorem draw_ranges_labels job tstart tend color_i rs :
  (forall id, job_id job = IdStr id ->
     exists cmds,
       draw_ranges job tstart tend color_i rs = Ok cmds /\
       labels_of cmds = map (fun _ => label_text id job) (filter wide rs)) /\
  (forall l, job_id job = IdList l ->
     (existsb wide rs = true ->
      draw_ranges job tstart tend color_i rs = Raise AttributeError) /\
     (existsb wide rs = false ->
      exists cmds, draw_ranges job tstart tend color_i rs = Ok cmds /\
                   labels_of cmds = [])).
Proof.
  split.
  - intros id Hid. induction rs as [|r rs (cmds & IH & IHl)]; simpl.
    + eexists. split; reflexivity.
    + rewrite IH, Hid. unfold wide at 1. fold (wide r).
      unfold wide. destruct (0 <? last r 0 - hd 0 r); cbn [bind short_id].
      * eexists. split; [reflexivity|]. simpl. rewrite IHl. f_equal.
        unfold label_text. change "." with (sep1 ".").
        now rewrite hd_split_sep1.
      * eexists. split; [reflexivity|]. simpl. exact IHl.
  - intros l Hl. induction rs as [|r rs [IH1 IH2]]; simpl.
    + split; [discriminate|]. intros _. eexists. split; reflexivity.
    + rewrite Hl. unfold wide at 1 3.
      destruct (0 <? last r 0 - hd 0 r); cbn [bind short_id orb].
      * split; [reflexivity | discriminate].
      * split.
        -- intros H. now rewrite (IH1 H).
        -- intros H. destruct (IH2 H) as (cmds & -> & Hc).
           eexists. split; [reflexivity|]. simpl. exact Hc.
Qed.

(** ** The background of the rows *)

Lemma draw_mcdram_rows nodes : forall i0 cmds,
  draw_mcdram i0 nodes = Ok cmds ->
  labels_of cmds = [] /\
  forall r, In r (patches_of cmds) <->
    exists i k v m,
      nth_error nodes i = Some (k, v) /\ mcdram v = Some m /\
      r = MkRect 0 (i0 + Z.of_nat i) (inject_Z 24) 1
                 (Pastel1 (mcdram_shade m)) (Some (mcdram_hatch m)).
Proof.
  induction nodes as [|[k0 v0] nodes IH]; intros i0 cmds H; simpl in H.
  - injection H as <-. split; [reflexivity|]. intros r. split; [intros []|].
    intros (i & k & v & m & Hn & _). destruct i; discriminate.
  - destruct (mcdram v0) as [m0|] eqn:Em; [|discriminate].
    destruct (draw_mcdram (i0 + 1) nodes) as [rest|] eqn:E; cbn [bind] in H;
      [|discriminate].
    injection H as <-. destruct (IH _ _ E) as [IHl IHr].
    split; [exact IHl|]. intros r. cbn [patches_of In]. rewrite IHr. split.
    + intros [<-|(i & k & v & m & Hn & Hm & ->)].
      * exists O, k0, v0, m0. split; [reflexivity|]. split; [exact Em|].
        unfold mcdram_shade, mcdram_hatch. rewrite Z.add_0_r.
        now destruct (String.eqb m0 "flat").
      * exists (S i), k, v, m. split; [exact Hn|]. split; [exact Hm|].
        f_equal. lia.
    + intros (i & k & v & m & Hn & Hm & ->). destruct i as [|i].
      * left. injection Hn as <- <-. rewrite Em in Hm. injection Hm as <-.
        unfold mcdram_shade, mcdram_hatch. rewrite Z.add_0_r.
        now destruct (String.eqb m0 "flat").
      * right. exists i, k, v, m. split; [exact Hn|]. split; [exact Hm|].
        f_equal. lia.
Qed.

Lemma draw_offline_rows nodes : forall i0,
  labels_of (draw_offline i0 nodes) = [] /\
  forall r, In r (patches_of (draw_offline i0 nodes)) <->
    exists i k v,
      nth_error nodes i = Some (k, v) /\
      contains "offline" (state v) = true /\
      r = MkRect 0 (i0 + Z.of_nat i) (inject_Z 24) 1 Grey None.
Proof.
  induction nodes as [|[k0 v0] nodes IH]; intros i0; simpl.
  - split; [reflexivity|]. intros r. split; [intros []|].
    intros (i & k & v & Hn & _). destruct i; discriminate.
  - destruct (IH (i0 + 1)) as [IHl IHr].
    rewrite labels_of_app, patches_of_app, IHl. split.
    + now destruct (contains "offline" (state v0)).
    + intros r. rewrite in_app_iff, IHr. split.
      * intros [Hr|(i & k & v & Hn & Hc & ->)].
        -- destruct (contains "offline" (state v0)) eqn:Ec; [|destruct Hr].
           destruct Hr as [<-|[]]. exists O, k0, v0.
           split; [reflexivity|]. split; [exact Ec|]. now rewrite Z.add_0_r.
        -- exists (S i), k, v. split; [exact Hn|]. split; [exact Hc|].
           f_equal. lia.
      * intros (i & k & v & Hn & Hc & ->). destruct i as [|i].
        -- left. injection Hn as <- <-. rewrite Hc. left.
           now rewrite Z.add_0_r.
        -- right. exists i, k, v. split; [exact Hn|]. split; [exact Hc|].
           f_equal. lia.
Qed.

Lemma draw_knl_rows nodes jobs cmds :
  draw_knl nodes jobs = Ok cmds ->
  (jobs = [] -> patches_of cmds = []) /\
  (jobs <> [] ->
   forall r, In r (patches_of cmds) <->
     exists i k v m,
       nth_error nodes i = Some (k, v) /\ mcdram v = Some m /\
       r = row_rect i (Pastel1 (mcdram_shade m)) (Some (mcdram_hatch m))).
Proof.
  unfold draw_knl. destruct jobs as [|job0 jobs].
  - intros H. injection H as <-. split; [reflexivity | congruence].
  - destruct (index "knl" (queue job0)) as [i|] eqn:Ei; cbn [bind];
      [|discriminate].
    assert (Hi : (0 <=? i) = true).
    { unfold index in Ei.
      destruct (Z.eqb_spec (find "knl" (queue job0)) (-1)); [discriminate|].
      injection Ei as <-. apply Z.leb_le. unfold find.
      destruct (find_from_range "knl" (queue job0) 0); [lia | | assumption].
      unfold find in n. contradiction. }
    rewrite Hi.
    destruct (draw_mcdram 0 nodes) as [shades|] eqn:E; cbn [bind];
      [|discriminate].
    intros H. injection H as <-. split; [discriminate|]. intros _ r.
    rewrite patches_of_app. simpl. rewrite List.app_nil_r.
    destruct (draw_mcdram_rows _ _ _ E) as [_ Hr]. rewrite Hr.
    unfold row_rect. now setoid_rewrite Z.add_0_l.
Qed.

(** X17.  In a rendering that completes, the grey rectangles are the
    rows of the nodes of the inventory whose state has offline in it; with a
    job at least, the shaded rectangles are the rows of all the nodes,
    colour 1 and a backslash hatch for the flat memory mode, colour 0 and a
    slash hatch for any other; without jobs the offline rows are all that
    is drawn. *)
Theorem background_rows env ticks pbsnodes jobs cmds :
  plot_job_schedule env ticks pbsnodes jobs = Ok cmds ->
  let nodes := get_compute_node_list env pbsnodes in
  (forall r, In r (patches_of cmds) /\ facecolor r = Grey <->
     exists i k v,
       nth_error nodes i = Some (k, v) /\
       contains "offline" (state v) = true /\
       r = row_rect i Grey None) /\
  (jobs <> [] ->
   forall r, In r (patches_of cmds) /\ (exists c, facecolor r = Pastel1 c) <->
     exists i k v m,
       nth_error nodes i = Some (k, v) /\ mcdram v = Some m /\
       r = row_rect i (Pastel1 (mcdram_shade m)) (Some (mcdram_hatch m))) /\
  (jobs = [] -> patches_of cmds = patches_of (draw_offline 0 nodes)).
Proof.
  unfold plot_job_schedule. intros H.
  set (nodes := get_compute_node_list env pbsnodes) in *.
  destruct (draw_knl nodes jobs) as [knl|] eqn:Ek; cbn [bind] in H;
    [|discriminate].
  destruct (draw_jobs env (map fst nodes) _ _ _ jobs) as [[drawn st']|] eqn:Ed;
    cbn [bind] in H; [|discriminate].
  injection H as <-.
  destruct (draw_jobs_spec _ _ _ _ _ _ _ _ Ed) as [_ Hjobs].
  destruct (draw_knl_rows _ _ _ Ek) as [Hk0 Hk1].
  destruct (draw_offline_rows nodes 0) as [_ Hoff].
  assert (Hoff' : forall r, In r (patches_of (draw_offline 0 nodes)) <->
     exists i k v, nth_error nodes i = Some (k, v) /\
       contains "offline" (state v) = true /\ r = row_rect i Grey None).
  { intros r. rewrite Hoff. unfold row_rect. now setoid_rewrite Z.add_0_l. }
  assert (Hknl : forall r, In r (patches_of knl) ->
                           exists c, facecolor r = Pastel1 c).
  { intros r Hr. destruct jobs as [|job0 jobs'].
    - rewrite Hk0 in Hr by reflexivity. destruct Hr.
    - apply Hk1 in Hr as (i & k & v & m & _ & _ & ->); [|discriminate].
      eexists. reflexivity. }
  assert (Hp : forall r,
     In r (patches_of ([SetYlim 0 (len nodes); SetXlim 0 24] ++ knl
             ++ draw_offline 0 nodes ++ fst (drawn, st')
             ++ [TightLayout; Savefig "jobs.png" 100])) <->
     In r (patches_of knl) \/ In r (patches_of (draw_offline 0 nodes)) \/
     In r (patches_of drawn)).
  { intros r. cbn [fst app patches_of].
    rewrite !patches_of_app, !in_app_iff. cbn [patches_of In]. tauto. }
  split; [|split].
  - intros r. rewrite Hp, <- Hoff'. split.
    + intros [[Hr|[Hr|Hr]] Hg]; [| exact Hr |].
      * destruct (Hknl r Hr) as [c Hc]. congruence.
      * destruct (Hjobs r Hr) as [Hc _]. rewrite Hg in Hc. discriminate.
    + intros Hr. split; [now right; left|].
      apply Hoff' in Hr as (i & k & v & _ & _ & ->). reflexivity.
  - intros Hne r. rewrite Hp, <- (Hk1 Hne). split.
    + intros [[Hr|[Hr|Hr]] [c Hc]]; [exact Hr | |].
      * apply Hoff' in Hr as (i & k & v & _ & _ & ->). discriminate.
      * destruct (Hjobs r Hr) as [Hj _]. rewrite Hc in Hj. discriminate.
    + intros Hr. split; [now left | now apply Hknl].
  - intros ->. simpl in Ed. injection Ed as <- <-.
    rewrite (Hk0 eq_refl) in *.
    cbn [fst app patches_of]. rewrite !patches_of_app. cbn [patches_of].
    destruct knl; [|discriminate Ek].
    now rewrite List.app_nil_r.
Qed.

(** ** The colours of the jobs *)

Lemma count_jobs_cons p job jobs :
  count_jobs p (job :: jobs) =
  (if ((0 <? len (exec_vnode job)) && p job)%bool then 1 else 0)
  + count_jobs p jobs.
Proof.
  unfold count_jobs, len. simpl.
  destruct ((0 <? Z.of_nat (List.length (exec_vnode job))) && p job)%bool;
    simpl List.length; lia.
Qed.

Lemma count_jobs_nonneg p jobs : 0 <= count_jobs p jobs.
Proof. unfold count_jobs, len. lia. Qed.

Lemma draw_jobs_colours env keys nu no jobs : forall st cmds st',
  draw_jobs env keys nu no st jobs = Ok (cmds, st') ->
  0 <= i_user st -> 0 <= i_other st ->
  i_user st
    + count_jobs (fun job => String.eqb (job_owner job) (username env)) jobs
    <= nu ->
  i_other st
    + count_jobs (fun job => negb (String.eqb (job_owner job) (username env)))
                 jobs
    <= no ->
  forall r, In r (patches_of cmds) -> colour_in_range (facecolor r).
Proof.
  induction jobs as [|job jobs IH]; intros st cmds st' H Hu Ho Hnu Hno r Hr;
    simpl in H.
  - injection H as <- <-. destruct Hr.
  - rewrite count_jobs_cons in Hnu, Hno.
    pose proof (count_jobs_nonneg
      (fun job => String.eqb (job_owner job) (username env)) jobs).
    pose proof (count_jobs_nonneg
      (fun job => negb (String.eqb (job_owner job) (username env))) jobs).
    destruct (draw_job env keys nu no st job) as [[c1 st1]|] eqn:E1;
      cbn [bind] in H; [|discriminate].
    cbn [snd fst] in H.
    destruct (draw_jobs env keys nu no st1 jobs) as [[c2 st2]|] eqn:E2;
      cbn [bind] in H; [|discriminate].
    injection H as <- <-. cbn [fst] in Hr.
    rewrite patches_of_app in Hr. apply in_app_or in Hr.
    unfold draw_job in E1.
    destruct (0 <? len (exec_vnode job)) eqn:Hlen; cbn [andb] in E1.
    2:{ injection E1 as <- <-. destruct Hr as [[]|Hr].
        cbn [andb] in Hnu, Hno. apply (IH _ _ _ E2); auto; lia. }
    destruct (negb (String.eqb (job_state job) "H")).
    2:{ injection E1 as <- <-. destruct Hr as [[]|Hr].
        cbn [andb] in Hnu, Hno.
        destruct (String.eqb (job_owner job) (username env));
          cbn [negb] in Hnu, Hno; apply (IH _ _ _ E2); auto; lia. }
    destruct (map_result _ (exec_vnode job)) as [i_nodes|];
      cbn [bind] in E1; [|discriminate].
    destruct (datetime_add (start_time job) (walltime job)) as [tend_at|];
      cbn [bind] in E1; [|discriminate].
    destruct (datetime_sub (start_time job) (now env (rs_ticks st))) as [d1|];
      cbn [bind] in E1; [|discriminate].
    destruct (datetime_sub tend_at (now env (S (rs_ticks st)))) as [d2|];
      cbn [bind] in E1; [|discriminate].
    cbn [andb] in Hnu, Hno.
    destruct (String.eqb (job_owner job) (username env)); cbn [negb] in Hnu, Hno.
    + destruct (draw_ranges job (hours d1) (hours d2) _ (ranges i_nodes))
        as [cs|] eqn:Ed; cbn [bind] in E1; [|discriminate].
      injection E1 as <- <-. destruct Hr as [Hr|Hr].
      * rewrite (draw_ranges_patches _ _ _ _ _ _ Ed) in Hr.
        apply in_map_iff in Hr as (run & <- & _). cbn. lia.
      * apply (IH _ _ _ E2); cbn; auto; lia.
    + destruct (draw_ranges job (hours d1) (hours d2) _ (ranges i_nodes))
        as [cs|] eqn:Ed; cbn [bind] in E1; [|discriminate].
      injection E1 as <- <-. destruct Hr as [Hr|Hr].
      * rewrite (draw_ranges_patches _ _ _ _ _ _ Ed) in Hr.
        apply in_map_iff in Hr as (run & <- & _). cbn. lia.
      * apply (IH _ _ _ E2); cbn; auto; lia.
Qed.

(** X18.  In a rendering that completes, every rectangle of a job
    has a colour of the palette of the user or of the palette of the others,
    asked at an index between 1 and the bound of its normalisation. *)
Theorem colour_index_bounds env ticks pbsnodes jobs cmds :
  plot_job_schedule env ticks pbsnodes jobs = Ok cmds ->
  forall r, In r (job_rectangles cmds) ->
    colour_in_range (facecolor r) /\
    exists i n, facecolor r = Dark2 i n \/ facecolor r = Paired i n.
Proof.
  unfold plot_job_schedule. intros H.
  set (nodes := get_compute_node_list env pbsnodes) in *.
  destruct (draw_knl nodes jobs) as [knl|] eqn:Ek; cbn [bind] in H;
    [|discriminate].
  destruct (draw_jobs env (map fst nodes) _ _ _ jobs) as [[drawn st']|] eqn:Ed;
    cbn [bind] in H; [|discriminate].
  injection H as <-. intros r Hr.
  unfold job_rectangles in Hr. apply filter_In in Hr as [Hr Hc].
  split.
  - cbn [fst app patches_of] in Hr.
    rewrite !patches_of_app in Hr. cbn [patches_of] in Hr.
    rewrite List.app_nil_r in Hr.
    apply in_app_or in Hr as [Hr|Hr].
    { pose proof (draw_knl_colours _ _ _ Ek) as Hf.
      rewrite Forall_forall in Hf. rewrite (Hf r Hr) in Hc. discriminate. }
    apply in_app_or in Hr as [Hr|Hr].
    { pose proof (draw_offline_colours nodes 0) as Hf.
      rewrite Forall_forall in Hf. rewrite (Hf r Hr) in Hc. discriminate. }
    apply (draw_jobs_colours _ _ _ _ _ _ _ _ Ed); cbn; try lia; assumption.
  - destruct (facecolor r) as [c| |i n|i n]; try discriminate; eauto.
Qed.

(** ** Blocks with no attribute line, and an output without jobs *)

Theorem short_block env ticks job_info :
  (List.length (split LF job_info) <= 2)%nat ->
  job_from_qstat env ticks job_info
  = Ok (Some (Job_new env (parse_job_id job_info)), ticks).
Proof.
  intros H. unfold job_from_qstat.
  assert (E : slice_1_m1 (split LF job_info) = []).
  { destruct (split LF job_info) as [|a [|b [|c l]]]; try reflexivity.
    simpl in H. lia. }
  rewrite E. reflexivity.
Qed.

Lemma split_from_no_sep c sep' s :
  count_char c s = O ->
  split_from (String c sep') 0 s = [s].
Proof.
  induction s as [|a s IH]; [reflexivity|].
  simpl. destruct (Ascii.eqb a c) eqn:E; [discriminate|].
  intros H. rewrite Ascii.eqb_sym, E. cbn [andb]. now rewrite (IH H).
Qed.

(** X12.  On an output of qstat without a line feed, the empty output
    of a system without jobs first of all, [get_xfua_jobs] gives one job
    record with the defaults of the class, and the script ends with the
    [ValueError] of the test for knl: no image is written. *)
Theorem main_without_jobs env qstat_out pbsnodes :
  count_char (ascii_of_nat 10) qstat_out = O ->
  get_xfua_jobs env 0 qstat_out
  = Ok ([Some (Job_new env (parse_job_id qstat_out))], O) /\
  main env qstat_out pbsnodes = Raise ValueError.
Proof.
  intros H.
  assert (E : get_xfua_jobs env 0 qstat_out
              = Ok ([Some (Job_new env (parse_job_id qstat_out))], O)).
  { unfold get_xfua_jobs, split.
    change (LF ++ LF)%string with (String (ascii_of_nat 10) LF).
    rewrite (split_from_no_sep _ _ _ H). cbn [jobs_of_blocks].
    rewrite short_block.
    - reflexivity.
    - unfold split, LF. rewrite (split_from_no_sep _ _ _ H). simpl. lia. }
  split; [exact E|].
  unfold main. rewrite E. reflexivity.
Qed.

End BackgroundMore.

(* ================================================================== *)
(** * More of the node names *)

Section NodeNamesMore.
Import Str StrFacts.

Lemma split_pieces c s :
  Forall (fun p => count_char c p = O) (split (sep1 c) s).
Proof.
  induction s as [|a s IH]; [repeat constructor|].
  rewrite split_sep1_cons. destruct (Ascii.eqb a c) eqn:E.
  - constructor; [reflexivity | exact IH].
  - pose proof (split_not_nil (sep1 c) s) as Hn.
    destruct (split (sep1 c) s) as [|h t]; [congruence|].
    apply Forall_cons_iff in IH as [Hh Ht]. simpl.
    constructor; [|exact Ht]. simpl. now rewrite E, Hh.
Qed.

Lemma count_before_first c d s :
  (count_char c (before_first d s) <= count_char c s)%nat.
Proof.
  induction s as [|a s IH]; simpl; [lia|].
  destruct (Ascii.eqb a d); simpl; lia.
Qed.

Lemma count_before_first_self d s : count_char d (before_first d s) = O.
Proof.
  induction s as [|a s IH]; simpl; [reflexivity|].
  destruct (Ascii.eqb a d) eqn:E; simpl; [reflexivity|]. now rewrite E.
Qed.

Lemma count_lstrip c p s : (count_char c (lstrip p s) <= count_char c s)%nat.
Proof.
  induction s as [|a s IH]; simpl; [lia|].
  destruct (p a); simpl; lia.
Qed.

Lemma count_rstrip c p s : (count_char c (rstrip p s) <= count_char c s)%nat.
Proof.
  induction s as [|a s IH]; simpl; [lia|].
  destruct (rstrip p s) as [|b t]; [destruct (p a)|]; simpl in *; lia.
Qed.

Lemma head_out_lstrip p s : head_out p (lstrip p s) = true.
Proof.
  induction s as [|a s IH]; simpl; [reflexivity|].
  destruct (p a) eqn:E; [exact IH|]. simpl. now rewrite E.
Qed.

Lemma head_out_rstrip p s :
  head_out p s = true -> head_out p (rstrip p s) = true.
Proof.
  destruct s as [|a s]; [reflexivity|]. simpl. intros H.
  apply negb_true_iff in H.
  destruct (rstrip p s); [rewrite H|]; simpl; now rewrite H.
Qed.

Lemma last_out_rstrip p s : last_out p (rstrip p s) = true.
Proof.
  induction s as [|a s IH]; [reflexivity|].
  change (rstrip p (String a s))
    with (match rstrip p s with
          | EmptyString => if p a then EmptyString else String a EmptyString
          | t => String a t
          end).
  destruct (rstrip p s) as [|b t].
  - destruct (p a) eqn:E; [reflexivity|]. simpl. now rewrite E.
  - exact IH.
Qed.

Lemma strip_is_clean p s :
  head_out p (strip p s) = true /\ last_out p (strip p s) = true.
Proof.
  unfold strip. split.
  - apply head_out_rstrip, head_out_lstrip.
  - apply last_out_rstrip.
Qed.

(** X19.  No name of a node list has a colon or a plus sign in
    it, or an opening parenthesis at an end, and a node list is never the
    list of one empty name. *)
Theorem node_names_wellformed (field : string) :
  node_names field <> [""] /\
  forall n, In n (node_names field) ->
    count_char ":" n = O /\ count_char "+" n = O /\ clean n.
Proof.
  unfold node_names.
  set (names := map _ (split "+" field)).
  split.
  - destruct (Nat.eqb (List.length names) 1 && String.eqb (hd "" names) "")%bool
      eqn:Hb; [discriminate|].
    intros E. rewrite E in Hb. discriminate.
  - intros n Hn.
    assert (Hin : In n names).
    { destruct (Nat.eqb (List.length names) 1
                && String.eqb (hd "" names) "")%bool; [destruct Hn | exact Hn]. }
    unfold names in Hin. apply in_map_iff in Hin as (e & <- & He).
    change ":" with (sep1 ":"). rewrite hd_split_sep1.
    pose proof (split_pieces "+" field) as Hp. rewrite Forall_forall in Hp.
    specialize (Hp e He).
    pose proof (count_before_first "+" ":" e).
    pose proof (count_before_first_self ":" e).
    unfold strip.
    pose proof (count_rstrip ":" (is_char "(")
                  (lstrip (is_char "(") (before_first ":" e))).
    pose proof (count_lstrip ":" (is_char "(") (before_first ":" e)).
    pose proof (count_rstrip "+" (is_char "(")
                  (lstrip (is_char "(") (before_first ":" e))).
    pose proof (count_lstrip "+" (is_char "(") (before_first ":" e)).
    split; [lia|]. split; [lia|].
    apply (strip_is_clean (is_char "(")).
Qed.

End NodeNamesMore.

(* ================================================================== *)
(** * These properties on the inputs of the examples *)

Section MoreExamples.
Import Str.

Lemma interval_sound_witness :
  exists D HH MM SS tail,
    "2 days, 03:04:05 left" = (time_span D HH MM SS ++ tail)%string /\
    MkTimedelta 2 11045 0 = timedelta_of_seconds (span_seconds D HH MM SS).
Proof.
  destruct (interval_sound "2 days, 03:04:05 left" (MkTimedelta 2 11045 0)
              ltac:(vm_compute; reflexivity))
    as (D & HH & MM & SS & tail & Hs & _ & _ & _ & _ & Ht & _).
  exists D, HH, MM, SS, tail. now split.
Defined.

Lemma interval_rejects_witness :
  interval "" = Raise AttributeError /\
  interval " 01:00:00" = Raise AttributeError.
Proof. split; apply interval_rejects; reflexivity. Defined.

Lemma interval_ignores_tail_witness :
  interval "1 days, 01:00:00.5 (asked)" = interval "1 days, 01:00:00".
Proof.
  apply (interval_ignores_tail (Some "1") "01" "00" "00" ".5 (asked)");
    try (apply digit_seq_literal; reflexivity); reflexivity.
Defined.

Lemma none_only_from_queue_witness :
  exists line v,
    In line (slice_1_m1 (split LF block_other_queue)) /\
    var_of line = Some ("queue", v) /\
    find (NODE_TYPE env_ex) v = -1.
Proof.
  apply (none_only_from_queue env_ex 0 block_other_queue 1%nat).
  vm_compute. reflexivity.
Defined.

Lemma raise_only_from_numbers_witness :
  exists line v,
    In line (slice_1_m1 (split LF block_bad_walltime)) /\
    ((var_of line = Some ("Resource_List.nodect", v) /\
      int_of_str v = Raise AttributeError) \/
     (var_of line = Some ("Resource_List.walltime", v) /\
      interval v = Raise AttributeError)).
Proof.
  apply (raise_only_from_numbers env_ex 0 block_bad_walltime).
  vm_compute. reflexivity.
Defined.

Lemma returned_job_queue_witness :
  exists j t,
    job_from_qstat env_ex 0 block_running = Ok (Some j, t) /\
    (queue j = "" \/ find (NODE_TYPE env_ex) (queue j) <> -1).
Proof.
  eexists. eexists. split; [vm_compute; reflexivity|].
  apply (returned_job_queue env_ex 0 block_running _ 1%nat).
  vm_compute. reflexivity.
Defined.

Lemma last_line_not_read_witness :
  job_from_qstat env_ex 0 block_vnode_last
  = job_from_qstat env_ex 0
      (unlines ["Job Id: 7.srv"; "    estimated.exec_vnode = (n1:ncpus=1)";
                "    project = p"]).
Proof.
  apply (last_line_not_read env_ex 0 _ _
           ["Job Id: 7.srv"; "    estimated.exec_vnode = (n1:ncpus=1)"]
           "    exec_vnode = (n2:ncpus=1)" "    project = p").
  - discriminate.
  - vm_compute. reflexivity.
  - vm_compute. reflexivity.
Defined.

Lemma no_vnode_attribute_witness :
  exists j t,
    job_from_qstat env_ex 0 block_estimated_first = Ok (Some j, t) /\
    exec_vnode j = [].
Proof.
  eexists. eexists. split; [vm_compute; reflexivity|].
  apply (no_vnode_attribute env_ex 0 block_estimated_first _ 0%nat).
  - vm_compute. reflexivity.
  - change (slice_1_m1 (split LF block_estimated_first))
      with ["    estimated.start_time = Mon Jan  1 12:00:00 2018";
            "    stime = never"].
    repeat constructor.
  - change (slice_1_m1 (split LF block_estimated_first))
      with ["    estimated.start_time = Mon Jan  1 12:00:00 2018";
            "    stime = never"].
    repeat constructor.
Defined.

Lemma empty_node_type_witness :
  (forall t, job_from_qstat env_all 0 block_other_queue <> Ok (None, t)) /\
  get_compute_node_list env_all nodes_ex = nodes_ex.
Proof.
  destruct (empty_node_type env_all eq_refl) as [H1 H2].
  split; [intros t; apply H1 | apply H2].
Defined.

Lemma attribute_sets_field_witness :
  exists j t,
    job_from_qstat env_ex 0 block_running = Ok (Some j, t) /\
    job_owner j = "alice".
Proof.
  eexists. eexists. split; [vm_compute; reflexivity|].
  change "alice" with (before_first "@" "alice@login1").
  apply (attribute_sets_field env_ex 0 block_running "Job Id: 12.srv"
           ["    Job_Name = relax"] "Job_Owner" "alice@login1"
           ["    job_state = R"; "    queue = xfuaknl";
            "    estimated.exec_vnode = (n9:ncpus=1)";
            "    exec_vnode = (n1:ncpus=2)+(n2:"; "	ncpus=2)";
            "    Resource_List.nodect = 2";
            "    Resource_List.walltime = 01:00:00";
            "    stime = never"; "    eligible_time = 00:00:10";
            "    estimated.start_time = Mon Jan  1 12:00:00 2018"]
           "    project = p" _ 1%nat).
  - vm_compute. reflexivity.
  - vm_compute. reflexivity.
  - repeat constructor.
  - reflexivity.
Defined.

Lemma get_xfua_jobs_all_or_nothing_witness :
  (exists rs t, get_xfua_jobs env_xfua 0 qstat_xfua = Ok (rs, t) /\
                List.length rs = 2%nat) /\
  exists e, get_xfua_jobs env_ex 0 qstat_two = Raise e.
Proof.
  split.
  - eexists. eexists. split; [vm_compute; reflexivity|].
    rewrite (proj1 (proj1 (get_xfua_jobs_all_or_nothing env_xfua 0 qstat_xfua)
                      _ 0%nat ltac:(vm_compute; reflexivity))).
    vm_compute. reflexivity.
  - apply (proj2 (get_xfua_jobs_all_or_nothing env_ex 0 qstat_two)
             block_bad_nodect ValueError 0%nat).
    + vm_compute. right. left. reflexivity.
    + vm_compute. reflexivity.
Defined.

Lemma short_block_witness :
  job_from_qstat env_ex 3 "Job Id: 12.srv"
  = Ok (Some (Job_new env_ex (IdStr "12.srv")), 3%nat).
Proof.
  change (IdStr "12.srv") with (parse_job_id "Job Id: 12.srv").
  apply short_block. vm_compute. lia.
Defined.

Lemma main_without_jobs_witness :
  main env_xfua "" nodes_xfua = Raise ValueError.
Proof. apply (main_without_jobs env_xfua "" nodes_xfua). reflexivity. Defined.

Lemma draw_job_rows_witness :
  exists cmds st',
    draw_job env_ex ["n1"; "n2"; "n3"] 1 2 (MkRstate 0 0 0)
             (job_ex "alice" "R" ["n2"; "n1"] T_10h) = Ok (cmds, st') /\
    forall r row, In r (patches_of cmds) -> ry r <= row < ry r + rh r ->
      0 <= row /\
      exists name, In name ["n2"; "n1"] /\
                   nth_error ["n1"; "n2"; "n3"] (Z.to_nat row) = Some name.
Proof.
  eexists. eexists. split; [vm_compute; reflexivity|].
  apply (proj2 (draw_job_rows env_ex ["n1"; "n2"; "n3"] 1 2 (MkRstate 0 0 0)
                  (job_ex "alice" "R" ["n2"; "n1"] T_10h) _ _
                  ltac:(vm_compute; reflexivity)
                  ltac:(split; discriminate))).
Defined.

Lemma renderer_needs_witness :
  exists cmds,
    plot_job_schedule env_ex 0 nodes_ex jobs_ex = Ok cmds /\
    forall job name, In job jobs_ex -> drawable job ->
      In name (exec_vnode job) ->
      In name (map fst (get_compute_node_list env_ex nodes_ex)).
Proof.
  eexists. split; [vm_compute; reflexivity|].
  apply (renderer_needs env_ex 0 nodes_ex jobs_ex _
           ltac:(vm_compute; reflexivity)).
Defined.

Lemma draw_ranges_labels_witness :
  (exists cmds,
     draw_ranges (job_ex "alice" "R" [] T_10h) 0 1 Grey [[0; 1]; [3]]
     = Ok cmds /\
     labels_of cmds = ["12: relax (alice)"]) /\
  draw_ranges (MkJob (IdList ["a"; "b"; "c"]) "relax" "R" "alice" "xfuaknl" 2
                     timedelta_zero T_10h [] T_10h)
              0 1 Grey [[0; 1]; [3]]
  = Raise AttributeError.
Proof.
  split.
  - destruct (proj1 (draw_ranges_labels (job_ex "alice" "R" [] T_10h)
                       0 1 Grey [[0; 1]; [3]]) "12.srv" eq_refl)
      as (cmds & E & Hl).
    exists cmds. split; [exact E|]. rewrite Hl. vm_compute. reflexivity.
  - apply (proj2 (draw_ranges_labels
                    (MkJob (IdList ["a"; "b"; "c"]) "relax" "R" "alice"
                           "xfuaknl" 2 timedelta_zero T_10h [] T_10h)
                    0 1 Grey [[0; 1]; [3]])
             ["a"; "b"; "c"] eq_refl).
    reflexivity.
Defined.

Lemma background_rows_witness :
  exists cmds,
    plot_job_schedule env_ex 0 nodes_ex jobs_ex = Ok cmds /\
    forall r, In r (patches_of cmds) /\ facecolor r = Grey <->
      exists i k v,
        nth_error (get_compute_node_list env_ex nodes_ex) i = Some (k, v) /\
        contains "offline" (state v) = true /\
        r = row_rect i Grey None.
Proof.
  eexists. split; [vm_compute; reflexivity|].
  apply (background_rows env_ex 0 nodes_ex jobs_ex).
  vm_compute. reflexivity.
Defined.

Lemma colour_index_bounds_witness :
  exists cmds,
    plot_job_schedule env_ex 0 nodes_ex jobs_ex = Ok cmds /\
    forall r, In r (job_rectangles cmds) -> colour_in_range (facecolor r).
Proof.
  eexists. split; [vm_compute; reflexivity|].
  intros r Hr.
  apply (colour_index_bounds env_ex 0 nodes_ex jobs_ex _
           ltac:(vm_compute; reflexivity) r Hr).
Defined.

Lemma node_names_wellformed_witness :
  In "n1" (node_names "((n1(:ncpus=2)+(n2:ncpus=4)") /\
  count_char ":" "n1" = O /\ count_char "+" "n1" = O /\ clean "n1".
Proof.
  assert (H : In "n1" (node_names "((n1(:ncpus=2)+(n2:ncpus=4)"))
    by (vm_compute; left; reflexivity).
  split; [exact H|].
  exact (proj2 (node_names_wellformed "((n1(:ncpus=2)+(n2:ncpus=4)") "n1" H).
Defined.

End MoreExamples.
